(** * ThinkLife Brain: workflow engine, planner and rate limiter

    A shallow embedding of
    - [brain/cortex/workflow_engine.py]  (module [Workflow]),
    - [brain/cortex/cortex.py] and [brain/cortex/reasoning_engine.py]
      (modules [Cortex], the planner, and [Pipeline],
      [process_agent_request]),
    - [brain/guardrails/security_manager.py] (module [Guardrails]),
    - [brain/providers/provider_registry.py], [brain/tools/tool_registry.py]
      and [brain/data_sources/data_source_registry.py] (module [Registry]),
    with the dataclasses of [brain/specs] they use (module [Specs]).

    Modelling conventions.
    - A Python [float] is a rational ([Q]); decimal literals denote their
      exact decimal value and comparisons are the exact ones.  An
      integer too large for a float raises where it is converted.
    - A Python [str] is a [string] whose characters are the code points
      below 256; [isspace], [lower] and the regular-expression classes
      are the ones Python uses on that range.
    - A call that may raise is a value of [Outcome]: [Ok v] or
      [Raise msg], [msg] being [str(e)].
    - Everything outside the process (provider, vector store, registries,
      the clock, [uuid4], float formatting) is read from an environment
      record, one field per call site. *)

From Stdlib Require Import String Ascii List ZArith QArith Bool Lia Arith.
From Stdlib Require Import DecimalString Qminmax.
From stdpp Require Import gmap strings.
Import ListNotations.

Open Scope string_scope.
Open Scope list_scope.
Open Scope nat_scope.

(* ===================================================================== *)
(** ** Python primitives                                                  *)
(* ===================================================================== *)

Module Py.

(** Result of a call that may raise [Exception]. *)
Inductive Outcome (A : Type) : Type :=
| Ok (value : A)
| Raise (message : string).
Arguments Ok {A} value.
Arguments Raise {A} message.

Definition bind {A B} (m : Outcome A) (k : A -> Outcome B) : Outcome B :=
  match m with
  | Ok v => k v
  | Raise e => Raise e
  end.

(** [try: body finally: cleanup]: the cleanup always runs, and an
    exception of the cleanup replaces the outcome of the body. *)
Definition finally {A} (body : Outcome A) (cleanup : Outcome unit) : Outcome A :=
  match cleanup with
  | Ok _ => body
  | Raise e => Raise e
  end.

(** [x or d] on strings and on optional strings. *)
Definition truthy (s : string) : bool :=
  match s with EmptyString => false | String _ _ => true end.

Definition or_else (s d : string) : string := if truthy s then s else d.

Definition opt_truthy (o : option string) : bool :=
  match o with Some s => truthy s | None => false end.

Definition nl : string := String (ascii_of_nat 10) EmptyString.

(** [str.isspace] on one code point below 256. *)
Definition isspace (c : ascii) : bool :=
  let n := nat_of_ascii c in
  ((9 <=? n) && (n <=? 13)) || ((28 <=? n) && (n <=? 32))
  || (n =? 133) || (n =? 160).

Definition isdigit (c : ascii) : bool :=
  let n := nat_of_ascii c in (48 <=? n) && (n <=? 57).

(** [str.lower] on one code point below 256. *)
Definition lower_char (c : ascii) : ascii :=
  let n := nat_of_ascii c in
  if ((65 <=? n) && (n <=? 90))
     || ((192 <=? n) && (n <=? 222) && negb (n =? 215))
  then ascii_of_nat (n + 32) else c.

Fixpoint lower (s : string) : string :=
  match s with
  | EmptyString => EmptyString
  | String c r => String (lower_char c) (lower r)
  end.

Fixpoint lstrip (s : string) : string :=
  match s with
  | EmptyString => EmptyString
  | String c r => if isspace c then lstrip r else s
  end.

(** Drops trailing white space: the tail is cleaned first, and a white
    character is kept only when something is left after it. *)
Fixpoint rstrip (s : string) : string :=
  match s with
  | EmptyString => EmptyString
  | String c r =>
      match rstrip r with
      | EmptyString => if isspace c then EmptyString else String c EmptyString
      | r' => String c r'
      end
  end.

Definition strip (s : string) : string := rstrip (lstrip s).

Definition len (s : string) : nat := String.length s.

(** [s.count(c)] for a one-character needle. *)
Fixpoint count_char (c : ascii) (s : string) : nat :=
  match s with
  | EmptyString => 0
  | String d r => (if Ascii.eqb c d then 1 else 0) + count_char c r
  end.

Definition startswith (s p : string) : bool := String.prefix p s.

(** [p in s]. *)
Fixpoint contains (p s : string) : bool :=
  if String.prefix p s then true
  else match s with
       | EmptyString => false
       | String _ r => contains p r
       end.

(** [s[:n]]. *)
Definition take (n : nat) (s : string) : string := String.substring 0 n s.

(** [sep.join(parts)]. *)
Fixpoint join (sep : string) (parts : list string) : string :=
  match parts with
  | [] => EmptyString
  | [p] => p
  | p :: rest => p +:+ sep +:+ join sep rest
  end.

(** [len(s.split())]: the number of maximal runs of non-white
    characters. [inword] tells whether the previous character was one. *)
Fixpoint count_words_from (inword : bool) (s : string) : nat :=
  match s with
  | EmptyString => 0
  | String c r =>
      if isspace c then count_words_from false r
      else (if inword then 0 else 1) + count_words_from true r
  end.

Definition count_words (s : string) : nat := count_words_from false s.

(** [str(n)] for a non-negative integer. *)
Definition str_nat (n : nat) : string := NilEmpty.string_of_uint (Nat.to_uint n).

(** The leading run of decimal digits and what follows it. *)
Fixpoint span_digits (s : string) : string * string :=
  match s with
  | EmptyString => (EmptyString, EmptyString)
  | String c r =>
      if isdigit c
      then let (d, rest) := span_digits r in (String c d, rest)
      else (EmptyString, s)
  end.

(** [int(digits)] for a string of decimal digits, most significant
    first. *)
Fixpoint int_of_digits_from (acc : Z) (s : string) : Z :=
  match s with
  | EmptyString => acc
  | String c r => int_of_digits_from (10 * acc + (Z.of_nat (nat_of_ascii c) - 48)) r
  end.

Definition int_of_digits (s : string) : Z := int_of_digits_from 0 s.

(** [int(s)] for a string of decimal digits.  The interpreter limits the
    length of such a string: with [sys.get_int_max_str_digits()] at
    [max_str_digits] (4300 unless configured; 0 lifts the limit, and no
    limit applies to 640 digits or fewer) a longer string raises
    [ValueError].  Leading zeros count. *)
Definition int_of_str (max_str_digits : nat) (s : string) : Outcome Z :=
  if (640 <? String.length s) && (0 <? max_str_digits)
     && (max_str_digits <? String.length s)
  then Raise ("Exceeds the limit (" +:+ str_nat max_str_digits
              +:+ " digits) for integer string conversion: value has "
              +:+ str_nat (String.length s)
              +:+ " digits; use sys.set_int_max_str_digits() to increase the limit")
  else Ok (int_of_digits s).

(** [n / d] for an integer [n] and a float [d] other than zero: [n] is
    first converted to a float, which raises [OverflowError] from
    [2^1024 - 2^970] on, the least integer that rounds to [2^1024]. *)
Definition float_overflows (n : Z) : bool := (2 ^ 1024 - 2 ^ 970 <=? n)%Z.

Definition int_div_float (n : Z) (d : Q) : Outcome Q :=
  if float_overflows n then Raise "int too large to convert to float"
  else Ok (inject_Z n / d)%Q.

(** [re.match(prefix + r'\s*(\d+)', s)], the digits of group 1.  The
    classes [\s] and [\d] are disjoint, so the greedy [\s*] never has
    to give characters back. *)
Definition match_label_digits (label s : string) : option string :=
  if String.prefix label s
  then let after := String.substring (len label) (len s - len label) s in
       let (digits, _) := span_digits (lstrip after) in
       if truthy digits then Some digits else None
  else None.

(** [re.search(label + r'\s*(\d+)', s)]: leftmost match. *)
Fixpoint search_label_digits (label s : string) : option string :=
  match match_label_digits label s with
  | Some d => Some d
  | None =>
      match s with
      | EmptyString => None
      | String _ r => search_label_digits label r
      end
  end.

(** [re.search(label + r'\s*(.+)', s, re.IGNORECASE | re.DOTALL)] with
    a lower-case [label], result [group(1).strip()].  The match needs
    one character after the label; when only white space follows, the
    group is a white character and strips to the empty string. *)
Fixpoint search_label_rest (label s : string) : option string :=
  let here :=
    if String.prefix label (lower s)
    then match String.substring (len label) (len s - len label) s with
         | EmptyString => None
         | after => Some (strip after)
         end
    else None in
  match here with
  | Some g => Some g
  | None =>
      match s with
      | EmptyString => None
      | String _ r => search_label_rest label r
      end
  end.

(** Exact comparisons on rationals. *)
Definition Qgeb (a b : Q) : bool := Qle_bool b a.
Definition Qltb (a b : Q) : bool := negb (Qle_bool b a).

End Py.

Import Py.

(* ===================================================================== *)
(** ** Dataclasses of [brain/specs]                                       *)
(* ===================================================================== *)

Module Specs.

(** A [Dict[str, Any]] whose values are only passed along. *)
Definition Dict := list (string * string).

Fixpoint dict_get (k : string) (d : Dict) : option string :=
  match d with
  | [] => None
  | (k', v) :: rest => if String.eqb k k' then Some v else dict_get k rest
  end.

(** [data_source_specs.py] *)
Inductive DataSourceType := VECTOR_DB | CONVERSATION_HISTORY.

Definition DataSourceType_value (t : DataSourceType) : string :=
  match t with
  | VECTOR_DB => "vector_db"
  | CONVERSATION_HISTORY => "conversation_history"
  end.

Record DataSourceSpec := {
  source_type : DataSourceType;
  query : option string;
  filters : Dict;
  limit : Z;
  enabled : bool;
  config : Dict
}.

(** [provider_specs.py] *)
Record ProviderSpec := {
  provider_type : string;
  model : option string;
  temperature : Q;
  max_tokens : Z;
  stream : bool;
  custom_params : Dict
}.

(** [tool_specs.py] *)
Record ToolSpec := {
  name : string;
  tool_enabled : bool;
  tool_config : Dict;
  required_params : Dict
}.

(** [workflow_specs.py] *)
Record ProcessingSpec := {
  max_iterations : Z;
  timeout_seconds : Q;
  execution_strategy : string;
  reasoning_threshold : Q;
  eval : bool
}.

(** One entry of [conversation_history]; a key may be missing. *)
Record HistoryMessage := {
  h_role : option string;
  h_content : option string
}.

(** [agent_metadata["messages_context"]]; [None] is a missing key. *)
Record MessagesContext := {
  system_prompt : option string;
  conversation_history : option (list HistoryMessage);
  current_message : option string
}.

Record AgentMetadata := {
  messages_context : option MessagesContext
}.

(** [agent_specs.py] *)
Record AgentExecutionSpec := {
  data_sources : list DataSourceSpec;
  provider : option ProviderSpec;
  tools : list ToolSpec;
  processing : option ProcessingSpec;
  agent_metadata : AgentMetadata
}.

(** [core_specs.py] *)
Record UserProfile := {
  profile_id : string;
  profile_name : option string;
  profile_email : option string;
  ace_score : option Q
}.

Record UserContext := {
  user_id : string;
  session_id : string;
  is_authenticated : bool;
  user_profile : option UserProfile
}.

Record BrainRequest := {
  request_id : string;
  application : string;
  message : string;
  user_context : UserContext
}.

(** Notes the reasoning engine attaches to its result
    ([ReasoningEngine.optimize_execution_specs]); a field is a key of
    the dictionary. *)
Record EngineNotes := {
  note_provider : option (string * bool);
  note_data_sources : option nat;
  note_tools : option nat;
  note_error : option string
}.

Definition no_notes : EngineNotes :=
  {| note_provider := None; note_data_sources := None;
     note_tools := None; note_error := None |}.

(** The shapes [reasoning_notes] takes in [cortex.py]. *)
Inductive ReasoningNotes :=
| NotesDirect (note_message : option string)
| NotesEngine (notes : EngineNotes)
| NotesSkipped (skipped : string) (suggestion : EngineNotes).

(** [workflow_specs.py]; [planned_at] is a time stamp nothing reads
    and is left out. *)
Record ExecutionPlan := {
  original_specs : AgentExecutionSpec;
  optimized_specs : AgentExecutionSpec;
  reasoning_applied : bool;
  confidence : Q;
  reasoning_notes : ReasoningNotes;
  estimated_cost : Q;
  estimated_latency : Q
}.

End Specs.

Import Specs.

(* ===================================================================== *)
(** ** [brain/cortex/workflow_engine.py]                                  *)
(* ===================================================================== *)

Module Workflow.

(** One retrieved document, as the vector store adapter returns it. *)
Record Doc := {
  doc_content : string;
  doc_source : string
}.

(** Entries of [data_source_results]: [{source, results, count}] or
    [{source, error}]. *)
Inductive DataSourceResult :=
| SourceResults (source : string) (results : list Doc) (count : nat)
| SourceError (source : string) (error : string).

(** Entries of [tool_results]: [{tool, status, result}] or
    [{tool, error}]. *)
Inductive ToolResult :=
| ToolExecuted (tool : string) (tool_status : string) (result : string)
| ToolError (tool : string) (error : string).

Record Message := {
  role : string;
  content : string
}.

(** What [generate_response] returns; [None] is a missing key. *)
Record LLMResponse := {
  success : bool;
  response_content : option string;
  metadata_error : option string
}.

Record Context := {
  plan_metadata : ExecutionPlan;
  context_session_id : option string
}.

Record WorkflowState := {
  execution_id : string;
  request : BrainRequest;
  specs : AgentExecutionSpec;
  data_source_results : list DataSourceResult;
  tool_results : list ToolResult;
  messages : list Message;
  context : Context;
  llm_response : option LLMResponse;
  final_content : option string;
  errors : list string;
  execution_steps : list string;
  status : string;
  start_time : Q;
  end_time : option Q;
  validation_attempts : nat;
  max_validation_runs : nat;
  validation_feedback : option string;
  is_validated : bool;
  confidence_score : Q
}.

(** Assignments [state[key] = v]. *)
Definition set_data_source_results (v : list DataSourceResult) (s : WorkflowState) : WorkflowState :=
  {| execution_id := execution_id s;
     request := request s;
     specs := specs s;
     data_source_results := v;
     tool_results := tool_results s;
     messages := messages s;
     context := context s;
     llm_response := llm_response s;
     final_content := final_content s;
     errors := errors s;
     execution_steps := execution_steps s;
     status := status s;
     start_time := start_time s;
     end_time := end_time s;
     validation_attempts := validation_attempts s;
     max_validation_runs := max_validation_runs s;
     validation_feedback := validation_feedback s;
     is_validated := is_validated s;
     confidence_score := confidence_score s |}.

Definition set_tool_results (v : list ToolResult) (s : WorkflowState) : WorkflowState :=
  {| execution_id := execution_id s;
     request := request s;
     specs := specs s;
     data_source_results := data_source_results s;
     tool_results := v;
     messages := messages s;
     context := context s;
     llm_response := llm_response s;
     final_content := final_content s;
     errors := errors s;
     execution_steps := execution_steps s;
     status := status s;
     start_time := start_time s;
     end_time := end_time s;
     validation_attempts := validation_attempts s;
     max_validation_runs := max_validation_runs s;
     validation_feedback := validation_feedback s;
     is_validated := is_validated s;
     confidence_score := confidence_score s |}.

Definition set_messages (v : list Message) (s : WorkflowState) : WorkflowState :=
  {| execution_id := execution_id s;
     request := request s;
     specs := specs s;
     data_source_results := data_source_results s;
     tool_results := tool_results s;
     messages := v;
     context := context s;
     llm_response := llm_response s;
     final_content := final_content s;
     errors := errors s;
     execution_steps := execution_steps s;
     status := status s;
     start_time := start_time s;
     end_time := end_time s;
     validation_attempts := validation_attempts s;
     max_validation_runs := max_validation_runs s;
     validation_feedback := validation_feedback s;
     is_validated := is_validated s;
     confidence_score := confidence_score s |}.

Definition set_llm_response (v : option LLMResponse) (s : WorkflowState) : WorkflowState :=
  {| execution_id := execution_id s;
     request := request s;
     specs := specs s;
     data_source_results := data_source_results s;
     tool_results := tool_results s;
     messages := messages s;
     context := context s;
     llm_response := v;
     final_content := final_content s;
     errors := errors s;
     execution_steps := execution_steps s;
     status := status s;
     start_time := start_time s;
     end_time := end_time s;
     validation_attempts := validation_attempts s;
     max_validation_runs := max_validation_runs s;
     validation_feedback := validation_feedback s;
     is_validated := is_validated s;
     confidence_score := confidence_score s |}.

Definition set_final_content (v : option string) (s : WorkflowState) : WorkflowState :=
  {| execution_id := execution_id s;
     request := request s;
     specs := specs s;
     data_source_results := data_source_results s;
     tool_results := tool_results s;
     messages := messages s;
     context := context s;
     llm_response := llm_response s;
     final_content := v;
     errors := errors s;
     execution_steps := execution_steps s;
     status := status s;
     start_time := start_time s;
     end_time := end_time s;
     validation_attempts := validation_attempts s;
     max_validation_runs := max_validation_runs s;
     validation_feedback := validation_feedback s;
     is_validated := is_validated s;
     confidence_score := confidence_score s |}.

Definition set_errors (v : list string) (s : WorkflowState) : WorkflowState :=
  {| execution_id := execution_id s;
     request := request s;
     specs := specs s;
     data_source_results := data_source_results s;
     tool_results := tool_results s;
     messages := messages s;
     context := context s;
     llm_response := llm_response s;
     final_content := final_content s;
     errors := v;
     execution_steps := execution_steps s;
     status := status s;
     start_time := start_time s;
     end_time := end_time s;
     validation_attempts := validation_attempts s;
     max_validation_runs := max_validation_runs s;
     validation_feedback := validation_feedback s;
     is_validated := is_validated s;
     confidence_score := confidence_score s |}.

Definition set_execution_steps (v : list string) (s : WorkflowState) : WorkflowState :=
  {| execution_id := execution_id s;
     request := request s;
     specs := specs s;
     data_source_results := data_source_results s;
     tool_results := tool_results s;
     messages := messages s;
     context := context s;
     llm_response := llm_response s;
     final_content := final_content s;
     errors := errors s;
     execution_steps := v;
     status := status s;
     start_time := start_time s;
     end_time := end_time s;
     validation_attempts := validation_attempts s;
     max_validation_runs := max_validation_runs s;
     validation_feedback := validation_feedback s;
     is_validated := is_validated s;
     confidence_score := confidence_score s |}.

Definition set_status (v : string) (s : WorkflowState) : WorkflowState :=
  {| execution_id := execution_id s;
     request := request s;
     specs := specs s;
     data_source_results := data_source_results s;
     tool_results := tool_results s;
     messages := messages s;
     context := context s;
     llm_response := llm_response s;
     final_content := final_content s;
     errors := errors s;
     execution_steps := execution_steps s;
     status := v;
     start_time := start_time s;
     end_time := end_time s;
     validation_attempts := validation_attempts s;
     max_validation_runs := max_validation_runs s;
     validation_feedback := validation_feedback s;
     is_validated := is_validated s;
     confidence_score := confidence_score s |}.

Definition set_end_time (v : option Q) (s : WorkflowState) : WorkflowState :=
  {| execution_id := execution_id s;
     request := request s;
     specs := specs s;
     data_source_results := data_source_results s;
     tool_results := tool_results s;
     messages := messages s;
     context := context s;
     llm_response := llm_response s;
     final_content := final_content s;
     errors := errors s;
     execution_steps := execution_steps s;
     status := status s;
     start_time := start_time s;
     end_time := v;
     validation_attempts := validation_attempts s;
     max_validation_runs := max_validation_runs s;
     validation_feedback := validation_feedback s;
     is_validated := is_validated s;
     confidence_score := confidence_score s |}.

Definition set_validation_attempts (v : nat) (s : WorkflowState) : WorkflowState :=
  {| execution_id := execution_id s;
     request := request s;
     specs := specs s;
     data_source_results := data_source_results s;
     tool_results := tool_results s;
     messages := messages s;
     context := context s;
     llm_response := llm_response s;
     final_content := final_content s;
     errors := errors s;
     execution_steps := execution_steps s;
     status := status s;
     start_time := start_time s;
     end_time := end_time s;
     validation_attempts := v;
     max_validation_runs := max_validation_runs s;
     validation_feedback := validation_feedback s;
     is_validated := is_validated s;
     confidence_score := confidence_score s |}.

Definition set_validation_feedback (v : option string) (s : WorkflowState) : WorkflowState :=
  {| execution_id := execution_id s;
     request := request s;
     specs := specs s;
     data_source_results := data_source_results s;
     tool_results := tool_results s;
     messages := messages s;
     context := context s;
     llm_response := llm_response s;
     final_content := final_content s;
     errors := errors s;
     execution_steps := execution_steps s;
     status := status s;
     start_time := start_time s;
     end_time := end_time s;
     validation_attempts := validation_attempts s;
     max_validation_runs := max_validation_runs s;
     validation_feedback := v;
     is_validated := is_validated s;
     confidence_score := confidence_score s |}.

Definition set_is_validated (v : bool) (s : WorkflowState) : WorkflowState :=
  {| execution_id := execution_id s;
     request := request s;
     specs := specs s;
     data_source_results := data_source_results s;
     tool_results := tool_results s;
     messages := messages s;
     context := context s;
     llm_response := llm_response s;
     final_content := final_content s;
     errors := errors s;
     execution_steps := execution_steps s;
     status := status s;
     start_time := start_time s;
     end_time := end_time s;
     validation_attempts := validation_attempts s;
     max_validation_runs := max_validation_runs s;
     validation_feedback := validation_feedback s;
     is_validated := v;
     confidence_score := confidence_score s |}.

Definition set_confidence_score (v : Q) (s : WorkflowState) : WorkflowState :=
  {| execution_id := execution_id s;
     request := request s;
     specs := specs s;
     data_source_results := data_source_results s;
     tool_results := tool_results s;
     messages := messages s;
     context := context s;
     llm_response := llm_response s;
     final_content := final_content s;
     errors := errors s;
     execution_steps := execution_steps s;
     status := status s;
     start_time := start_time s;
     end_time := end_time s;
     validation_attempts := validation_attempts s;
     max_validation_runs := max_validation_runs s;
     validation_feedback := validation_feedback s;
     is_validated := is_validated s;
     confidence_score := v |}.


Definition push_step (step : string) (s : WorkflowState) : WorkflowState :=
  set_execution_steps (execution_steps s ++ [step]) s.

Definition push_error (e : string) (s : WorkflowState) : WorkflowState :=
  set_errors (errors s ++ [e]) s.

(** The world around one execution.  The natural number given to the
    provider and grading calls is [validation_attempts] at the time of
    the call; the one given to the vector store calls is the position of
    the source in [specs.data_sources]. *)
Record Env := {
  (* Python run time *)
  uuid4 : string;
  clock_start : Q;                       (* [time.time()] in [execute_plan] *)
  clock_end : Q;                         (* [time.time()] when the run ends *)
  clock_report : Q;                      (* [time.time()] in the result *)
  format_2f : Q -> string;               (* [f"{x:.2f}"] *)
  str_float : Q -> string;               (* [str(x)] *)
  str_docs : list Doc -> string;         (* [str(results)] *)
  int_max_str_digits : nat;              (* [sys.get_int_max_str_digits()] *)
  (* registries *)
  check_data_source_available : string -> bool;
  check_tool_available : string -> bool;
  (* vector store adapter *)
  vector_initialize : nat -> Dict -> Outcome bool;
  vector_query : nat -> string -> option string -> Z -> Outcome (list Doc);
  vector_close : nat -> Outcome unit;
  (* provider gateway used by CALL_PROVIDER *)
  create_provider : nat -> ProviderSpec -> Outcome unit;
  provider_initialize : nat -> Outcome bool;
  generate_response : nat -> list Message -> ProviderSpec -> Outcome LLMResponse;
  provider_close : nat -> Outcome unit;
  (* provider instance used by the grading call of the validator *)
  grader_create : nat -> ProviderSpec -> Outcome unit;
  grader_initialize : nat -> Outcome bool;
  grader_generate : nat -> string -> Outcome LLMResponse;
  grader_close : nat -> Outcome unit;
  (* the method the validation node finds under the name
     [_validate_response_quality]: [None] for the method of this class,
     which returns on every string, [Some e] for one put in its place (by
     a subclass or a test double) that raises [e] *)
  quality_fault : nat -> option string
}.

(** *** Nodes *)

Definition _initialize_node (s : WorkflowState) : WorkflowState :=
  push_step "initialize" s.

(** Body of the loop of [_query_data_sources_node] for one entry, on the
    pair of the local [results] list and [state["errors"]]. *)
Definition query_data_source (env : Env) (req : BrainRequest) (i : nat)
    (ds_spec : DataSourceSpec) (acc : list DataSourceResult * list string)
  : list DataSourceResult * list string :=
  let (results, errs) := acc in
  if negb (enabled ds_spec) then acc
  else
    let ds_error e := (results, errs ++ ["DS Error: " +:+ e]) in
    let source_name := DataSourceType_value (source_type ds_spec) in
    if String.eqb source_name "vector_db" then
      if check_data_source_available env "vector_db" then
        match vector_initialize env i (config ds_spec) with
        | Raise e => ds_error e
        | Ok false => (results ++ [SourceError source_name "Initialization failed"], errs)
        | Ok true =>
            match vector_query env i
                    (if opt_truthy (query ds_spec)
                     then default "" (query ds_spec) else message req)
                    (dict_get "filter" (config ds_spec))
                    (if (limit ds_spec =? 0)%Z then 5%Z else limit ds_spec) with
            | Raise e => ds_error e
            | Ok query_res =>
                let results' :=
                  results ++ [SourceResults source_name query_res (length query_res)] in
                match vector_close env i with
                | Raise e => (results', errs ++ ["DS Error: " +:+ e])
                | Ok _ => (results', errs)
                end
            end
        end
      else (results ++ [SourceError source_name "Not available"], errs)
    else acc.

Fixpoint query_data_sources_from (env : Env) (req : BrainRequest) (i : nat)
    (l : list DataSourceSpec) (acc : list DataSourceResult * list string)
  : list DataSourceResult * list string :=
  match l with
  | [] => acc
  | ds_spec :: rest =>
      query_data_sources_from env req (S i) rest (query_data_source env req i ds_spec acc)
  end.

Definition _query_data_sources_node (env : Env) (s : WorkflowState) : WorkflowState :=
  let s := push_step "query_data_sources" s in
  let (results, errs) :=
    query_data_sources_from env (request s) 0 (data_sources (specs s)) ([], errors s) in
  set_data_source_results results (set_errors errs s).

Definition execute_tool (env : Env) (t : ToolSpec) (results : list ToolResult)
  : list ToolResult :=
  if negb (tool_enabled t) then results
  else if check_tool_available env (name t)
       then results ++ [ToolExecuted (name t) "executed" "Tool execution placeholder"]
       else results ++ [ToolError (name t) "Not available"].

Definition _execute_tools_node (env : Env) (s : WorkflowState) : WorkflowState :=
  let s := push_step "execute_tools" s in
  set_tool_results (fold_left (fun results t => execute_tool env t results) (tools (specs s)) []) s.

(** *** User context utilities

    [user_context] is the [UserContext] dataclass, so [asdict] has the
    keys of that class: [authenticated], [name], [email] and [roles] are
    never among them. *)

Record UserInfo := {
  info_user_id : option string;
  info_session_id : option string;
  info_name : option string;
  info_email : option string;
  info_roles : option (list string);
  info_ace_score : option Q
}.

Definition present {A} (o : option A) : nat :=
  match o with Some _ => 1 | None => 0 end.

Definition info_len (info : UserInfo) : nat :=
  present (info_user_id info) + present (info_session_id info)
  + present (info_name info) + present (info_email info)
  + present (info_roles info) + present (info_ace_score info).

Definition keep_truthy (s : string) : option string :=
  if truthy s then Some s else None.

Definition _extract_user_info_for_llm (uc : UserContext) : option UserInfo :=
  if negb (is_authenticated uc) then None
  else
    let info :=
      {| info_user_id := keep_truthy (user_id uc);
         info_session_id := keep_truthy (session_id uc);
         info_name := None;
         info_email := None;
         info_roles := None;
         info_ace_score :=
           match user_profile uc with
           | Some profile => ace_score profile
           | None => None
           end |} in
    if 1 <? info_len info then Some info else None.

Definition _has_user_context_in_prompt (prompt : string) : bool :=
  if negb (truthy prompt) then false
  else
    let indicators :=
      ["user_id"; "session_id"; "user context"; "user information"; "authenticated user"] in
    let prompt_lower := lower prompt in
    existsb (fun i => contains i prompt_lower) indicators.

Definition _build_user_context_prompt (env : Env) (info : UserInfo) : string :=
  let lines :=
    (if opt_truthy (info_name info)
     then ["User name: " +:+ default "" (info_name info)] else [])
    ++ (if opt_truthy (info_email info)
        then ["User email: " +:+ default "" (info_email info)] else [])
    ++ (match info_roles info with
        | Some (r :: rs) => ["User roles: " +:+ join ", " (r :: rs)]
        | _ => []
        end)
    ++ (match info_ace_score info with
        | Some ace => ["User ACE score: " +:+ str_float env ace]
        | None => []
        end) in
  match lines with
  | [] => ""
  | _ => "User Context:" +:+ nl +:+ join nl (map (fun l => "- " +:+ l) lines)
  end.

Definition _enhance_prompt_with_user_info (env : Env) (prompt : string)
    (user_info : UserInfo) : string :=
  let ctx_str := _build_user_context_prompt env user_info in
  if truthy ctx_str then ctx_str +:+ nl +:+ nl +:+ prompt else prompt.

Definition _format_data_source_context (env : Env) (s : WorkflowState) : string :=
  join nl
    (map (fun r =>
            match r with
            | SourceResults source results _ =>
                "Data from " +:+ source +:+ ": " +:+ str_docs env results
            | SourceError source _ => "Data from " +:+ source +:+ ": "
            end)
         (data_source_results s)).

Definition _format_tool_context (s : WorkflowState) : string :=
  join nl
    (map (fun r =>
            match r with
            | ToolExecuted tool _ result => "Tool " +:+ tool +:+ ": " +:+ result
            | ToolError tool error => "Tool " +:+ tool +:+ ": " +:+ error
            end)
         (tool_results s)).

Definition _inject_context_messages (env : Env) (msgs : list Message)
    (s : WorkflowState) : list Message :=
  let ds_ctx := _format_data_source_context env s in
  let msgs :=
    if truthy ds_ctx
    then msgs ++ [{| role := "system"; content := "Context:" +:+ nl +:+ ds_ctx |}]
    else msgs in
  let tool_ctx := _format_tool_context s in
  if truthy tool_ctx
  then msgs ++ [{| role := "system"; content := "Tool Results:" +:+ nl +:+ tool_ctx |}]
  else msgs.

Definition retry_guidance (prev_response feedback : string) : string :=
  "IMPORTANT - Response Improvement Required:" +:+ nl
  +:+ "Your previous response was not satisfactory. " +:+ nl +:+ nl
  +:+ "Previous response: " +:+ take 500 prev_response
  +:+ (if 500 <? len prev_response then "..." else "") +:+ nl +:+ nl
  +:+ "Feedback: " +:+ feedback +:+ nl +:+ nl
  +:+ "Please generate a better, more helpful, and complete response that addresses the user's question properly.".

(** A dictionary is true when it has a key. *)
Definition messages_context_truthy (mc : MessagesContext) : bool :=
  match system_prompt mc, conversation_history mc, current_message mc with
  | None, None, None => false
  | _, _, _ => true
  end.

(** The [try] block of [_build_messages_node]; it raises when a retry
    finds no previous response to slice. *)
Definition build_messages (env : Env) (s : WorkflowState) : Outcome (list Message) :=
  let req := request s in
  let is_retry := (0 <? validation_attempts s) && opt_truthy (validation_feedback s) in
  let user_info := _extract_user_info_for_llm (user_context req) in
  let msg_context :=
    match messages_context (agent_metadata (specs s)) with
    | Some mc => if messages_context_truthy mc then Some mc else None
    | None => None
    end in
  match msg_context with
  | Some mc =>
      let sys_prompt := default "" (system_prompt mc) in
      let sys_prompt :=
        match user_info with
        | Some info =>
            if negb (_has_user_context_in_prompt sys_prompt)
            then _enhance_prompt_with_user_info env sys_prompt info
            else sys_prompt
        | None => sys_prompt
        end in
      let msgs :=
        if truthy sys_prompt then [{| role := "system"; content := sys_prompt |}] else [] in
      let msgs :=
        msgs ++ map (fun m => {| role := default "user" (h_role m);
                                 content := default "" (h_content m) |})
                    (default [] (conversation_history mc)) in
      let msgs := _inject_context_messages env msgs s in
      Ok (msgs ++ [{| role := "user";
                      content := if opt_truthy (current_message mc)
                                 then default "" (current_message mc)
                                 else message req |}])
  | None =>
      let sys_parts :=
        match user_info with
        | Some info => [_build_user_context_prompt env info]
        | None => []
        end in
      let ds_ctx := _format_data_source_context env s in
      let sys_parts :=
        if truthy ds_ctx
        then sys_parts ++ ["Context from data sources:" +:+ nl +:+ ds_ctx] else sys_parts in
      let tool_ctx := _format_tool_context s in
      let sys_parts :=
        if truthy tool_ctx
        then sys_parts ++ ["Tool results:" +:+ nl +:+ tool_ctx] else sys_parts in
      bind (if is_retry
            then match final_content s with
                 | Some prev_response =>
                     Ok (sys_parts
                         ++ [retry_guidance prev_response
                                            (default "" (validation_feedback s))])
                 | None => Raise "'NoneType' object is not subscriptable"
                 end
            else Ok sys_parts)
        (fun sys_parts =>
           let msgs :=
             match sys_parts with
             | [] => []
             | _ => [{| role := "system"; content := join (nl +:+ nl) sys_parts |}]
             end in
           Ok (msgs ++ [{| role := "user"; content := message req |}]))
  end.

Definition _build_messages_node (env : Env) (s : WorkflowState) : WorkflowState :=
  let s := push_step "build_messages" s in
  match build_messages env s with
  | Ok msgs => set_messages msgs s
  | Raise e =>
      let s := push_error e s in
      match messages s with
      | [] => set_messages [{| role := "user"; content := or_else (message (request s)) "Hello" |}] s
      | _ => s
      end
  end.

(** The [except] branch of [_call_provider_node]. *)
Definition provider_call_failed (e : string) (s : WorkflowState) : WorkflowState :=
  set_final_content (Some ("Error calling provider: " +:+ e)) (push_error e s).

Definition _call_provider_node (env : Env) (s : WorkflowState) : WorkflowState :=
  let s := push_step "call_provider" s in
  let n := validation_attempts s in
  match provider (specs s) with
  | None => provider_call_failed "No provider specified" s
  | Some p =>
      match create_provider env n p with
      | Raise e => provider_call_failed e s
      | Ok _ =>
          match provider_initialize env n with
          | Raise e => provider_call_failed e s
          | Ok false =>
              provider_call_failed ("Failed to initialize provider " +:+ provider_type p) s
          | Ok true =>
              (* inner [try]: the state it reaches, and the exception it
                 leaves with, if any *)
              let (s, raised) :=
                match generate_response env n (messages s) p with
                | Raise e => (s, Some e)
                | Ok response =>
                    let s := set_llm_response (Some response) s in
                    if success response
                    then (set_final_content
                            (Some (default "" (response_content response))) s, None)
                    else
                      let err := default "Unknown provider error" (metadata_error response) in
                      (set_final_content (Some ("Error: " +:+ err)) (push_error err s), None)
                end in
              (* [finally: await provider.close()] *)
              match provider_close env n, raised with
              | Raise e, _ => provider_call_failed e s
              | Ok _, Some e => provider_call_failed e s
              | Ok _, None => s
              end
          end
      end
  end.

(** *** Response validator *)

Record ValidationResult := {
  is_valid : bool;
  feedback : option string;
  v_confidence : Q;
  reasoning : option string
}.

Definition error_patterns : list string :=
  ["i cannot"; "i can't"; "i don't have"; "i'm unable";
   "as an ai"; "i apologize, but"; "i'm sorry, but"].

Definition validation_prompt (user_message response : string) : string :=
  "Evaluate this AI response and provide a confidence score." +:+ nl +:+ nl
  +:+ "User Message: " +:+ user_message +:+ nl +:+ nl
  +:+ "AI Response: " +:+ response +:+ nl +:+ nl
  +:+ "Evaluate:" +:+ nl
  +:+ "1. Relevance to the user's question (0-25 points)" +:+ nl
  +:+ "2. Helpfulness and informativeness (0-25 points)" +:+ nl
  +:+ "3. Accuracy and correctness (0-25 points)" +:+ nl
  +:+ "4. Completeness (not cut off, addresses the question) (0-25 points)" +:+ nl +:+ nl
  +:+ "Respond in this EXACT format:" +:+ nl
  +:+ "SCORE: <number 0-100>" +:+ nl
  +:+ "REASONING: <brief explanation>" +:+ nl +:+ nl
  +:+ "If score >= 75, the response is acceptable. Below 75, it needs improvement.".

(** What [_validate_response_quality] makes of the text of the grading
    call, [confidence_score] being the base confidence.  The two
    conversions of the score, [int(...)] and the division by [100.0],
    raise on a number that is too long or too large. *)
Definition grade (env : Env) (confidence_score : Q) (validation_text : string)
  : Outcome ValidationResult :=
  match search_label_digits "SCORE:" validation_text with
  | Some digits =>
      bind (int_of_str (int_max_str_digits env) digits) (fun llm_score =>
      bind (int_div_float llm_score 100) (fun normalised =>
      let llm_confidence := Qmin normalised 1 in
      let final_confidence := (confidence_score * 0.3 + llm_confidence * 0.7)%Q in
      let reasoning_text :=
        match search_label_rest "reasoning:" validation_text with
        | Some r => r
        | None => "No reasoning provided"
        end in
      if Qgeb final_confidence 0.75
      then Ok {| is_valid := true; feedback := None;
                 v_confidence := final_confidence; reasoning := Some reasoning_text |}
      else Ok {| is_valid := false;
                 feedback := Some ("Confidence too low (" +:+ format_2f env final_confidence
                                   +:+ "): " +:+ reasoning_text);
                 v_confidence := final_confidence; reasoning := None |}))
  | None =>
      if contains "acceptable" (lower validation_text)
         || contains "good" (lower validation_text)
      then Ok {| is_valid := true; feedback := None; v_confidence := 0.75;
                 reasoning := None |}
      else Ok {| is_valid := false; feedback := Some validation_text;
                 v_confidence := 0.5; reasoning := None |}
  end.

Definition accept_with (confidence_score : Q) : ValidationResult :=
  {| is_valid := true; feedback := None;
     v_confidence := confidence_score; reasoning := None |}.

(** The [try] block of the model-graded stage. *)
Definition llm_validation (env : Env) (s : WorkflowState)
    (response user_message : string) (confidence_score : Q) : Outcome ValidationResult :=
  let n := validation_attempts s in
  match provider (specs s) with
  | None => Ok (accept_with confidence_score)
  | Some p =>
      bind (grader_create env n p) (fun _ =>
      bind (grader_initialize env n) (fun initialized =>
      if negb initialized then Ok (accept_with confidence_score)
      else
        finally
          (bind (grader_generate env n (validation_prompt user_message response))
             (fun validation_response =>
                let validation_text :=
                  strip (default "" (response_content validation_response)) in
                grade env confidence_score validation_text))
          (grader_close env n)))
  end.

(** The method returns on every string: the rules raise nothing, and
    whatever the model-graded stage raises is caught. *)
Definition _validate_response_quality (env : Env) (response user_message : string)
    (s : WorkflowState) : ValidationResult :=
  if len (strip response) <? 10 then
    {| is_valid := false; feedback := Some "Response is too short";
       v_confidence := 0.1; reasoning := None |}
  else if count_char " " response <? 3 then
    {| is_valid := false; feedback := Some "Response lacks substance";
       v_confidence := 0.2; reasoning := None |}
  else
    let response_lower := lower response in
    if existsb (fun pattern => contains pattern response_lower) error_patterns
       && (len response <? 100)
    then
      {| is_valid := false;
         feedback := Some "Response appears to be a refusal or error message";
         v_confidence := 0.3; reasoning := None |}
    else
      let confidence_score := 0.5%Q in
      match llm_validation env s response user_message confidence_score with
      | Ok r => r
      | Raise _ => accept_with confidence_score
      end.

(** [await self._validate_response_quality(...)] in the validation node:
    the method above, unless another one has been put in its place. *)
Definition call_validate_response_quality (env : Env) (response user_message : string)
    (s : WorkflowState) : Outcome ValidationResult :=
  match quality_fault env (validation_attempts s) with
  | Some e => Raise e
  | None => Ok (_validate_response_quality env response user_message s)
  end.

Definition _validate_response_node (env : Env) (s : WorkflowState) : WorkflowState :=
  let s := push_step "validate_response" s in
  let s := set_validation_attempts (validation_attempts s + 1) s in
  let response_content := default "" (final_content s) in
  if negb (truthy response_content) || startswith response_content "Error:" then
    set_confidence_score 0
      (set_validation_feedback (Some "Response generation failed or returned error") s)
  else
    match call_validate_response_quality env response_content (message (request s)) s with
    | Ok validation_result =>
        let confidence := v_confidence validation_result in
        let s := set_confidence_score confidence s in
        if Qgeb confidence 0.75 then set_is_validated true s
        else
          set_validation_feedback
            (Some (default ("Confidence too low: " +:+ format_2f env confidence)
                           (feedback validation_result)))
            (set_is_validated false s)
    | Raise e =>
        set_is_validated true
          (set_confidence_score 0.5 (push_error ("Validation error: " +:+ e) s))
    end.

Definition fallback_messages : list string :=
  ["I'm not confident I can provide an accurate answer to that question right now.";
   "I don't have enough information to give you a reliable response at this time.";
   "I'm uncertain about the best way to answer that. Could you rephrase or provide more context?";
   "I don't know enough about this topic to provide a helpful response."].

Definition _finalize_node (env : Env) (s : WorkflowState) : WorkflowState :=
  let s := push_step "finalize" s in
  let confidence := confidence_score s in
  let s :=
    if Qltb confidence 0.75 then
      push_error ("Low confidence response (" +:+ format_2f env confidence
                  +:+ ") replaced with fallback")
        (set_final_content (Some (nth 0 fallback_messages "")) s)
    else s in
  let s :=
    set_status (match errors s with [] => "completed" | _ => "completed_with_errors" end) s in
  set_end_time (Some (clock_end env)) s.

(** *** Routing *)

Definition _route_after_initialize (s : WorkflowState) : string :=
  if existsb enabled (data_sources (specs s)) then "data_sources"
  else if existsb tool_enabled (tools (specs s)) then "tools"
  else "messages".

Definition _route_after_data_sources (s : WorkflowState) : string :=
  if existsb tool_enabled (tools (specs s)) then "tools" else "messages".

(** The router writes to the state when the attempts are used up, so it
    returns the state with the route. *)
Definition _route_after_validation (s : WorkflowState) : string * WorkflowState :=
  if is_validated s then ("finalize", s)
  else if max_validation_runs s <=? validation_attempts s then
    ("finalize",
     push_error ("Response validation failed after " +:+ str_nat (validation_attempts s)
                 +:+ " attempts")
       (set_is_validated true s))
  else ("retry", s).

(** *** Sequential execution

    [while True] is unfolded at most [fuel] times; [None] is a loop that
    has not left after that many rounds.  Every node handles its own
    exceptions, so on these typed states nothing reaches the handler of
    [_execute_sequential], which is left out. *)

Fixpoint retry_loop (env : Env) (fuel : nat) (s : WorkflowState) : option WorkflowState :=
  match fuel with
  | 0 => None
  | S fuel' =>
      let s := _build_messages_node env s in
      let s := _call_provider_node env s in
      let s := _validate_response_node env s in
      let (route, s) := _route_after_validation s in
      if String.eqb route "finalize" then Some s
      else retry_loop env fuel' s
  end.

Definition _execute_sequential (env : Env) (fuel : nat) (s : WorkflowState)
  : option WorkflowState :=
  let s := _initialize_node s in
  let s :=
    match data_sources (specs s) with
    | [] => s
    | _ => _query_data_sources_node env s
    end in
  let s :=
    match tools (specs s) with
    | [] => s
    | _ => _execute_tools_node env s
    end in
  match retry_loop env fuel s with
  | Some s => Some (_finalize_node env s)
  | None => None
  end.

(** *** Graph execution

    The graph of [_build_graph]: its nodes, its edges, and the driver of
    the graph library, which runs the entry node, follows the edge chosen
    by the state, and gives up with an exception after [recursion_limit]
    node executions (25 unless configured). *)

Inductive Node :=
| INITIALIZE | QUERY_DATA_SOURCES | EXECUTE_TOOLS | BUILD_MESSAGES
| CALL_PROVIDER | VALIDATE_RESPONSE | FINALIZE.

Inductive Target := Goto (n : Node) | END.

Definition node_name (n : Node) : string :=
  match n with
  | INITIALIZE => "initialize"
  | QUERY_DATA_SOURCES => "query_data_sources"
  | EXECUTE_TOOLS => "execute_tools"
  | BUILD_MESSAGES => "build_messages"
  | CALL_PROVIDER => "call_provider"
  | VALIDATE_RESPONSE => "validate_response"
  | FINALIZE => "finalize"
  end.

(** [workflow.add_node(name, function)] *)
Definition node_function (env : Env) (n : Node) : WorkflowState -> WorkflowState :=
  match n with
  | INITIALIZE => _initialize_node
  | QUERY_DATA_SOURCES => _query_data_sources_node env
  | EXECUTE_TOOLS => _execute_tools_node env
  | BUILD_MESSAGES => _build_messages_node env
  | CALL_PROVIDER => _call_provider_node env
  | VALIDATE_RESPONSE => _validate_response_node env
  | FINALIZE => _finalize_node env
  end.

(** The mapping of a conditional edge, applied to the router's answer. *)
Fixpoint follow (route : string) (mapping : list (string * Node)) : Outcome Target :=
  match mapping with
  | [] => Raise ("unknown route " +:+ route)
  | (label, n) :: rest =>
      if String.eqb route label then Ok (Goto n) else follow route rest
  end.

(** [add_edge] and [add_conditional_edges] of [_build_graph].  The graph
    library gives a router a mapping of its own that holds the values of
    the state, and takes nothing from it but the route: an item the
    router assigns ([is_validated]) does not reach the next node, whereas
    an entry appended to a list of the state ([errors]) does, the list
    being the one the state holds. *)
Definition edge (n : Node) (s : WorkflowState) : Outcome Target * WorkflowState :=
  match n with
  | INITIALIZE =>
      (follow (_route_after_initialize s)
         [("data_sources", QUERY_DATA_SOURCES); ("tools", EXECUTE_TOOLS);
          ("messages", BUILD_MESSAGES)], s)
  | QUERY_DATA_SOURCES =>
      (follow (_route_after_data_sources s)
         [("tools", EXECUTE_TOOLS); ("messages", BUILD_MESSAGES)], s)
  | EXECUTE_TOOLS => (Ok (Goto BUILD_MESSAGES), s)
  | BUILD_MESSAGES => (Ok (Goto CALL_PROVIDER), s)
  | CALL_PROVIDER => (Ok (Goto VALIDATE_RESPONSE), s)
  | VALIDATE_RESPONSE =>
      let (route, routed) := _route_after_validation s in
      (follow route [("retry", BUILD_MESSAGES); ("finalize", FINALIZE)],
       set_is_validated (is_validated s) routed)
  | FINALIZE => (Ok END, s)
  end.

Record CompiledGraph := {
  recursion_limit : nat
}.

Fixpoint ainvoke_from (env : Env) (limit : nat) (n : Node) (s : WorkflowState)
  : Outcome WorkflowState :=
  match limit with
  | 0 => Raise "Recursion limit reached without hitting a stop condition"
  | S limit' =>
      let s := node_function env n s in
      match edge n s with
      | (Ok END, s) => Ok s
      | (Ok (Goto n'), s) => ainvoke_from env limit' n' s
      | (Raise e, _) => Raise e
      end
  end.

(** [graph.ainvoke(initial_state)], the entry point being "initialize". *)
Definition ainvoke (env : Env) (g : CompiledGraph) (s : WorkflowState)
  : Outcome WorkflowState :=
  ainvoke_from env (recursion_limit g) INITIALIZE s.

Definition _execute_graph (env : Env) (g : CompiledGraph) (initial_state : WorkflowState)
  : WorkflowState :=
  match ainvoke env g initial_state with
  | Ok s => s
  | Raise e =>
      set_end_time (Some (clock_end env))
        (push_error ("Graph error: " +:+ e) (set_status "failed" initial_state))
  end.

(** *** [execute_plan] *)

(** [self.graph]: the compiled graph, or [None] when the graph library
    cannot be imported. *)
Record WorkflowEngine := {
  graph : option CompiledGraph
}.

Definition _build_graph (langgraph_available : bool) : WorkflowEngine :=
  {| graph := if langgraph_available then Some {| recursion_limit := 25 |} else None |}.

Record ResultMetadata := {
  meta_execution_steps : list string;
  meta_errors : list string;
  duration_seconds : Q;
  meta_confidence_score : Q;
  meta_validation_attempts : nat
}.

Record ExecutionResult := {
  result_success : bool;
  result_content : string;
  result_execution_id : string;
  result_status : string;
  result_confidence : Q;
  result_metadata : ResultMetadata
}.

Definition initial_state (env : Env) (plan : ExecutionPlan) (req : BrainRequest)
  : WorkflowState :=
  {| execution_id := uuid4 env;
     request := req;
     specs := optimized_specs plan;
     data_source_results := [];
     tool_results := [];
     messages := [];
     context := {| plan_metadata := plan;
                   context_session_id := Some (session_id (user_context req)) |};
     llm_response := None;
     final_content := None;
     errors := [];
     execution_steps := [];
     status := "running";
     start_time := clock_start env;
     end_time := None;
     validation_attempts := 0;
     max_validation_runs := 5;
     validation_feedback := None;
     is_validated := false;
     confidence_score := 0 |}.

(** The content [execute_plan] reports for a final state. *)
Definition reported_content (final_state : WorkflowState) : string :=
  match final_content final_state with
  | Some c => c
  | None =>
      match llm_response final_state with
      | Some r => default "" (response_content r)
      | None => "No response generated"
      end
  end.

Definition llm_success (final_state : WorkflowState) : bool :=
  match llm_response final_state with
  | Some r => success r
  | None => false
  end.

Definition has_valid_content (final_content : string) : bool :=
  truthy final_content
  && negb (String.eqb final_content "No response generated")
  && negb (startswith final_content "Error:").

Definition status_completed (st : string) : bool :=
  existsb (String.eqb st) ["completed"; "completed_with_errors"].

(** The part of [execute_plan] after the run: from the final state to
    the dictionary handed back. *)
Definition determine_outcome (env : Env) (final_state : WorkflowState) : ExecutionResult :=
  let final_content := reported_content final_state in
  let is_successful :=
    (llm_success final_state && has_valid_content final_content)
    || (has_valid_content final_content && status_completed (status final_state)) in
  {| result_success := is_successful;
     result_content := final_content;
     result_execution_id := execution_id final_state;
     result_status := status final_state;
     result_confidence := confidence_score final_state;
     result_metadata :=
       {| meta_execution_steps := execution_steps final_state;
          meta_errors := errors final_state;
          duration_seconds :=
            (match end_time final_state with
             | Some t => if Qeq_bool t 0 then clock_report env else t
             | None => clock_report env
             end - start_time final_state)%Q;
          meta_confidence_score := confidence_score final_state;
          meta_validation_attempts := validation_attempts final_state |} |}.

(** The final state of the run of [execute_plan], on the graph when the
    engine has one and sequentially otherwise. *)
Definition run_workflow (env : Env) (engine : WorkflowEngine) (fuel : nat)
    (plan : ExecutionPlan) (req : BrainRequest) : option WorkflowState :=
  match graph engine with
  | Some g => Some (_execute_graph env g (initial_state env plan req))
  | None => _execute_sequential env fuel (initial_state env plan req)
  end.

Definition execute_plan (env : Env) (engine : WorkflowEngine) (fuel : nat)
    (plan : ExecutionPlan) (req : BrainRequest) : option ExecutionResult :=
  match run_workflow env engine fuel plan req with
  | Some final_state => Some (determine_outcome env final_state)
  | None => None
  end.

(** *** The states of a run

    The list of the states a run passes through, in order: the state
    after every node and after every routing decision.  The drivers
    above return the last of them; these lists are what a property that
    holds throughout an execution is stated on. *)

Fixpoint retry_loop_states (env : Env) (fuel : nat) (s : WorkflowState)
  : list WorkflowState :=
  match fuel with
  | 0 => []
  | S fuel' =>
      let s1 := _build_messages_node env s in
      let s2 := _call_provider_node env s1 in
      let s3 := _validate_response_node env s2 in
      let (route, s4) := _route_after_validation s3 in
      [s1; s2; s3; s4]
      ++ (if String.eqb route "finalize" then [] else retry_loop_states env fuel' s4)
  end.

Definition _execute_sequential_states (env : Env) (fuel : nat) (s : WorkflowState)
  : list WorkflowState :=
  let s1 := _initialize_node s in
  let s2 :=
    match data_sources (specs s1) with
    | [] => s1
    | _ => _query_data_sources_node env s1
    end in
  let s3 :=
    match tools (specs s2) with
    | [] => s2
    | _ => _execute_tools_node env s2
    end in
  [s1; s2; s3] ++ retry_loop_states env fuel s3
  ++ match retry_loop env fuel s3 with
     | Some s4 => [_finalize_node env s4]
     | None => []
     end.

Fixpoint ainvoke_states (env : Env) (limit : nat) (n : Node) (s : WorkflowState)
  : list WorkflowState :=
  match limit with
  | 0 => []
  | S limit' =>
      let s1 := node_function env n s in
      match edge n s1 with
      | (Ok (Goto n'), s2) => s1 :: s2 :: ainvoke_states env limit' n' s2
      | (_, s2) => [s1; s2]
      end
  end.

Definition run_states (env : Env) (engine : WorkflowEngine) (fuel : nat)
    (plan : ExecutionPlan) (req : BrainRequest) : list WorkflowState :=
  let s0 := initial_state env plan req in
  match graph engine with
  | Some g =>
      s0 :: ainvoke_states env (recursion_limit g) INITIALIZE s0
      ++ [_execute_graph env g s0]
  | None => s0 :: _execute_sequential_states env fuel s0
  end.

(** One round of the retry loop, up to the routing decision. *)
Definition attempt (env : Env) (s : WorkflowState) : WorkflowState :=
  _validate_response_node env (_call_provider_node env (_build_messages_node env s)).

(** What the node after VALIDATE_RESPONSE receives on the graph: the
    state as the router leaves it, but for [is_validated], which keeps
    the value the validation gave it. *)
Definition graph_routed (s : WorkflowState) : WorkflowState :=
  set_is_validated (is_validated s) (snd (_route_after_validation s)).

(** The error entry the router writes when the attempts are used up. *)
Definition attempts_exhausted_error (attempts : nat) : string :=
  "Response validation failed after " +:+ str_nat attempts +:+ " attempts".

(** How often a node has run, read off the trace [execution_steps]. *)
Fixpoint count_steps (step : string) (steps : list string) : nat :=
  match steps with
  | [] => 0
  | x :: rest => (if String.eqb x step then 1 else 0) + count_steps step rest
  end.

Definition invocations (step : string) (s : WorkflowState) : nat :=
  count_steps step (execution_steps s).

(** *** Control points

    What is known of the state at the points of control of a run, [m]
    being the ceiling on the attempts.  [calls] and [finalizations] read
    the trace [execution_steps]. *)

Definition calls (s : WorkflowState) : nat := invocations "call_provider" s.
Definition finalizations (s : WorkflowState) : nat := invocations "finalize" s.

(** Fields that only the validation and the router write. *)
Definition same_control (s s' : WorkflowState) : Prop :=
  validation_attempts s' = validation_attempts s
  /\ max_validation_runs s' = max_validation_runs s
  /\ is_validated s' = is_validated s
  /\ specs s' = specs s
  /\ request s' = request s.

(** On entering the retry loop, and at every node before the provider
    call. *)
Definition loop_head (m : nat) (s : WorkflowState) : Prop :=
  max_validation_runs s = m /\ calls s = validation_attempts s
  /\ validation_attempts s < m /\ is_validated s = false /\ finalizations s = 0.

(** Between the provider call and the validation. *)
Definition called (m : nat) (s : WorkflowState) : Prop :=
  max_validation_runs s = m /\ calls s = validation_attempts s + 1
  /\ validation_attempts s < m /\ is_validated s = false /\ finalizations s = 0.

(** On entering FINALIZE. *)
Definition ready (m : nat) (s : WorkflowState) : Prop :=
  max_validation_runs s = m /\ calls s = validation_attempts s
  /\ 1 <= validation_attempts s <= m /\ finalizations s = 0.

(** What holds of every state of a run. *)
Definition sound (m : nat) (s : WorkflowState) : Prop :=
  max_validation_runs s = m /\ calls s <= m /\ validation_attempts s <= m.

(** The state FINALIZE has just left. *)
Definition finished (env : Env) (m : nat) (s : WorkflowState) : Prop :=
  exists pre, ready m pre /\ s = _finalize_node env pre.

(** The invariant that holds on entering each node of the graph. *)
Definition at_node (m : nat) (n : Node) (s : WorkflowState) : Prop :=
  match n with
  | INITIALIZE | QUERY_DATA_SOURCES | EXECUTE_TOOLS | BUILD_MESSAGES | CALL_PROVIDER =>
      loop_head m s
  | VALIDATE_RESPONSE => called m s
  | FINALIZE => ready m s
  end.

(** A bound on the node executions still to come. *)
Definition budget (m : nat) (n : Node) (s : WorkflowState) : nat :=
  let left := 3 * (m - validation_attempts s) in
  match n with
  | INITIALIZE => left + 4
  | QUERY_DATA_SOURCES => left + 3
  | EXECUTE_TOOLS => left + 2
  | BUILD_MESSAGES => left + 1
  | CALL_PROVIDER => left
  | VALIDATE_RESPONSE => left - 1
  | FINALIZE => 1
  end.

(** The state at the head of the retry loop on the sequential path. *)
Definition sequential_prologue (env : Env) (s : WorkflowState) : WorkflowState :=
  let s1 := _initialize_node s in
  let s2 :=
    match data_sources (specs s1) with
    | [] => s1
    | _ => _query_data_sources_node env s1
    end in
  match tools (specs s2) with
  | [] => s2
  | _ => _execute_tools_node env s2
  end.

(** *** Vocabulary of the statements about the nodes *)

(** The content the validation node looks at is usable: present, not
    empty, and not marked as an error. *)
Definition usable (c : option string) : bool :=
  truthy (default "" c) && negb (startswith (default "" c) "Error:").

(** The state in which the validation node calls the validator. *)
Definition validating (s : WorkflowState) : WorkflowState :=
  set_validation_attempts (validation_attempts s + 1) (push_step "validate_response" s).

(** The error entry FINALIZE writes when it puts the fallback in. *)
Definition low_confidence_error (env : Env) (c : Q) : string :=
  "Low confidence response (" +:+ format_2f env c +:+ ") replaced with fallback".

(** The response contains one of the refusal patterns. *)
Definition refusal (response : string) : bool :=
  existsb (fun pattern => contains pattern (lower response)) error_patterns.

(** A rejection of the rule-based stage. *)
Definition rejected (why : string) (c : Q) : ValidationResult :=
  {| is_valid := false; feedback := Some why; v_confidence := c; reasoning := None |}.

(** The keyword fallback on a grading text without a score line. *)
Definition score_keyword (validation_text : string) : bool :=
  contains "acceptable" (lower validation_text) || contains "good" (lower validation_text).

(** Every character of the string is a decimal digit. *)
Fixpoint all_digits (s : string) : bool :=
  match s with
  | EmptyString => true
  | String c r => isdigit c && all_digits r
  end.

(** The two conversions of a parsed score, [int(...)] and the division
    by [100.0], both return. *)
Definition score_converts (env : Env) (digits : string) : bool :=
  match bind (int_of_str (int_max_str_digits env) digits)
             (fun llm_score => int_div_float llm_score 100) with
  | Ok _ => true
  | Raise _ => false
  end.

(** The count the specification words the second rule with, "internal
    word-separators": the gaps between the words of the text, one fewer
    than its words.  The code counts space characters instead. *)
Definition spec_internal_word_separators (response : string) : nat :=
  count_words response - 1.

(** What the entry at position [i] of [specs.data_sources] adds to the
    results and to the errors. *)
Definition appended_results (env : Env) (req : BrainRequest) (i : nat)
    (ds_spec : DataSourceSpec) : list DataSourceResult :=
  fst (query_data_source env req i ds_spec ([], [])).

Definition appended_errors (env : Env) (req : BrainRequest) (i : nat)
    (ds_spec : DataSourceSpec) : list string :=
  snd (query_data_source env req i ds_spec ([], [])).

(** All the entries from position [i] on, in the order of the list. *)
Fixpoint all_appended_results (env : Env) (req : BrainRequest) (i : nat)
    (l : list DataSourceSpec) : list DataSourceResult :=
  match l with
  | [] => []
  | ds_spec :: rest =>
      appended_results env req i ds_spec ++ all_appended_results env req (S i) rest
  end.

(** The query and the limit the adapter receives for an entry. *)
Definition query_text (req : BrainRequest) (ds_spec : DataSourceSpec) : string :=
  if opt_truthy (query ds_spec) then default "" (query ds_spec) else message req.

Definition query_limit (ds_spec : DataSourceSpec) : Z :=
  if (limit ds_spec =? 0)%Z then 5%Z else limit ds_spec.

Definition result_source (r : DataSourceResult) : string :=
  match r with
  | SourceResults source _ _ => source
  | SourceError source _ => source
  end.

(** *** Vocabulary of the statements about whole runs *)

(** The steps of one round of the retry loop, and of [k] rounds. *)
Definition round_steps : list string :=
  ["build_messages"; "call_provider"; "validate_response"].

Fixpoint rounds_steps (k : nat) : list string :=
  match k with
  | 0 => []
  | S k' => round_steps ++ rounds_steps k'
  end.

(** The state in which the graph enters BUILD_MESSAGES. *)
Definition graph_prologue (env : Env) (s : WorkflowState) : WorkflowState :=
  let s1 := _initialize_node s in
  if existsb enabled (data_sources (specs s1)) then
    let s2 := _query_data_sources_node env s1 in
    if existsb tool_enabled (tools (specs s2)) then _execute_tools_node env s2 else s2
  else if existsb tool_enabled (tools (specs s1)) then _execute_tools_node env s1
       else s1.

(** The state at the head of the retry loop, on the graph or not. *)
Definition prologue (langgraph : bool) (env : Env) (s : WorkflowState) : WorkflowState :=
  if langgraph then graph_prologue env s else sequential_prologue env s.

(** Whether the retrieval nodes run: on the graph when an entry is
    enabled, sequentially when the list is not empty. *)
Definition runs_data_sources (langgraph : bool) (sp : AgentExecutionSpec) : bool :=
  if langgraph then existsb enabled (data_sources sp)
  else match data_sources sp with [] => false | _ => true end.

Definition runs_tools (langgraph : bool) (sp : AgentExecutionSpec) : bool :=
  if langgraph then existsb tool_enabled (tools sp)
  else match tools sp with [] => false | _ => true end.

Definition prologue_steps (langgraph : bool) (sp : AgentExecutionSpec) : list string :=
  ["initialize"]
  ++ (if runs_data_sources langgraph sp then ["query_data_sources"] else [])
  ++ (if runs_tools langgraph sp then ["execute_tools"] else []).

(** The record EXECUTE_TOOLS appends for an enabled tool. *)
Definition tool_record (env : Env) (t : ToolSpec) : ToolResult :=
  if check_tool_available env (name t)
  then ToolExecuted (name t) "executed" "Tool execution placeholder"
  else ToolError (name t) "Not available".

(** All the errors the entries from position [i] on append. *)
Fixpoint all_appended_errors (env : Env) (req : BrainRequest) (i : nat)
    (l : list DataSourceSpec) : list string :=
  match l with
  | [] => []
  | ds_spec :: rest =>
      appended_errors env req i ds_spec ++ all_appended_errors env req (S i) rest
  end.

(** The fields the retrieval nodes write, and no node after them. *)
Definition same_retrieval (s s' : WorkflowState) : Prop :=
  data_source_results s' = data_source_results s /\ tool_results s' = tool_results s.

(** The grading call of the validation numbered [n] cannot be made, or
    does not return. *)
Definition grading_unavailable (env : Env) (sp : AgentExecutionSpec) (n : nat) : Prop :=
  match provider sp with
  | None => True
  | Some p =>
      (exists e, grader_create env n p = Raise e)
      \/ (exists e, grader_initialize env n = Raise e)
      \/ grader_initialize env n = Ok false
      \/ (exists e, grader_close env n = Raise e)
      \/ (forall prompt, exists e, grader_generate env n prompt = Raise e)
  end.

(** The [try] block of CALL_PROVIDER leaves with an exception whose
    text is [e]. *)
Definition provider_raises (env : Env) (s : WorkflowState) (e : string) : Prop :=
  let n := validation_attempts s in
  match provider (specs s) with
  | None => e = "No provider specified"
  | Some p =>
      match create_provider env n p with
      | Raise e' => e = e'
      | Ok _ =>
          match provider_initialize env n with
          | Raise e' => e = e'
          | Ok false => e = "Failed to initialize provider " +:+ provider_type p
          | Ok true =>
              match provider_close env n, generate_response env n (messages s) p with
              | Raise e', _ => e = e'
              | Ok _, Raise e' => e = e'
              | Ok _, Ok _ => False
              end
          end
      end
  end.

End Workflow.

(* ===================================================================== *)
(** ** [brain/cortex/cortex.py]: the planner                              *)
(* ===================================================================== *)

Module Cortex.

(** The dictionary returned by the reasoning engine; [None] is a missing
    key. *)
Record ReasoningResult := {
  rr_optimized_specs : option AgentExecutionSpec;
  rr_confidence : option Q;
  rr_notes : option EngineNotes;
  rr_estimated_cost : option Q;
  rr_estimated_latency : option Q
}.

(** What the planner reads from outside.  The two estimators are called
    through these fields, [latency_estimate] standing for
    [LatencyEstimator.estimate] on the statistics of the moment. *)
Record PlannerEnv := {
  cost_estimate : AgentExecutionSpec -> Outcome Q;
  latency_estimate : AgentExecutionSpec -> Outcome Q;
  str_float : Q -> string;
  (* [self.reasoning_engine.optimize_execution_specs] *)
  reasoning_engine : AgentExecutionSpec -> BrainRequest -> Outcome ReasoningResult
}.

(** [ReasoningEngine.optimize_execution_specs] of [reasoning_engine.py],
    given the two estimators. *)
Definition optimize_execution_specs
    (cost latency : AgentExecutionSpec -> Outcome Q)
    (original_specs : AgentExecutionSpec) (req : BrainRequest) : ReasoningResult :=
  let optimized_specs := original_specs in
  let notes :=
    {| note_provider :=
         match provider original_specs with
         | Some p => Some (provider_type p, count_words (message req) <? 50)
         | None => None
         end;
       note_data_sources :=
         match data_sources original_specs with
         | [] => None
         | l => Some (length l)
         end;
       note_tools :=
         match tools original_specs with
         | [] => None
         | l => Some (length l)
         end;
       note_error := None |} in
  let failed e :=
    {| rr_optimized_specs := Some original_specs;
       rr_confidence := Some 0%Q;
       rr_notes := Some {| note_provider := None; note_data_sources := None;
                           note_tools := None; note_error := Some e |};
       rr_estimated_cost := Some 0%Q;
       rr_estimated_latency := Some 0%Q |} in
  match cost optimized_specs with
  | Raise e => failed e
  | Ok estimated_cost =>
      match latency optimized_specs with
      | Raise e => failed e
      | Ok estimated_latency =>
          {| rr_optimized_specs := Some optimized_specs;
             rr_confidence := Some 0.75%Q;
             rr_notes := Some notes;
             rr_estimated_cost := Some estimated_cost;
             rr_estimated_latency := Some estimated_latency |}
      end
  end.

(** [_get_estimates]: [(cost, latency)], or the safe pair when an
    estimator raises. *)
Definition _get_estimates (penv : PlannerEnv) (specs : AgentExecutionSpec) : Q * Q :=
  match cost_estimate penv specs, latency_estimate penv specs with
  | Ok c, Ok l => (c, l)
  | _, _ => (0%Q, 1%Q)
  end.

Definition _create_direct_plan (penv : PlannerEnv) (agent_specs : AgentExecutionSpec)
  : ExecutionPlan :=
  let estimates := _get_estimates penv agent_specs in
  {| original_specs := agent_specs;
     optimized_specs := agent_specs;
     reasoning_applied := false;
     confidence := 1;
     reasoning_notes := NotesDirect (Some "Skipped reasoning as requested");
     estimated_cost := fst estimates;
     estimated_latency := snd estimates |}.

Definition _create_reasoned_plan (penv : PlannerEnv) (agent_specs : AgentExecutionSpec)
    (req : BrainRequest) : ExecutionPlan :=
  match reasoning_engine penv agent_specs req with
  | Ok reasoning_result =>
      {| original_specs := agent_specs;
         optimized_specs := default agent_specs (rr_optimized_specs reasoning_result);
         reasoning_applied := true;
         confidence := default 0.8%Q (rr_confidence reasoning_result);
         reasoning_notes := NotesEngine (default no_notes (rr_notes reasoning_result));
         estimated_cost := default 0%Q (rr_estimated_cost reasoning_result);
         estimated_latency := default 0%Q (rr_estimated_latency reasoning_result) |}
  | Raise _ => _create_direct_plan penv agent_specs
  end.

(** The note [f"confidence {confidence} < {threshold}"]. *)
Definition skipped_note (penv : PlannerEnv) (c threshold : Q) : string :=
  "confidence " +:+ str_float penv c +:+ " < " +:+ str_float penv threshold.

Definition _create_adaptive_plan (penv : PlannerEnv) (agent_specs : AgentExecutionSpec)
    (req : BrainRequest) : ExecutionPlan :=
  match reasoning_engine penv agent_specs req with
  | Raise _ => _create_direct_plan penv agent_specs
  | Ok reasoning_result =>
      let confidence := default 0%Q (rr_confidence reasoning_result) in
      match processing agent_specs with
      | None => _create_direct_plan penv agent_specs   (* attribute of [None] *)
      | Some proc =>
          let threshold := reasoning_threshold proc in
          if Qgeb confidence threshold then
            match rr_optimized_specs reasoning_result with
            | None => _create_direct_plan penv agent_specs   (* missing key *)
            | Some optimized =>
                {| original_specs := agent_specs;
                   optimized_specs := optimized;
                   reasoning_applied := true;
                   confidence := confidence;
                   reasoning_notes :=
                     NotesEngine (default no_notes (rr_notes reasoning_result));
                   estimated_cost := default 0%Q (rr_estimated_cost reasoning_result);
                   estimated_latency :=
                     default 0%Q (rr_estimated_latency reasoning_result) |}
            end
          else
            let estimates := _get_estimates penv agent_specs in
            {| original_specs := agent_specs;
               optimized_specs := agent_specs;
               reasoning_applied := false;
               confidence := 1;
               reasoning_notes :=
                 NotesSkipped (skipped_note penv confidence threshold)
                              (default no_notes (rr_notes reasoning_result));
               estimated_cost := fst estimates;
               estimated_latency := snd estimates |}
      end
  end.

(** [create_execution_plan]; reading the strategy of an absent
    [processing] raises, outside of any handler. *)
Definition create_execution_plan (penv : PlannerEnv) (agent_specs : AgentExecutionSpec)
    (req : BrainRequest) : Outcome ExecutionPlan :=
  match processing agent_specs with
  | None => Raise "'NoneType' object has no attribute 'execution_strategy'"
  | Some proc =>
      let strategy := execution_strategy proc in
      if String.eqb strategy "reasoned" then Ok (_create_reasoned_plan penv agent_specs req)
      else if String.eqb strategy "adaptive"
           then Ok (_create_adaptive_plan penv agent_specs req)
           else Ok (_create_direct_plan penv agent_specs)
  end.

(** [_validate_reasoning_output]: [(valid, issues)].  A plan and its
    specs are dataclass instances, which are true, so the two tests on
    their absence add nothing. *)
Definition _validate_reasoning_output (penv : PlannerEnv) (plan : ExecutionPlan)
  : bool * list string :=
  let issues :=
    (match provider (optimized_specs plan) with
     | None => ["No provider specified in optimized specs"]
     | Some _ => []
     end)
    ++ (if reasoning_applied plan && Qltb (confidence plan) 0.3
        then ["Reasoning confidence too low: " +:+ str_float penv (confidence plan)]
        else [])
    ++ (if negb (Qeq_bool (estimated_cost plan) 0) && Qltb (estimated_cost plan) 0
        then ["Invalid estimated cost: " +:+ str_float penv (estimated_cost plan)]
        else [])
    ++ (if negb (Qeq_bool (estimated_latency plan) 0) && Qltb (estimated_latency plan) 0
        then ["Invalid estimated latency: " +:+ str_float penv (estimated_latency plan)]
        else [])
    ++ (match provider (optimized_specs plan) with
        | Some p =>
            (if negb (truthy (provider_type p)) then ["Provider type not specified"] else [])
            ++ (if negb (opt_truthy (model p)) then ["Provider model not specified"] else [])
        | None => []
        end) in
  (match issues with [] => true | _ => false end, issues).

(** A planner whose reasoning engine is the one of
    [reasoning_engine.py], on the same estimators. *)
Definition shipped_engine (penv : PlannerEnv) : Prop :=
  forall specs req,
    reasoning_engine penv specs req
    = Ok (optimize_execution_specs (cost_estimate penv) (latency_estimate penv) specs req).

End Cortex.

(* ===================================================================== *)
(** ** [brain/guardrails/security_manager.py]: the rate limiter           *)
(* ===================================================================== *)

Module Guardrails.

(** The section [config["rate_limiting"]]; [None] is a missing key. *)
Record RateLimiting := {
  rl_enabled : option bool;
  max_requests_per_minute : option Z;
  max_requests_per_hour : option Z
}.

(** The configuration dictionary: the section the limiter reads, and
    whether the dictionary has any other key. *)
Record Config := {
  rate_limiting : option RateLimiting;
  other_sections : bool
}.

Definition _get_default_config : Config :=
  {| rate_limiting :=
       Some {| rl_enabled := Some true;
               max_requests_per_minute := Some 60%Z;
               max_requests_per_hour := Some 1000%Z |};
     other_sections := true |}.

(** A [datetime] is its number of microseconds; the two [timedelta]s. *)
Definition one_minute : Z := 60000000.
Definition one_hour : Z := 3600000000.

(** [rate_limits[user_id]]: the time stamps of the accepted requests. *)
Record Windows := {
  minute : list Z;
  hour : list Z
}.

Record SecurityManager := {
  config : Config;
  rate_limits : gmap string Windows
}.

(** [__init__]: [config or self._get_default_config()]. *)
Definition new_SecurityManager (cfg : option Config) : SecurityManager :=
  {| config :=
       match cfg with
       | Some c =>
           match rate_limiting c, other_sections c with
           | None, false => _get_default_config      (* the empty dictionary *)
           | _, _ => c
           end
       | None => _get_default_config
       end;
     rate_limits := ∅ |}.

Definition no_rate_limiting : RateLimiting :=
  {| rl_enabled := None; max_requests_per_minute := None; max_requests_per_hour := None |}.

(** The three settings, with the defaults of the [.get] calls. *)
Definition rate_limiting_enabled (c : Config) : bool :=
  default true (rl_enabled (default no_rate_limiting (rate_limiting c))).

Definition max_min (c : Config) : Z :=
  default 60%Z (max_requests_per_minute (default no_rate_limiting (rate_limiting c))).

Definition max_hour (c : Config) : Z :=
  default 1000%Z (max_requests_per_hour (default no_rate_limiting (rate_limiting c))).

(** [[t for t in stamps if t > now - window]] *)
Definition prune (now window : Z) (stamps : list Z) : list Z :=
  List.filter (fun t => (now - window <? t)%Z) stamps.

Definition no_windows : Windows := {| minute := []; hour := [] |}.

(** [check_rate_limit], [now] being the value of [datetime.now()]; the
    manager is returned with the answer since the call updates
    [rate_limits]. *)
Definition check_rate_limit (now : Z) (uid : string) (sm : SecurityManager)
  : bool * SecurityManager :=
  if negb (rate_limiting_enabled (config sm)) then (true, sm)
  else
    let limits := default no_windows (rate_limits sm !! uid) in
    (* Clean old *)
    let minute' := prune now one_minute (minute limits) in
    let hour' := prune now one_hour (hour limits) in
    let store m h :=
      {| config := config sm;
         rate_limits := <[uid := {| minute := m; hour := h |}]> (rate_limits sm) |} in
    if (max_min (config sm) <=? Z.of_nat (length minute'))%Z
    then (false, store minute' hour')
    else if (max_hour (config sm) <=? Z.of_nat (length hour'))%Z
         then (false, store minute' hour')
         else (true, store (minute' ++ [now]) (hour' ++ [now])).

(** The two windows of a user once pruned at [now], whether they are
    under their caps, and the stamp a request let through leaves. *)
Definition pruned_minute (now : Z) (uid : string) (sm : SecurityManager) : list Z :=
  prune now one_minute (minute (default no_windows (rate_limits sm !! uid))).

Definition pruned_hour (now : Z) (uid : string) (sm : SecurityManager) : list Z :=
  prune now one_hour (hour (default no_windows (rate_limits sm !! uid))).

Definition within_caps (now : Z) (uid : string) (sm : SecurityManager) : bool :=
  (Z.of_nat (length (pruned_minute now uid sm)) <? max_min (config sm))%Z
  && (Z.of_nat (length (pruned_hour now uid sm)) <? max_hour (config sm))%Z.

Definition stamped (ok : bool) (now : Z) (stamps : list Z) : list Z :=
  if ok then stamps ++ [now] else stamps.

(** *** Sequences of calls *)

(** What [check_rate_limit] answers to a sequence of calls
    [(now, user_id)], one after the other. *)
Fixpoint serve (calls : list (Z * string)) (sm : SecurityManager)
  : list (Z * string * bool) * SecurityManager :=
  match calls with
  | [] => ([], sm)
  | (now, uid) :: rest =>
      let (ok, sm1) := check_rate_limit now uid sm in
      let (log, sm2) := serve rest sm1 in
      ((now, uid, ok) :: log, sm2)
  end.

(** The clock does not go back: the calls come at times from [last]
    on, in order. *)
Fixpoint in_order (last : Z) (calls : list (Z * string)) : Prop :=
  match calls with
  | [] => True
  | (now, _) :: rest => (last <= now)%Z /\ in_order now rest
  end.

(** The times of the requests of [uid] that were let through, and those
    of a list of times that fall in [(lo, hi]]. *)
Definition accepted (uid : string) (log : list (Z * string * bool)) : list Z :=
  map (fun e => fst (fst e))
      (List.filter (fun e => snd e && String.eqb (snd (fst e)) uid) log).

Definition within (lo hi : Z) (stamps : list Z) : list Z :=
  List.filter (fun t => (lo <? t)%Z && (t <=? hi)%Z) stamps.

(** The invariant of a sequence of calls, for one of the two windows:
    [past user] are the times of the requests of [user] let through so
    far, none later than [last]; the stored window, pruned at any time
    from [last] on, is [past user] pruned at that time; and no interval
    of the length of the window holds more than [cap] of them. *)
Definition tracks (window cap : Z) (get : Windows -> list Z) (last : Z)
    (sm : SecurityManager) (past : string -> list Z) : Prop :=
  (forall user, List.Forall (fun t => (t <= last)%Z) (past user))
  /\ (forall user later, (last <= later)%Z ->
        prune later window (get (default no_windows (rate_limits sm !! user)))
        = prune later window (past user))
  /\ (forall user T,
        (Z.of_nat (length (within (T - window) T (past user))) <= Z.max 0 cap)%Z).

(** *** Content filter and user validation

    The sections [content_filtering] and [user_validation] of the
    configuration are passed to the two functions that read them;
    [None] is a missing section or a missing key. *)

Record ContentFiltering := {
  cf_enabled : option bool;
  cf_blocked_words : option (list string);
  cf_trauma_safe_mode : option bool
}.

Definition no_content_filtering : ContentFiltering :=
  {| cf_enabled := None; cf_blocked_words := None; cf_trauma_safe_mode := None |}.

(** The dictionary [filter_content] returns; the last two keys are
    missing when filtering is off. *)
Record FilterResult := {
  safe : bool;
  filtered_content : string;
  flags : option (list string);
  original_content : option string
}.

Definition trauma_indicators : list string :=
  ["suicide"; "self-harm"; "abuse"; "violence"; "trauma"; "ptsd"; "depression"; "anxiety"].

(** ["*" * n] *)
Fixpoint stars (n : nat) : string :=
  match n with
  | 0 => EmptyString
  | S n' => String "*" (stars n')
  end.

(** One round of the loop over the blocked words, on the pair of
    [filtered] and [flags]; [re_sub word repl text] is
    [re.sub(re.escape(word), repl, text, flags=re.IGNORECASE)]. *)
Definition filter_word (re_sub : string -> string -> string -> string)
    (content : string) (acc : string * list string) (word : string)
  : string * list string :=
  let (filtered, flags) := acc in
  if contains (lower word) (lower content)
  then (re_sub word (stars (len word)) filtered, flags ++ ["blocked: " +:+ word])
  else acc.

Definition filter_content (re_sub : string -> string -> string -> string)
    (section : option ContentFiltering) (content : string) : FilterResult :=
  let cf := default no_content_filtering section in
  if negb (default true (cf_enabled cf)) then
    {| safe := true; filtered_content := content; flags := None; original_content := None |}
  else
    let (filtered, flags) :=
      fold_left (filter_word re_sub content) (default [] (cf_blocked_words cf))
                (content, []) in
    let flags :=
      if default true (cf_trauma_safe_mode cf)
      then flags
           ++ map (fun ind => "trauma: " +:+ ind)
                  (List.filter (fun ind => contains (lower ind) (lower content))
                               trauma_indicators)
      else flags in
    {| safe := match flags with [] => true | _ => false end;
       filtered_content := match flags with [] => filtered | _ => content end;
       flags := Some flags;
       original_content := Some content |}.

Record UserValidation := {
  require_auth : option bool;
  allow_anonymous : option bool
}.

Definition no_user_validation : UserValidation :=
  {| require_auth := None; allow_anonymous := None |}.

(** The [user_context] dictionary: the two keys [validate_user] reads
    and writes, with truth values for values, and the other keys. *)
Record UserDict := {
  key_authenticated : option bool;
  key_is_authenticated : option bool;
  other_keys : Dict
}.

(** What [SessionManager.validate_session] answers. *)
Inductive SessionAnswer :=
| SessionValid (session_user_context : UserDict)
| SessionInvalid (session_error : option string).

Record UserValidationResult := {
  uv_valid : bool;
  uv_error : option string;
  uv_user_context : option UserDict
}.

(** [validate_user]; [validate_session] is the method of the session
    manager, which reads and updates the state [st] of that manager. *)
Definition validate_user {S : Type}
    (validate_session : string -> UserDict -> S -> SessionAnswer * S)
    (section : option UserValidation) (user_context : UserDict) (token : option string)
    (st : S) : UserValidationResult * S :=
  let config := default no_user_validation section in
  let strict := default true (require_auth config)
                && negb (default false (allow_anonymous config)) in
  let auth := default false (key_authenticated user_context)
              || default false (key_is_authenticated user_context) in
  let rejected e :=
    {| uv_valid := false; uv_error := Some e; uv_user_context := None |} in
  (* the block [if token:]: the context and the flag it leaves, or the
     result it returns with *)
  let after_token : (UserDict * bool + UserValidationResult) * S :=
    if opt_truthy token then
      match validate_session (default "" token) user_context st with
      | (SessionInvalid e, st') =>
          if auth then (inl (user_context, auth), st')
          else if strict then (inr (rejected (default "Auth failed" e)), st')
               else (inl (user_context, auth), st')
      | (SessionValid ctx, st') => (inl (ctx, true), st')
      end
    else (inl (user_context, auth), st) in
  match after_token with
  | (inr result, st') => (result, st')
  | (inl (user_context, auth), st') =>
      if strict && negb auth then (rejected "Authentication required", st')
      else
        let user_context :=
          if auth && negb (default false (key_authenticated user_context))
          then {| key_authenticated := Some true; key_is_authenticated := Some true;
                  other_keys := other_keys user_context |}
          else user_context in
        ({| uv_valid := true; uv_error := None; uv_user_context := Some user_context |}, st')
  end.

(** The three things [validate_user] decides on: whether the settings
    insist on authentication, whether the context says the user is
    authenticated, and whether the session manager accepts the token. *)
Definition strict (section : option UserValidation) : bool :=
  default true (require_auth (default no_user_validation section))
  && negb (default false (allow_anonymous (default no_user_validation section))).

Definition claims_authentication (user_context : UserDict) : bool :=
  default false (key_authenticated user_context)
  || default false (key_is_authenticated user_context).

Definition token_accepted {S : Type}
    (validate_session : string -> UserDict -> S -> SessionAnswer * S)
    (user_context : UserDict) (token : option string) (st : S) : bool :=
  opt_truthy token
  && match fst (validate_session (default "" token) user_context st) with
     | SessionValid _ => true
     | SessionInvalid _ => false
     end.

End Guardrails.

(* ===================================================================== *)
(** ** The registries of providers, tools and data sources                *)
(* ===================================================================== *)

Module Registry.

(** [providers/provider_registry.py] *)
Record ProviderConfig := {
  models : list string;
  default_model : option string
}.

(** The dictionary [PROVIDER_CONFIGS], in the order of its keys. *)
Definition PROVIDER_CONFIGS : list (string * ProviderConfig) :=
  [("openai",
    {| models := ["gpt-4o"; "gpt-4o-mini"; "gpt-4-turbo"; "gpt-4"; "gpt-3.5-turbo"];
       default_model := Some "gpt-4o-mini" |});
   ("anthropic",
    {| models := ["claude-3-5-sonnet-20241022"; "claude-3-5-haiku-20241022";
                  "claude-3-opus-20240229"; "claude-3-sonnet-20240229";
                  "claude-3-haiku-20240307"];
       default_model := Some "claude-3-5-sonnet-20241022" |});
   ("gemini",
    {| models := ["gemini-1.5-flash"; "gemini-1.5-pro"; "gemini-1.0-pro";
                  "gemini-1.5-flash-8b"; "gemini-1.5-pro-002"];
       default_model := Some "gemini-1.5-flash" |})].

Fixpoint lookup_config (k : string) (configs : list (string * ProviderConfig))
  : option ProviderConfig :=
  match configs with
  | [] => None
  | (k', c) :: rest => if String.eqb k k' then Some c else lookup_config k rest
  end.

Definition mem (x : string) (l : list string) : bool := existsb (String.eqb x) l.

(** [repr] of a list of strings that need no escape, as an f-string
    prints the lists of this module. *)
Definition repr_list (l : list string) : string :=
  "[" +:+ join ", " (map (fun s => "'" +:+ s +:+ "'") l) +:+ "]".

(** The first provider, in the order of the dictionary, that lists the
    model. *)
Fixpoint model_owner (model : string) (configs : list (string * ProviderConfig))
  : option string :=
  match configs with
  | [] => None
  | (other_provider, other_config) :: rest =>
      if mem model (models other_config) then Some other_provider
      else model_owner model rest
  end.

Record ProviderInfo := {
  info_provider_type : string;
  info_model : string;
  info_available : bool
}.

(** [check_provider_and_model]: [(is_valid, errors, info)];
    [file_exists name] tells whether the file [name] is in the directory
    of the providers. *)
Definition check_provider_and_model (file_exists : string -> bool)
    (provider_type : string) (model : option string)
  : bool * list string * option ProviderInfo :=
  match lookup_config provider_type PROVIDER_CONFIGS with
  | None =>
      (false,
       ["Provider '" +:+ provider_type +:+ "' not found. Available: "
        +:+ repr_list (map fst PROVIDER_CONFIGS)],
       None)
  | Some provider_config =>
      if negb (file_exists (provider_type +:+ ".py")) then
        (false, ["Provider file not found: " +:+ provider_type +:+ ".py"], None)
      else
        let available_models := models provider_config in
        let (model, errors) :=
          if opt_truthy model then
            let m := default "" model in
            if negb (mem m available_models) then
              match model_owner m PROVIDER_CONFIGS with
              | Some owner =>
                  (model,
                   ["Model '" +:+ m +:+ "' belongs to provider '" +:+ owner
                    +:+ "', not '" +:+ provider_type +:+ "'. Use provider '" +:+ owner
                    +:+ "' or choose a model from " +:+ repr_list available_models])
              | None =>
                  (model,
                   ["Model '" +:+ m +:+ "' not found in any provider. Available models for '"
                    +:+ provider_type +:+ "': " +:+ repr_list available_models])
              end
            else (model, [])
          else
            if opt_truthy (default_model provider_config)
            then (default_model provider_config, [])
            else (default_model provider_config,
                  ["No model specified and no default_model for provider '"
                   +:+ provider_type +:+ "'"]) in
        match errors with
        | [] =>
            (true, [],
             Some {| info_provider_type := provider_type;
                     info_model := default "" model;
                     info_available := true |})
        | _ => (false, errors, None)
        end
  end.

(** [tools/tool_registry.py] and [data_sources/data_source_registry.py]:
    a name is available when it is on the list and its file is there. *)
Definition TOOLS : list string := ["tavily_search"].
Definition DATA_SOURCES : list string := ["vector_db"].

Definition check_tool_available (file_exists : string -> bool) (tool_name : string)
  : bool :=
  if negb (mem tool_name TOOLS) then false else file_exists (tool_name +:+ ".py").

Definition check_data_source_available (file_exists : string -> bool)
    (source_name : string) : bool :=
  if negb (mem source_name DATA_SOURCES) then false
  else if negb (file_exists (source_name +:+ ".py")) then false
       else true.

End Registry.

(* ===================================================================== *)
(** ** [brain/cortex/cortex.py]: [process_agent_request]                  *)
(* ===================================================================== *)

Module Pipeline.
Import Workflow.

(** What [process_agent_request] reads from outside, beside the
    security manager and the session manager, whose states it is given
    and returns. *)
Record CortexEnv := {
  (* the Langfuse block, which runs before the [try] when [eval] is set *)
  tracing_setup : Outcome unit;
  ensure_initialized : Outcome unit;
  provider_file_exists : string -> bool;
  tool_file_exists : string -> bool;
  data_source_file_exists : string -> bool;
  user_validation : option Guardrails.UserValidation;
  datetime_now : Z;                      (* [datetime.now()] of the limiter *)
  time_start : Q;                        (* [time.time()] on entry *)
  time_end : Q;                          (* [time.time()] on leaving *)
  planner : Cortex.PlannerEnv;
  world : Env;
  engine : WorkflowEngine;
  fuel : nat
}.

(** The dictionary returned: the one of [_create_error_response], or
    the result of the workflow with the plan. *)
Inductive Response :=
| ErrorResponse (message : string) (processing_time : Q)
| Executed (result : ExecutionResult) (execution_plan : ExecutionPlan)
           (processing_time : Q).

(** [str(ds.source_type)] for a member of the enumeration, which
    mixes in [str] without being a [StrEnum]. *)
Definition DataSourceType_str (t : DataSourceType) : string :=
  match t with
  | VECTOR_DB => "DataSourceType.VECTOR_DB"
  | CONVERSATION_HISTORY => "DataSourceType.CONVERSATION_HISTORY"
  end.

(** [asdict(request.user_context)], as far as [validate_user] reads
    it. *)
Definition asdict_user_context (uc : UserContext) : Guardrails.UserDict :=
  {| Guardrails.key_authenticated := None;
     Guardrails.key_is_authenticated := Some (is_authenticated uc);
     Guardrails.other_keys := [("user_id", user_id uc); ("session_id", session_id uc)] |}.

(** The first enabled tool the registry does not have. *)
Definition first_unavailable_tool (cenv : CortexEnv) (tools : list ToolSpec)
  : option string :=
  match List.filter
          (fun t => tool_enabled t
                    && negb (Registry.check_tool_available (tool_file_exists cenv) (name t)))
          tools with
  | [] => None
  | t :: _ => Some (name t)
  end.

Definition vector_db_missing (cenv : CortexEnv) (sources : list DataSourceSpec) : bool :=
  existsb
    (fun ds => enabled ds && String.eqb (DataSourceType_str (source_type ds)) "vector_db"
               && negb (Registry.check_data_source_available
                          (data_source_file_exists cenv) "vector_db"))
    sources.

(** The plan of the branch without reasoning. *)
Definition unreasoned_plan (cenv : CortexEnv) (agent_specs : AgentExecutionSpec)
  : ExecutionPlan :=
  let estimates := Cortex._get_estimates (planner cenv) agent_specs in
  {| original_specs := agent_specs;
     optimized_specs := agent_specs;
     reasoning_applied := false;
     confidence := 1;
     reasoning_notes := NotesDirect None;
     estimated_cost := fst estimates;
     estimated_latency := snd estimates |}.

(** The Langfuse block at the head of [process_agent_request]. *)
Definition tracing (cenv : CortexEnv) (agent_specs : AgentExecutionSpec) : Outcome unit :=
  match processing agent_specs with
  | Some p => if eval p then tracing_setup cenv else Ok tt
  | None => Ok tt
  end.

(** Step 1, the provider: the errors of the registry, if any. *)
Definition provider_errors (cenv : CortexEnv) (agent_specs : AgentExecutionSpec)
  : option (list string) :=
  match provider agent_specs with
  | Some p =>
      let '(is_valid, errors, _) :=
        Registry.check_provider_and_model (provider_file_exists cenv)
          (provider_type p) (model p) in
      if is_valid then None else Some errors
  | None => None
  end.

Definition elapsed (cenv : CortexEnv) : Q := (time_end cenv - time_start cenv)%Q.

(** Step 3, planning and execution: the response, or [None] when the
    sequential loop of the workflow does not end within [fuel]. *)
Definition plan_and_execute (cenv : CortexEnv) (agent_specs : AgentExecutionSpec)
    (request : BrainRequest) : option Response :=
  let strategy :=
    match processing agent_specs with
    | Some p => execution_strategy p
    | None => "direct"
    end in
  let run plan :=
    match execute_plan (world cenv) (engine cenv) (fuel cenv) plan request with
    | Some result => Some (Executed result plan (elapsed cenv))
    | None => None
    end in
  if Registry.mem strategy ["reasoned"; "adaptive"] then
    match Cortex.create_execution_plan (planner cenv) agent_specs request with
    | Raise e => Some (ErrorResponse ("Internal error: " +:+ e) (elapsed cenv))
    | Ok plan =>
        let (valid, issues) := Cortex._validate_reasoning_output (planner cenv) plan in
        if negb valid
        then Some (ErrorResponse ("Reasoning validation failed: " +:+ join "; " issues)
                                 (elapsed cenv))
        else run plan
    end
  else run (unreasoned_plan cenv agent_specs).

(** [process_agent_request].  [has_metadata] tells whether the request
    carries a [RequestMetadata], whose fields nothing reads.  The
    answer is [Raise] when the Langfuse block raises; it comes with the
    states of the security manager and of the session manager. *)
Definition process_agent_request {S : Type} (cenv : CortexEnv)
    (validate_session : string -> Guardrails.UserDict -> S -> Guardrails.SessionAnswer * S)
    (agent_specs : AgentExecutionSpec) (request : BrainRequest) (has_metadata : bool)
    (sm : Guardrails.SecurityManager) (st : S)
  : Outcome (option Response * Guardrails.SecurityManager * S) :=
  let error message := Ok (Some (ErrorResponse message (elapsed cenv)), sm, st) in
  match tracing cenv agent_specs with
  | Raise e => Raise e
  | Ok _ =>
      match ensure_initialized cenv with
      | Raise e => error ("Internal error: " +:+ e)
      | Ok _ =>
          (* 1. Validation *)
          match provider_errors cenv agent_specs with
          | Some errors => error ("Provider validation failed: " +:+ join ", " errors)
          | None =>
              match first_unavailable_tool cenv (tools agent_specs) with
              | Some tool_name => error ("Tool '" +:+ tool_name +:+ "' not available")
              | None =>
                  if vector_db_missing cenv (data_sources agent_specs)
                  then error "Data source 'vector_db' not available"
                  else
                    (* 2. Guardrails; the context has no token, so the
                       metadata is asked for one *)
                    let ctx_dict := asdict_user_context (user_context request) in
                    if has_metadata
                    then error ("Internal error: "
                                +:+ "'RequestMetadata' object has no attribute 'dict'")
                    else
                      let token : option string := None in
                      let (auth_result, st1) :=
                        Guardrails.validate_user validate_session (user_validation cenv)
                          ctx_dict token st in
                      if negb (Guardrails.uv_valid auth_result)
                      then Ok (Some (ErrorResponse
                                       ("Authentication failed: "
                                        +:+ default "None" (Guardrails.uv_error auth_result))
                                       (elapsed cenv)), sm, st1)
                      else
                        let (allowed, sm1) :=
                          Guardrails.check_rate_limit (datetime_now cenv)
                            (user_id (user_context request)) sm in
                        if negb allowed
                        then Ok (Some (ErrorResponse "Rate limit exceeded" (elapsed cenv)),
                                 sm1, st1)
                        else
                          (* 3. Planning *)
                          Ok (plan_and_execute cenv agent_specs request, sm1, st1)
              end
          end
      end
  end.

(** The gates a request has to pass before the limiter is asked. *)
Definition passes_registries (cenv : CortexEnv) (agent_specs : AgentExecutionSpec) : bool :=
  match provider_errors cenv agent_specs with Some _ => false | None => true end
  && forallb (fun t => negb (tool_enabled t)
                       || Registry.check_tool_available (tool_file_exists cenv) (name t))
             (tools agent_specs).

Definition may_enter (cenv : CortexEnv) (request : BrainRequest) : bool :=
  is_authenticated (user_context request)
  || negb (default true (Guardrails.require_auth
                           (default Guardrails.no_user_validation (user_validation cenv))))
  || default false (Guardrails.allow_anonymous
                      (default Guardrails.no_user_validation (user_validation cenv))).

End Pipeline.

(* ===================================================================== *)
(** ** Concrete worlds used in the examples                               *)
(* ===================================================================== *)

Module Scenario.
Import Workflow.

(** A fixed-point rendering with two decimals (half rounds up), enough
    for the examples; the theorems hold for any formatter. *)
Definition two_digits (z : Z) : string :=
  let n := Z.to_nat z in
  if n <? 10 then "0" +:+ str_nat n else str_nat n.

Definition fixed2 (q : Q) : string :=
  let h := ((Qnum q * 200 + Zpos (Qden q)) / (2 * Zpos (Qden q)))%Z in
  str_nat (Z.to_nat (h / 100)) +:+ "." +:+ two_digits (h mod 100).

Definition openai : ProviderSpec :=
  {| provider_type := "openai"; model := Some "gpt-4o-mini"; temperature := 0.7;
     max_tokens := 2000; stream := false; custom_params := [] |}.

Definition direct_processing : ProcessingSpec :=
  {| max_iterations := 3; timeout_seconds := 30; execution_strategy := "direct";
     reasoning_threshold := 0.7; eval := false |}.

Definition plain_specs : AgentExecutionSpec :=
  {| data_sources := []; provider := Some openai; tools := [];
     processing := Some direct_processing;
     agent_metadata := {| messages_context := None |} |}.

Definition alice : UserContext :=
  {| user_id := "alice"; session_id := "s-1"; is_authenticated := true;
     user_profile := None |}.

Definition hello : BrainRequest :=
  {| request_id := "r-1"; application := "general"; message := "Hello";
     user_context := alice |}.

Definition plan_of (specs : AgentExecutionSpec) : ExecutionPlan :=
  {| original_specs := specs; optimized_specs := specs; reasoning_applied := false;
     confidence := 1; reasoning_notes := NotesDirect None;
     estimated_cost := 0; estimated_latency := 1 |}.

Definition reply (text : string) : LLMResponse :=
  {| success := true; response_content := Some text; metadata_error := None |}.

Definition long_answer : string :=
  "Hello there, it is good to hear from you. How can I help you today?".

(** A world in which the provider answers [answer n] to the call made
    after [n] validations, the grading call answers [grading n], and
    nothing raises. *)
Definition world (answer : nat -> LLMResponse) (grading : nat -> string) : Env :=
  {| uuid4 := "00000000-0000-4000-8000-000000000000";
     clock_start := 100; clock_end := 103; clock_report := 104;
     format_2f := fixed2;
     str_float := fixed2;
     str_docs := fun docs => "[" +:+ join ", " (map doc_content docs) +:+ "]";
     int_max_str_digits := 4300;
     check_data_source_available := fun n => String.eqb n "vector_db";
     check_tool_available := fun n => String.eqb n "tavily_search";
     vector_initialize := fun _ _ => Ok true;
     vector_query := fun i q _ _ =>
       Ok [{| doc_content := "doc " +:+ str_nat i +:+ " for " +:+ q;
              doc_source := "vector_db" |}];
     vector_close := fun _ => Ok tt;
     create_provider := fun _ _ => Ok tt;
     provider_initialize := fun _ => Ok true;
     generate_response := fun n _ _ => Ok (answer n);
     provider_close := fun _ => Ok tt;
     grader_create := fun _ _ => Ok tt;
     grader_initialize := fun _ => Ok true;
     grader_generate := fun n _ => Ok (reply (grading n));
     grader_close := fun _ => Ok tt;
     quality_fault := fun _ => None |}.

(** The same world, except that a validator put in the place of
    [_validate_response_quality] raises [e] on the validation numbered
    [k]. *)
Definition with_quality_fault (k : nat) (e : string) (env : Env) : Env :=
  {| uuid4 := uuid4 env;
     clock_start := clock_start env; clock_end := clock_end env;
     clock_report := clock_report env;
     format_2f := format_2f env; str_float := str_float env; str_docs := str_docs env;
     int_max_str_digits := int_max_str_digits env;
     check_data_source_available := check_data_source_available env;
     check_tool_available := check_tool_available env;
     vector_initialize := vector_initialize env;
     vector_query := vector_query env;
     vector_close := vector_close env;
     create_provider := create_provider env;
     provider_initialize := provider_initialize env;
     generate_response := generate_response env;
     provider_close := provider_close env;
     grader_create := grader_create env;
     grader_initialize := grader_initialize env;
     grader_generate := grader_generate env;
     grader_close := grader_close env;
     quality_fault := fun n => if n =? k then Some e else quality_fault env n |}.

Definition good_world : Env :=
  world (fun _ => reply long_answer)
        (fun _ => "SCORE: 90" +:+ nl +:+ "REASONING: relevant and complete").

(** A grading text whose score is a one followed by 309 zeros. *)
Fixpoint zeros (n : nat) : string :=
  match n with
  | 0 => EmptyString
  | S n' => String "0" (zeros n')
  end.

Definition huge_score : string := "SCORE: 1" +:+ zeros 309.

(** One word after three spaces. *)
Definition indented_word : string := "   abcdefghij".

(** The provider always answers with five characters. *)
Definition terse_world : Env :=
  world (fun _ => reply "Hi :)") (fun _ => "SCORE: 90").

(** The provider reports a failure on every call. *)
Definition failing_world : Env :=
  world (fun _ => {| success := false; response_content := Some "";
                     metadata_error := Some "quota exceeded" |})
        (fun _ => "SCORE: 90").

(** The provider raises on every call, and so does a validator put in
    the place of [_validate_response_quality]. *)
Definition stormy_world : Env :=
  {| uuid4 := uuid4 good_world;
     clock_start := 100; clock_end := 103; clock_report := 104;
     format_2f := fixed2; str_float := fixed2; str_docs := str_docs good_world;
     int_max_str_digits := int_max_str_digits good_world;
     check_data_source_available := check_data_source_available good_world;
     check_tool_available := check_tool_available good_world;
     vector_initialize := fun _ _ => Raise "store unreachable";
     vector_query := fun _ _ _ _ => Raise "store unreachable";
     vector_close := fun _ => Ok tt;
     create_provider := fun _ _ => Ok tt;
     provider_initialize := fun _ => Ok true;
     generate_response := fun _ _ _ => Raise "connection reset";
     provider_close := fun _ => Ok tt;
     grader_create := fun _ _ => Ok tt;
     grader_initialize := fun _ => Ok true;
     grader_generate := fun _ _ => Raise "connection reset";
     grader_close := fun _ => Ok tt;
     quality_fault := fun _ => Some "validator crashed" |}.

Definition vector_source (q : string) (on : bool) : DataSourceSpec :=
  {| source_type := VECTOR_DB; query := Some q; filters := []; limit := 5;
     enabled := on; config := [] |}.

Definition history_source : DataSourceSpec :=
  {| source_type := CONVERSATION_HISTORY; query := None; filters := []; limit := 5;
     enabled := true; config := [] |}.

Definition specs_with (sources : list DataSourceSpec) : AgentExecutionSpec :=
  {| data_sources := sources; provider := Some openai; tools := [];
     processing := Some direct_processing;
     agent_metadata := {| messages_context := None |} |}.

(** An adaptive spec with threshold 0.7 and a reasoning engine that is
    confident at 0.5 in the suggestion [suggested]. *)
Definition adaptive_specs : AgentExecutionSpec :=
  {| data_sources := []; provider := Some openai; tools := [];
     processing := Some {| max_iterations := 3; timeout_seconds := 30;
                           execution_strategy := "adaptive";
                           reasoning_threshold := 0.7; eval := false |};
     agent_metadata := {| messages_context := None |} |}.

Definition suggested : AgentExecutionSpec := specs_with [vector_source "hello" true].

Definition timid_planner : Cortex.PlannerEnv :=
  {| Cortex.cost_estimate := fun _ => Ok 0.02%Q;
     Cortex.latency_estimate := fun _ => Ok 2%Q;
     Cortex.str_float := fixed2;
     Cortex.reasoning_engine := fun _ _ =>
       Ok {| Cortex.rr_optimized_specs := Some suggested;
             Cortex.rr_confidence := Some 0.5%Q;
             Cortex.rr_notes := None;
             Cortex.rr_estimated_cost := Some 0.03%Q;
             Cortex.rr_estimated_latency := Some 3%Q |} |}.

(** A limiter configured with two requests a minute and nothing else. *)
Definition two_a_minute : Guardrails.SecurityManager :=
  Guardrails.new_SecurityManager
    (Some {| Guardrails.rate_limiting :=
               Some {| Guardrails.rl_enabled := None;
                       Guardrails.max_requests_per_minute := Some 2%Z;
                       Guardrails.max_requests_per_hour := None |};
             Guardrails.other_sections := false |}).


Definition graph_engine : WorkflowEngine := _build_graph true.
Definition sequential_engine : WorkflowEngine := _build_graph false.

(** The vector store answers, and then fails to close. *)
Definition leaky_store_world : Env :=
  {| uuid4 := uuid4 good_world;
     clock_start := 100; clock_end := 103; clock_report := 104;
     format_2f := fixed2; str_float := fixed2; str_docs := str_docs good_world;
     int_max_str_digits := int_max_str_digits good_world;
     check_data_source_available := check_data_source_available good_world;
     check_tool_available := check_tool_available good_world;
     vector_initialize := vector_initialize good_world;
     vector_query := vector_query good_world;
     vector_close := fun _ => Raise "close failed";
     create_provider := create_provider good_world;
     provider_initialize := provider_initialize good_world;
     generate_response := generate_response good_world;
     provider_close := provider_close good_world;
     grader_create := grader_create good_world;
     grader_initialize := grader_initialize good_world;
     grader_generate := grader_generate good_world;
     grader_close := grader_close good_world;
     quality_fault := fun _ => None |}.

(** The provider answers well, and the grading provider does not
    initialise. *)
Definition ungraded_world : Env :=
  {| uuid4 := uuid4 good_world;
     clock_start := 100; clock_end := 103; clock_report := 104;
     format_2f := fixed2; str_float := fixed2; str_docs := str_docs good_world;
     int_max_str_digits := int_max_str_digits good_world;
     check_data_source_available := check_data_source_available good_world;
     check_tool_available := check_tool_available good_world;
     vector_initialize := vector_initialize good_world;
     vector_query := vector_query good_world;
     vector_close := vector_close good_world;
     create_provider := create_provider good_world;
     provider_initialize := provider_initialize good_world;
     generate_response := generate_response good_world;
     provider_close := provider_close good_world;
     grader_create := grader_create good_world;
     grader_initialize := fun _ => Ok false;
     grader_generate := grader_generate good_world;
     grader_close := grader_close good_world;
     quality_fault := fun _ => None |}.

(** A spec without a provider. *)
Definition no_provider_specs : AgentExecutionSpec :=
  {| data_sources := []; provider := None; tools := [];
     processing := Some direct_processing;
     agent_metadata := {| messages_context := None |} |}.

(** A spec with three tools: one the registry knows, one it does not
    know, and a disabled one. *)
Definition tool (n : string) (on : bool) : ToolSpec :=
  {| name := n; tool_enabled := on; tool_config := []; required_params := [] |}.

Definition tooled_specs : AgentExecutionSpec :=
  {| data_sources := []; provider := Some openai;
     tools := [tool "tavily_search" true; tool "calculator" true; tool "browser" false];
     processing := Some direct_processing;
     agent_metadata := {| messages_context := None |} |}.

(** An agent that passes its own system prompt. *)
Definition chat_context : MessagesContext :=
  {| system_prompt := Some "You are a helpful assistant.";
     conversation_history := None; current_message := None |}.

Definition agent_specs : AgentExecutionSpec :=
  {| data_sources := []; provider := Some openai; tools := [];
     processing := Some direct_processing;
     agent_metadata := {| messages_context := Some chat_context |} |}.

(** The state in which a second round starts, after a first answer
    [previous] was rejected with [why]. *)
Definition second_round (env : Env) (previous why : string) : WorkflowState :=
  set_validation_attempts 1
    (set_validation_feedback (Some why)
       (set_final_content (Some previous) (initial_state env (plan_of plain_specs) hello))).

(** The provider cannot be reached, and the grading call answers with a
    high score. *)
Definition unreachable_world : Env :=
  {| uuid4 := uuid4 good_world;
     clock_start := 100; clock_end := 103; clock_report := 104;
     format_2f := fixed2; str_float := fixed2; str_docs := str_docs good_world;
     int_max_str_digits := int_max_str_digits good_world;
     check_data_source_available := check_data_source_available good_world;
     check_tool_available := check_tool_available good_world;
     vector_initialize := vector_initialize good_world;
     vector_query := vector_query good_world;
     vector_close := vector_close good_world;
     create_provider := create_provider good_world;
     provider_initialize := provider_initialize good_world;
     generate_response := fun _ _ _ => Raise "connection reset";
     provider_close := provider_close good_world;
     grader_create := grader_create good_world;
     grader_initialize := grader_initialize good_world;
     grader_generate := grader_generate good_world;
     grader_close := grader_close good_world;
     quality_fault := fun _ => None |}.

(** A session manager that knows the token "good" and nothing else;
    its state counts the calls. *)
Definition one_token (token : string) (user_context : Guardrails.UserDict) (calls : nat)
  : Guardrails.SessionAnswer * nat :=
  (if String.eqb token "good"
   then Guardrails.SessionValid
          {| Guardrails.key_authenticated := Some true;
             Guardrails.key_is_authenticated := Some true;
             Guardrails.other_keys := [("user_id", "alice")] |}
   else Guardrails.SessionInvalid (Some "Signature verification failed"),
   S calls).

(** A context that says nothing of authentication, and one that claims
    it. *)
Definition anonymous_dict : Guardrails.UserDict :=
  {| Guardrails.key_authenticated := None; Guardrails.key_is_authenticated := None;
     Guardrails.other_keys := [] |}.

Definition claiming_dict : Guardrails.UserDict :=
  {| Guardrails.key_authenticated := None; Guardrails.key_is_authenticated := Some true;
     Guardrails.other_keys := [] |}.

(** A planner with the reasoning engine of [reasoning_engine.py] on
    the estimators [cost] and [latency]; one whose cost estimator
    raises; and a spec that asks for the reasoned strategy. *)
Definition shipped_planner (cost latency : AgentExecutionSpec -> Outcome Q)
  : Cortex.PlannerEnv :=
  {| Cortex.cost_estimate := cost;
     Cortex.latency_estimate := latency;
     Cortex.str_float := fixed2;
     Cortex.reasoning_engine := fun specs req =>
       Ok (Cortex.optimize_execution_specs cost latency specs req) |}.

Definition unpriced_planner : Cortex.PlannerEnv :=
  shipped_planner (fun _ => Raise "no pricing table") (fun _ => Ok 2%Q).

Definition priced_planner : Cortex.PlannerEnv :=
  shipped_planner (fun _ => Ok 0.02%Q) (fun _ => Ok 2%Q).

Definition reasoned_specs : AgentExecutionSpec :=
  {| data_sources := []; provider := Some openai; tools := [];
     processing := Some {| max_iterations := 3; timeout_seconds := 30;
                           execution_strategy := "reasoned";
                           reasoning_threshold := 0.7; eval := false |};
     agent_metadata := {| messages_context := None |} |}.

(** An installation in which every file is in place and nothing
    raises, on the graph. *)
Definition office : Pipeline.CortexEnv :=
  {| Pipeline.tracing_setup := Ok tt;
     Pipeline.ensure_initialized := Ok tt;
     Pipeline.provider_file_exists := fun _ => true;
     Pipeline.tool_file_exists := fun _ => true;
     Pipeline.data_source_file_exists := fun _ => true;
     Pipeline.user_validation := None;
     Pipeline.datetime_now := 0;
     Pipeline.time_start := 100;
     Pipeline.time_end := 104;
     Pipeline.planner := priced_planner;
     Pipeline.world := good_world;
     Pipeline.engine := graph_engine;
     Pipeline.fuel := 0 |}.

(** The same installation with a cost estimator that raises. *)
Definition unpriced_office : Pipeline.CortexEnv :=
  {| Pipeline.tracing_setup := Ok tt;
     Pipeline.ensure_initialized := Ok tt;
     Pipeline.provider_file_exists := fun _ => true;
     Pipeline.tool_file_exists := fun _ => true;
     Pipeline.data_source_file_exists := fun _ => true;
     Pipeline.user_validation := None;
     Pipeline.datetime_now := 0;
     Pipeline.time_start := 100;
     Pipeline.time_end := 104;
     Pipeline.planner := unpriced_planner;
     Pipeline.world := good_world;
     Pipeline.engine := graph_engine;
     Pipeline.fuel := 0 |}.

(** A request of a user who is not authenticated. *)
Definition stranger : BrainRequest :=
  {| request_id := "r-2"; application := "general"; message := "Hello";
     user_context := {| user_id := "mallory"; session_id := "s-2";
                        is_authenticated := false; user_profile := None |} |}.

End Scenario.

(* ===================================================================== *)
(** ** Proofs                                                             *)
(* ===================================================================== *)

Import Workflow Scenario.

(** *** What each node leaves untouched, and the invariants of a run *)

(** Case analysis on the innermost [match] of the goal. *)
Ltac break_match :=
  match goal with
  | |- context [match ?x with _ => _ end] =>
      lazymatch x with
      | context [match _ with _ => _ end] => fail
      | _ => destruct x eqn:?
      end
  end.

Section NodeFacts.
Variable env : Env.

Lemma same_control_refl s : same_control s s.
Proof. unfold same_control; tauto. Qed.

Lemma same_control_trans s1 s2 s3 :
  same_control s1 s2 -> same_control s2 s3 -> same_control s1 s3.
Proof. unfold same_control; intuition congruence. Qed.



Lemma initialize_control s : same_control s (_initialize_node s).
Proof. unfold same_control; cbn; tauto. Qed.

Lemma initialize_steps s :
  execution_steps (_initialize_node s) = execution_steps s ++ ["initialize"].
Proof. reflexivity. Qed.

Lemma query_data_sources_control s : same_control s (_query_data_sources_node env s).
Proof.
  unfold same_control, _query_data_sources_node.
  destruct (query_data_sources_from _ _ _ _ _); cbn; tauto.
Qed.

Lemma query_data_sources_steps s :
  execution_steps (_query_data_sources_node env s)
  = execution_steps s ++ ["query_data_sources"].
Proof.
  unfold _query_data_sources_node.
  destruct (query_data_sources_from _ _ _ _ _); reflexivity.
Qed.

Lemma execute_tools_control s : same_control s (_execute_tools_node env s).
Proof. unfold same_control; cbn; tauto. Qed.

Lemma execute_tools_steps s :
  execution_steps (_execute_tools_node env s) = execution_steps s ++ ["execute_tools"].
Proof. reflexivity. Qed.

Lemma build_messages_control s : same_control s (_build_messages_node env s).
Proof.
  unfold same_control, _build_messages_node.
  destruct (build_messages _ _); [cbn; tauto|].
  destruct (messages _); cbn; tauto.
Qed.

Lemma build_messages_steps s :
  execution_steps (_build_messages_node env s) = execution_steps s ++ ["build_messages"].
Proof.
  unfold _build_messages_node.
  destruct (build_messages _ _); [reflexivity|].
  destruct (messages _); reflexivity.
Qed.

Lemma call_provider_control s : same_control s (_call_provider_node env s).
Proof.
  unfold same_control, _call_provider_node, provider_call_failed.
  repeat (break_match; cbn); try tauto.
Qed.

Lemma call_provider_steps s :
  execution_steps (_call_provider_node env s) = execution_steps s ++ ["call_provider"].
Proof.
  unfold _call_provider_node, provider_call_failed.
  repeat (break_match; cbn); try reflexivity.
Qed.

Lemma validate_response_steps s :
  execution_steps (_validate_response_node env s)
  = execution_steps s ++ ["validate_response"].
Proof.
  unfold _validate_response_node.
  repeat (break_match; cbn); try reflexivity.
Qed.

Lemma validate_response_attempts s :
  validation_attempts (_validate_response_node env s) = validation_attempts s + 1.
Proof.
  unfold _validate_response_node.
  repeat (break_match; cbn); try reflexivity.
Qed.

Lemma validate_response_frame s :
  max_validation_runs (_validate_response_node env s) = max_validation_runs s
  /\ specs (_validate_response_node env s) = specs s
  /\ request (_validate_response_node env s) = request s.
Proof.
  unfold _validate_response_node.
  repeat (break_match; cbn); try tauto.
Qed.

Lemma finalize_steps s :
  execution_steps (_finalize_node env s) = execution_steps s ++ ["finalize"].
Proof.
  unfold _finalize_node.
  repeat (break_match; cbn); try reflexivity.
Qed.

Lemma finalize_control s : same_control s (_finalize_node env s).
Proof.
  unfold same_control, _finalize_node.
  repeat (break_match; cbn); try tauto.
Qed.

Lemma route_after_validation_frame s :
  let s' := snd (_route_after_validation s) in
  validation_attempts s' = validation_attempts s
  /\ max_validation_runs s' = max_validation_runs s
  /\ execution_steps s' = execution_steps s
  /\ specs s' = specs s
  /\ request s' = request s
  /\ confidence_score s' = confidence_score s
  /\ final_content s' = final_content s
  /\ llm_response s' = llm_response s.
Proof.
  unfold _route_after_validation.
  repeat (break_match; cbn); try tauto.
Qed.

(** The decision of the router. *)
Lemma route_after_validation_cases s :
  (fst (_route_after_validation s) = "finalize"
   /\ (is_validated s = true \/ max_validation_runs s <= validation_attempts s))
  \/ (fst (_route_after_validation s) = "retry"
      /\ snd (_route_after_validation s) = s
      /\ is_validated s = false
      /\ validation_attempts s < max_validation_runs s).
Proof.
  unfold _route_after_validation.
  destruct (is_validated s) eqn:Hv; cbn; [left; tauto|].
  destruct (max_validation_runs s <=? validation_attempts s) eqn:Hm; cbn.
  - apply Nat.leb_le in Hm. left; tauto.
  - apply Nat.leb_gt in Hm. right; tauto.
Qed.
End NodeFacts.

Section Invariants.
Variable env : Env.

Lemma count_steps_app step l1 l2 :
  count_steps step (l1 ++ l2) = count_steps step l1 + count_steps step l2.
Proof. induction l1 as [|x l1 IH]; cbn; [reflexivity|]. rewrite IH. lia. Qed.

(** A step that is neither a provider call nor FINALIZE leaves both
    counters alone. *)
Lemma counters_after_step s s' step :
  execution_steps s' = execution_steps s ++ [step] ->
  calls s' = calls s + (if String.eqb step "call_provider" then 1 else 0)
  /\ finalizations s' = finalizations s + (if String.eqb step "finalize" then 1 else 0).
Proof.
  intros H. unfold calls, finalizations, invocations. rewrite H, !count_steps_app.
  cbn. split; lia.
Qed.

Lemma loop_head_sound m s : loop_head m s -> sound m s.
Proof. unfold loop_head, sound. lia. Qed.

Lemma called_sound m s : called m s -> sound m s.
Proof. unfold called, sound. lia. Qed.

Lemma ready_sound m s : ready m s -> sound m s.
Proof. unfold ready, sound. lia. Qed.

(** A node that keeps the control fields and logs a step other than the
    two counted ones keeps the loop-head invariant. *)
Lemma loop_head_preserved m s s' step :
  same_control s s' ->
  execution_steps s' = execution_steps s ++ [step] ->
  String.eqb step "call_provider" = false ->
  String.eqb step "finalize" = false ->
  loop_head m s -> loop_head m s'.
Proof.
  intros (Ha & Hm & Hv & _) Hs Hc Hf (H1 & H2 & H3 & H4 & H5).
  destruct (counters_after_step s s' step Hs) as [Hc' Hf'].
  rewrite Hc in Hc'. rewrite Hf in Hf'.
  unfold loop_head. rewrite Ha, Hm, Hv. repeat split; lia || congruence.
Qed.

Lemma loop_head_initialize m s : loop_head m s -> loop_head m (_initialize_node s).
Proof.
  apply loop_head_preserved with (step := "initialize");
    auto using initialize_control, initialize_steps.
Qed.

Lemma loop_head_query_data_sources m s :
  loop_head m s -> loop_head m (_query_data_sources_node env s).
Proof.
  apply loop_head_preserved with (step := "query_data_sources");
    auto using query_data_sources_control, query_data_sources_steps.
Qed.

Lemma loop_head_execute_tools m s :
  loop_head m s -> loop_head m (_execute_tools_node env s).
Proof.
  apply loop_head_preserved with (step := "execute_tools");
    auto using execute_tools_control, execute_tools_steps.
Qed.

Lemma loop_head_build_messages m s :
  loop_head m s -> loop_head m (_build_messages_node env s).
Proof.
  apply loop_head_preserved with (step := "build_messages");
    auto using build_messages_control, build_messages_steps.
Qed.

Lemma called_call_provider m s : loop_head m s -> called m (_call_provider_node env s).
Proof.
  intros (H1 & H2 & H3 & H4 & H5).
  destruct (call_provider_control env s) as (Ha & Hm & Hv & _).
  destruct (counters_after_step _ _ _ (call_provider_steps env s)) as [Hc Hf].
  cbn in Hc, Hf. unfold called. rewrite Ha, Hm, Hv. repeat split; lia || congruence.
Qed.

(** After the validation the counters agree again; the node may have
    accepted the response. *)
Lemma validated_counts m s :
  called m s ->
  let s' := _validate_response_node env s in
  max_validation_runs s' = m /\ calls s' = validation_attempts s'
  /\ 1 <= validation_attempts s' <= m /\ finalizations s' = 0.
Proof.
  intros (H1 & H2 & H3 & H4 & H5) s'.
  destruct (validate_response_frame env s) as (Hm & _).
  pose proof (validate_response_attempts env s) as Ha.
  destruct (counters_after_step _ _ _ (validate_response_steps env s)) as [Hc Hf].
  cbn in Hc, Hf. subst s'. repeat split; lia || congruence.
Qed.

(** The routing decision after a validation: towards FINALIZE with the
    invariant [ready], or back to the loop head. *)
Lemma route_after_validated m s :
  called m s ->
  let s3 := _validate_response_node env s in
  (fst (_route_after_validation s3) = "finalize"
   /\ ready m (snd (_route_after_validation s3)))
  \/ (fst (_route_after_validation s3) = "retry"
      /\ snd (_route_after_validation s3) = s3
      /\ loop_head m s3).
Proof.
  intros Hc s3.
  destruct (validated_counts m s Hc) as (Hm & Hcalls & Hatt & Hfin). fold s3 in Hm, Hcalls, Hatt, Hfin.
  destruct (route_after_validation_frame s3) as (Ra & Rm & Rs & _).
  destruct (route_after_validation_cases s3) as [[Hr _]|(Hr & Hsame & Hv & Hlt)].
  - left. split; [exact Hr|].
    cbv zeta in Ra, Rm, Rs.
    unfold ready, calls, finalizations, invocations in *. rewrite Ra, Rm, Rs. tauto.
  - right. unfold loop_head. clearbody s3. repeat split; auto; lia.
Qed.

Lemma sound_after_route m s :
  called m s -> sound m (snd (_route_after_validation (_validate_response_node env s))).
Proof.
  intros Hc. destruct (route_after_validated m s Hc) as [[_ H]|(_ & He & H)].
  - now apply ready_sound.
  - rewrite He. now apply loop_head_sound.
Qed.

Lemma sound_validated m s : called m s -> sound m (_validate_response_node env s).
Proof.
  intros Hc. destruct (validated_counts m s Hc) as (Hm & Hcalls & Hatt & _).
  unfold sound. lia.
Qed.

Lemma finalize_finalizations s :
  finalizations (_finalize_node env s) = finalizations s + 1.
Proof.
  destruct (counters_after_step _ _ _ (finalize_steps env s)) as [_ Hf]. exact Hf.
Qed.

Lemma finished_sound m s : finished env m s -> sound m s.
Proof.
  intros (pre & (Hm & Hc & Ha & Hf) & ->).
  destruct (finalize_control env pre) as (Ha' & Hm' & _).
  destruct (counters_after_step _ _ _ (finalize_steps env pre)) as [Hc' _].
  change (calls (_finalize_node env pre) = calls pre + 0) in Hc'.
  unfold sound. lia.
Qed.

Lemma finished_once m s : finished env m s -> finalizations s = 1.
Proof.
  intros (pre & (Hm & Hc & Ha & Hf) & ->). rewrite finalize_finalizations. lia.
Qed.

(** *** The sequential loop *)

Lemma retry_loop_unfold fuel s :
  retry_loop env (S fuel) s
  = let r := _route_after_validation (attempt env s) in
    if String.eqb (fst r) "finalize" then Some (snd r) else retry_loop env fuel (snd r).
Proof.
  cbn [retry_loop]. unfold attempt.
  destruct (_route_after_validation _); reflexivity.
Qed.

Lemma retry_loop_states_unfold fuel s :
  retry_loop_states env (S fuel) s
  = let s1 := _build_messages_node env s in
    let s2 := _call_provider_node env s1 in
    let r := _route_after_validation (attempt env s) in
    [s1; s2; attempt env s; snd r]
    ++ (if String.eqb (fst r) "finalize" then [] else retry_loop_states env fuel (snd r)).
Proof.
  cbn [retry_loop_states]. unfold attempt.
  destruct (_route_after_validation _); reflexivity.
Qed.

Lemma attempt_attempts s :
  validation_attempts (attempt env s) = validation_attempts s + 1.
Proof.
  unfold attempt. rewrite validate_response_attempts.
  destruct (call_provider_control env (_build_messages_node env s)) as (-> & _).
  destruct (build_messages_control env s) as (-> & _). reflexivity.
Qed.

Lemma attempt_called m s :
  loop_head m s -> called m (_call_provider_node env (_build_messages_node env s)).
Proof. intros Hh. apply called_call_provider, loop_head_build_messages, Hh. Qed.

Lemma route_after_attempt m s :
  loop_head m s ->
  (fst (_route_after_validation (attempt env s)) = "finalize"
   /\ ready m (snd (_route_after_validation (attempt env s))))
  \/ (fst (_route_after_validation (attempt env s)) = "retry"
      /\ snd (_route_after_validation (attempt env s)) = attempt env s
      /\ loop_head m (attempt env s)).
Proof. intros Hh. exact (route_after_validated m _ (attempt_called m s Hh)). Qed.

Lemma sound_attempt m s : loop_head m s -> sound m (attempt env s).
Proof. intros Hh. exact (sound_validated m _ (attempt_called m s Hh)). Qed.

Lemma sound_routed m s :
  loop_head m s -> sound m (snd (_route_after_validation (attempt env s))).
Proof. intros Hh. exact (sound_after_route m _ (attempt_called m s Hh)). Qed.

Lemma retry_loop_exits m fuel : forall s,
  loop_head m s -> m - validation_attempts s <= fuel ->
  exists s', retry_loop env fuel s = Some s' /\ ready m s'.
Proof.
  induction fuel as [|fuel IH]; intros s Hh Hfuel.
  - destruct Hh as (_ & _ & Hlt & _). lia.
  - rewrite retry_loop_unfold. cbv zeta.
    destruct (route_after_attempt m s Hh) as [[Hr Hready]|(Hr & Hsame & Hhead)].
    + rewrite Hr. eexists; split; [reflexivity|exact Hready].
    + rewrite Hr, Hsame. change (String.eqb "retry" "finalize") with false. cbv iota.
      apply IH; [exact Hhead|]. rewrite attempt_attempts. lia.
Qed.

Lemma retry_loop_ready m fuel : forall s s',
  loop_head m s -> retry_loop env fuel s = Some s' -> ready m s'.
Proof.
  induction fuel as [|fuel IH]; intros s s' Hh Hrun; [discriminate|].
  rewrite retry_loop_unfold in Hrun. cbv zeta in Hrun.
  destruct (route_after_attempt m s Hh) as [[Hr Hready]|(Hr & Hsame & Hhead)].
  - rewrite Hr in Hrun. change (String.eqb "finalize" "finalize") with true in Hrun.
    cbv iota in Hrun. congruence.
  - rewrite Hr, Hsame in Hrun. change (String.eqb "retry" "finalize") with false in Hrun.
    cbv iota in Hrun. eauto.
Qed.

Lemma retry_loop_states_sound m fuel : forall s,
  loop_head m s -> Forall (sound m) (retry_loop_states env fuel s).
Proof.
  induction fuel as [|fuel IH]; intros s Hh; [constructor|].
  rewrite retry_loop_states_unfold. cbv zeta.
  pose proof (loop_head_build_messages m s Hh) as Hb.
  pose proof (attempt_called m s Hh) as Hc.
  pose proof (sound_attempt m s Hh) as Hv.
  pose proof (sound_routed m s Hh) as Hr.
  apply Forall_app. split.
  - repeat (constructor; [solve [auto using loop_head_sound, called_sound]|]).
    constructor.
  - destruct (route_after_attempt m s Hh) as [[Hroute _]|(Hroute & Hsame & Hhead)];
      rewrite Hroute.
    + constructor.
    + change (String.eqb "retry" "finalize") with false. cbv iota.
      rewrite Hsame. now apply IH.
Qed.

End Invariants.

Section GraphRun.
Variable env : Env.

Lemma edge_initialize s :
  exists n', edge INITIALIZE s = (Ok (Goto n'), s)
             /\ (n' = QUERY_DATA_SOURCES \/ n' = EXECUTE_TOOLS \/ n' = BUILD_MESSAGES).
Proof.
  unfold edge, _route_after_initialize.
  destruct (existsb enabled _); [eexists; split; [reflexivity|tauto]|].
  destruct (existsb tool_enabled _); eexists; (split; [reflexivity|tauto]).
Qed.

Lemma edge_query_data_sources s :
  exists n', edge QUERY_DATA_SOURCES s = (Ok (Goto n'), s)
             /\ (n' = EXECUTE_TOOLS \/ n' = BUILD_MESSAGES).
Proof.
  unfold edge, _route_after_data_sources.
  destruct (existsb tool_enabled _); eexists; (split; [reflexivity|tauto]).
Qed.

Lemma set_is_validated_same s : set_is_validated (is_validated s) s = s.
Proof. destruct s; reflexivity. Qed.

Lemma set_is_validated_twice a b s :
  set_is_validated a (set_is_validated b s) = set_is_validated a s.
Proof. reflexivity. Qed.

(** A retry hands on the state of the validation as it is. *)
Lemma graph_routed_retry s :
  snd (_route_after_validation s) = s -> graph_routed s = s.
Proof. intros H. unfold graph_routed. rewrite H. apply set_is_validated_same. Qed.

(** The router's assignment apart, the graph hands on what the router
    leaves. *)
Lemma graph_routed_frame s :
  let r := snd (_route_after_validation s) in
  let g := graph_routed s in
  g = set_is_validated (is_validated s) r
  /\ r = set_is_validated (is_validated r) g
  /\ validation_attempts g = validation_attempts r
  /\ max_validation_runs g = max_validation_runs r
  /\ execution_steps g = execution_steps r
  /\ errors g = errors r
  /\ confidence_score g = confidence_score r
  /\ final_content g = final_content r.
Proof.
  cbv zeta. unfold graph_routed.
  split; [reflexivity|]. split; [|cbn; tauto].
  rewrite set_is_validated_twice. symmetry. apply set_is_validated_same.
Qed.

Lemma ready_graph_routed m s :
  ready m (snd (_route_after_validation s)) -> ready m (graph_routed s).
Proof. unfold ready, calls, finalizations, invocations, graph_routed. cbn. tauto. Qed.

Lemma sound_graph_routed m s :
  sound m (snd (_route_after_validation s)) -> sound m (graph_routed s).
Proof. unfold sound, calls, invocations, graph_routed. cbn. tauto. Qed.

Lemma edge_validate_response s :
  edge VALIDATE_RESPONSE s
  = (Ok (Goto (if String.eqb (fst (_route_after_validation s)) "finalize"
               then FINALIZE else BUILD_MESSAGES)),
     graph_routed s).
Proof.
  unfold edge, graph_routed.
  destruct (route_after_validation_cases s) as [[Hr _]|(Hr & _)];
    destruct (_route_after_validation s) as [route s']; cbn [fst snd] in *;
    subst route; reflexivity.
Qed.

(** Every node but FINALIZE hands over to a next node, with its
    invariant and a smaller budget. *)
Lemma edge_progress m n s :
  at_node m n s -> n <> FINALIZE ->
  exists n' s2,
    edge n (node_function env n s) = (Ok (Goto n'), s2)
    /\ at_node m n' s2 /\ budget m n' s2 < budget m n s
    /\ sound m (node_function env n s) /\ sound m s2.
Proof.
  intros Hat Hn. destruct n; cbn [at_node node_function] in *; try congruence.
  - pose proof (loop_head_initialize m s Hat) as H.
    destruct (initialize_control s) as (Ha & _).
    destruct (edge_initialize (_initialize_node s)) as (n' & -> & Hn').
    exists n', (_initialize_node s).
    split; [reflexivity|]. split; [|split; [|split]]; auto using loop_head_sound.
    + destruct Hn' as [->| [->| ->]]; exact H.
    + destruct Hn' as [->| [->| ->]]; unfold budget; rewrite Ha; lia.
  - pose proof (loop_head_query_data_sources env m s Hat) as H.
    destruct (query_data_sources_control env s) as (Ha & _).
    destruct (edge_query_data_sources (_query_data_sources_node env s)) as (n' & -> & Hn').
    exists n', (_query_data_sources_node env s).
    split; [reflexivity|]. split; [|split; [|split]]; auto using loop_head_sound.
    + destruct Hn' as [->| ->]; exact H.
    + destruct Hn' as [->| ->]; unfold budget; rewrite Ha; lia.
  - pose proof (loop_head_execute_tools env m s Hat) as H.
    destruct (execute_tools_control env s) as (Ha & _).
    exists BUILD_MESSAGES, (_execute_tools_node env s).
    split; [reflexivity|]. split; [|split; [|split]]; auto using loop_head_sound.
    unfold budget; rewrite Ha; lia.
  - pose proof (loop_head_build_messages env m s Hat) as H.
    destruct (build_messages_control env s) as (Ha & _).
    exists CALL_PROVIDER, (_build_messages_node env s).
    split; [reflexivity|]. split; [|split; [|split]]; auto using loop_head_sound.
    unfold budget; rewrite Ha; lia.
  - pose proof (called_call_provider env m s Hat) as H.
    destruct (call_provider_control env s) as (Ha & _).
    exists VALIDATE_RESPONSE, (_call_provider_node env s).
    split; [reflexivity|]. split; [|split; [|split]]; auto using called_sound.
    unfold budget; rewrite Ha. destruct Hat as (_ & _ & Hlt & _). lia.
  - rewrite edge_validate_response.
    pose proof (validate_response_attempts env s) as Ha.
    pose proof (sound_validated env m s Hat) as Hsv.
    pose proof (sound_after_route env m s Hat) as Hsr.
    destruct (route_after_validation_frame (_validate_response_node env s)) as (Ra & _).
    cbv zeta in Ra.
    destruct (route_after_validated env m s Hat) as [[Hr Hready]|(Hr & Hsame & Hhead)];
      rewrite Hr; eexists _, _; (split; [reflexivity|]).
    + change (String.eqb "finalize" "finalize") with true. cbv iota.
      split; [now apply ready_graph_routed|].
      split; [|split; [exact Hsv|now apply sound_graph_routed]].
      unfold budget. destruct Hat as (_ & _ & Hlt & _). lia.
    + change (String.eqb "retry" "finalize") with false. cbv iota.
      rewrite (graph_routed_retry _ Hsame).
      split; [exact Hhead|].
      split; [|split; [exact Hsv|now apply loop_head_sound]].
      unfold budget. rewrite Ha. destruct Hat as (_ & _ & Hlt & _). lia.
Qed.

Lemma Node_eq_dec_finalize (n : Node) : n = FINALIZE \/ n <> FINALIZE.
Proof. destruct n; (left; reflexivity) || (right; discriminate). Qed.

Lemma edge_finalize s : edge FINALIZE s = (Ok END, s).
Proof. reflexivity. Qed.

Lemma ainvoke_from_finishes m limit : forall n s,
  at_node m n s -> budget m n s <= limit ->
  exists s', ainvoke_from env limit n s = Ok s' /\ finished env m s'.
Proof.
  induction limit as [|limit IH]; intros n s Hat Hb.
  - destruct n; cbn in Hb, Hat; try lia; destruct Hat as (_ & _ & Hlt & _); lia.
  - cbn [ainvoke_from].
    destruct (Node_eq_dec_finalize n) as [->|Hn].
    + cbn [node_function]. rewrite edge_finalize.
      eexists; split; [reflexivity|]. exists s. split; [exact Hat|reflexivity].
    + destruct (edge_progress m n s Hat Hn) as (n' & s2 & -> & Hat' & Hlt & _).
      apply IH; [exact Hat'|lia].
Qed.

Lemma ainvoke_from_finished m limit : forall n s s',
  at_node m n s -> ainvoke_from env limit n s = Ok s' -> finished env m s'.
Proof.
  induction limit as [|limit IH]; intros n s s' Hat Hrun; [discriminate|].
  cbn [ainvoke_from] in Hrun.
  destruct (Node_eq_dec_finalize n) as [->|Hn].
  - cbn [node_function] in Hrun. rewrite edge_finalize in Hrun.
    injection Hrun as <-. exists s. split; [exact Hat|reflexivity].
  - destruct (edge_progress m n s Hat Hn) as (n' & s2 & He & Hat' & _).
    rewrite He in Hrun. eauto.
Qed.

Lemma ainvoke_states_sound m limit : forall n s,
  at_node m n s -> Forall (sound m) (ainvoke_states env limit n s).
Proof.
  induction limit as [|limit IH]; intros n s Hat; [constructor|].
  cbn [ainvoke_states].
  destruct (Node_eq_dec_finalize n) as [->|Hn].
  - cbn [node_function]. rewrite edge_finalize.
    assert (sound m (_finalize_node env s)) as Hs
      by (apply finished_sound with (env := env); exists s; split; [exact Hat|reflexivity]).
    constructor; [exact Hs|]. constructor; [exact Hs|]. constructor.
  - destruct (edge_progress m n s Hat Hn) as (n' & s2 & -> & Hat' & _ & Hs1 & Hs2).
    constructor; [exact Hs1|]. constructor; [exact Hs2|]. apply IH, Hat'.
Qed.

End GraphRun.

Section WholeRun.
Variable env : Env.

Lemma initial_loop_head plan req : loop_head 5 (initial_state env plan req).
Proof. unfold loop_head. cbn. repeat split; lia. Qed.

Lemma sequential_unfold fuel s :
  _execute_sequential env fuel s
  = match retry_loop env fuel (sequential_prologue env s) with
    | Some s' => Some (_finalize_node env s')
    | None => None
    end.
Proof. reflexivity. Qed.

Lemma sequential_prologue_head m s :
  loop_head m s -> loop_head m (sequential_prologue env s).
Proof.
  intros Hh. unfold sequential_prologue. cbv zeta.
  pose proof (loop_head_initialize m s Hh) as H1.
  assert (loop_head m
            match data_sources (specs (_initialize_node s)) with
            | [] => _initialize_node s
            | _ => _query_data_sources_node env (_initialize_node s)
            end) as H2
    by (destruct (data_sources _); auto using loop_head_query_data_sources).
  destruct (tools _); auto using loop_head_execute_tools.
Qed.

Lemma sequential_prologue_attempts s :
  validation_attempts (sequential_prologue env s) = validation_attempts s.
Proof.
  unfold sequential_prologue. cbv zeta.
  destruct (tools _).
  - destruct (data_sources _); [reflexivity|].
    now destruct (query_data_sources_control env (_initialize_node s)) as (-> & _).
  - destruct (execute_tools_control env
                match data_sources (specs (_initialize_node s)) with
                | [] => _initialize_node s
                | _ => _query_data_sources_node env (_initialize_node s)
                end) as (-> & _).
    destruct (data_sources _); [reflexivity|].
    now destruct (query_data_sources_control env (_initialize_node s)) as (-> & _).
Qed.

Lemma sequential_finishes m fuel s :
  loop_head m s -> m - validation_attempts s <= fuel ->
  exists s', _execute_sequential env fuel s = Some s' /\ finished env m s'.
Proof.
  intros Hh Hfuel. rewrite sequential_unfold.
  destruct (retry_loop_exits env m fuel (sequential_prologue env s)) as (s' & -> & Hready).
  - now apply sequential_prologue_head.
  - rewrite sequential_prologue_attempts. exact Hfuel.
  - eexists; split; [reflexivity|]. exists s'. split; [exact Hready|reflexivity].
Qed.

Lemma sequential_finished m fuel s s' :
  loop_head m s -> _execute_sequential env fuel s = Some s' -> finished env m s'.
Proof.
  intros Hh. rewrite sequential_unfold.
  destruct (retry_loop env fuel (sequential_prologue env s)) as [s4|] eqn:Hloop; [|discriminate].
  intros [= <-]. exists s4. split; [|reflexivity].
  eapply retry_loop_ready; [apply sequential_prologue_head, Hh|exact Hloop].
Qed.

Lemma graph_finishes m g s :
  loop_head m s -> 3 * (m - validation_attempts s) + 4 <= recursion_limit g ->
  ainvoke env g s = Ok (_execute_graph env g s) /\ finished env m (_execute_graph env g s).
Proof.
  intros Hh Hlim. unfold _execute_graph, ainvoke.
  destruct (ainvoke_from_finishes env m (recursion_limit g) INITIALIZE s Hh Hlim)
    as (s' & -> & Hfin).
  split; [reflexivity|exact Hfin].
Qed.
End WholeRun.

(** *** How many nodes a run executes *)

Section Pace.
Variable env : Env.

Local Abbreviation paces s := (length (execution_steps s)).

Lemma node_function_steps n s :
  execution_steps (node_function env n s) = execution_steps s ++ [node_name n].
Proof.
  destruct n; cbn [node_function node_name];
    auto using initialize_steps, query_data_sources_steps, execute_tools_steps,
      build_messages_steps, call_provider_steps, validate_response_steps, finalize_steps.
Qed.

Lemma node_function_pace n s : paces (node_function env n s) = S (paces s).
Proof. rewrite node_function_steps, length_app. cbn [length]. lia. Qed.

Lemma edge_steps n s : execution_steps (snd (edge n s)) = execution_steps s.
Proof.
  destruct n; try reflexivity.
  rewrite edge_validate_response. cbn [snd].
  destruct (graph_routed_frame s) as (_ & _ & _ & _ & -> & _).
  now destruct (route_after_validation_frame s) as (_ & _ & -> & _).
Qed.

Lemma ainvoke_from_pace m limit : forall n s s',
  at_node m n s -> ainvoke_from env limit n s = Ok s' ->
  paces s' <= paces s + budget m n s.
Proof.
  induction limit as [|limit IH]; intros n s s' Hat Hrun; [discriminate|].
  cbn [ainvoke_from] in Hrun.
  destruct (Node_eq_dec_finalize n) as [->|Hn].
  - cbn [node_function] in Hrun. rewrite edge_finalize in Hrun. injection Hrun as <-.
    change (_finalize_node env s) with (node_function env FINALIZE s).
    rewrite node_function_pace. cbn [budget]. lia.
  - destruct (edge_progress env m n s Hat Hn) as (n' & s2 & He & Hat' & Hlt & _).
    pose proof (edge_steps n (node_function env n s)) as Hs. rewrite He in Hs; cbn [snd] in Hs.
    rewrite He in Hrun. apply IH in Hrun; [|exact Hat'].
    pose proof (node_function_pace n s) as Hp. rewrite Hs in Hrun. lia.
Qed.

Lemma attempt_pace s : paces (attempt env s) = paces s + 3.
Proof.
  unfold attempt .
  rewrite validate_response_steps, call_provider_steps, build_messages_steps, !length_app.
  cbn [length]. lia.
Qed.

Lemma retry_loop_finalize fuel s :
  fst (_route_after_validation (attempt env s)) = "finalize" ->
  retry_loop env (S fuel) s = Some (snd (_route_after_validation (attempt env s))).
Proof. intros H. rewrite retry_loop_unfold. cbv zeta. now rewrite H. Qed.

Lemma retry_loop_retry fuel s :
  fst (_route_after_validation (attempt env s)) = "retry" ->
  retry_loop env (S fuel) s
  = retry_loop env fuel (snd (_route_after_validation (attempt env s))).
Proof. intros H. rewrite retry_loop_unfold. cbv zeta. now rewrite H. Qed.

Lemma retry_loop_pace m fuel : forall s s',
  loop_head m s -> retry_loop env fuel s = Some s' ->
  paces s' <= paces s + 3 * (m - validation_attempts s).
Proof.
  induction fuel as [|fuel IH]; intros s s' Hh Hrun; [discriminate|].
  pose proof (attempt_pace s) as Hp.
  destruct (route_after_validation_frame (attempt env s)) as (_ & _ & Hs & _). cbv zeta in Hs.
  pose proof Hh as (_ & _ & Hlt & _).
  destruct (route_after_attempt env m s Hh) as [[Hr Hready]|(Hr & Hsame & Hhead)].
  - rewrite (retry_loop_finalize fuel s Hr) in Hrun. injection Hrun as <-.
    rewrite Hs. lia.
  - rewrite (retry_loop_retry fuel s Hr), Hsame in Hrun.
    apply IH in Hrun; [|exact Hhead].
    rewrite attempt_attempts in Hrun. lia.
Qed.

Lemma sequential_prologue_pace s : paces (sequential_prologue env s) <= paces s + 3.
Proof.
  unfold sequential_prologue . cbv zeta.
  assert (forall x, length (execution_steps
            match data_sources (specs x) with
            | [] => x
            | _ => _query_data_sources_node env x
            end) <= length (execution_steps x) + 1) as Hq.
  { intros x. destruct (data_sources _); [lia|].
    rewrite query_data_sources_steps, length_app. cbn [length]. lia. }
  specialize (Hq (_initialize_node s)).
  rewrite initialize_steps, length_app in Hq. cbn [length] in Hq.
  destruct (tools _); [lia|].
  rewrite execute_tools_steps, length_app. cbn [length]. lia.
Qed.

Lemma sequential_pace m fuel s s' :
  loop_head m s -> _execute_sequential env fuel s = Some s' ->
  paces s' <= paces s + 3 * (m - validation_attempts s) + 4.
Proof.
  intros Hh. rewrite sequential_unfold.
  destruct (retry_loop env fuel (sequential_prologue env s)) as [s4|] eqn:Hloop; [|discriminate].
  intros [= <-].
  apply retry_loop_pace with (m := m) in Hloop; [|apply sequential_prologue_head, Hh].
  rewrite sequential_prologue_attempts in Hloop.
  pose proof (sequential_prologue_pace s).
  change (_finalize_node env s4) with (node_function env FINALIZE s4).
  rewrite node_function_pace. lia.
Qed.

(** The last step of a finished run, and its status. *)
Lemma finished_last m s :
  finished env m s -> List.last (execution_steps s) "" = "finalize".
Proof.
  intros (pre & _ & ->). rewrite finalize_steps. apply last_last.
Qed.

Lemma finalize_status s :
  status (_finalize_node env s)
  = match errors (_finalize_node env s) with
    | [] => "completed"
    | _ => "completed_with_errors"
    end.
Proof.
  unfold _finalize_node. destruct (Qltb _ _); cbn; reflexivity.
Qed.

Lemma finished_status m s :
  finished env m s -> status_completed (status s) = true.
Proof.
  intros (pre & _ & ->). rewrite finalize_status. now destruct (errors _).
Qed.
End Pace.

(** *** Whole runs *)

Section Runs.
Variable env : Env.

Lemma execute_graph_sound m g s :
  loop_head m s -> sound m (_execute_graph env g s).
Proof.
  intros Hh. unfold _execute_graph, ainvoke.
  destruct (ainvoke_from env (recursion_limit g) INITIALIZE s) as [s'|e] eqn:Hrun.
  - eapply finished_sound, ainvoke_from_finished; [|exact Hrun]. exact Hh.
  - apply loop_head_sound in Hh. exact Hh.
Qed.

Lemma sequential_states_sound m fuel s :
  loop_head m s -> Forall (sound m) (_execute_sequential_states env fuel s).
Proof.
  intros Hh. unfold _execute_sequential_states. cbv zeta.
  fold (sequential_prologue env s).
  pose proof (loop_head_initialize m s Hh) as H1.
  pose proof (sequential_prologue_head env m s Hh) as H3.
  assert (loop_head m
            match data_sources (specs (_initialize_node s)) with
            | [] => _initialize_node s
            | _ => _query_data_sources_node env (_initialize_node s)
            end) as H2
    by (destruct (data_sources _); auto using loop_head_query_data_sources).
  constructor; [now apply loop_head_sound|].
  constructor; [now apply loop_head_sound|].
  constructor; [now apply loop_head_sound|].
  apply Forall_app. split; [now apply retry_loop_states_sound|].
  destruct (retry_loop env fuel (sequential_prologue env s)) as [s4|] eqn:Hloop;
    [|constructor].
  constructor; [|constructor].
  apply finished_sound with (env := env). exists s4. split; [|reflexivity].
  eapply retry_loop_ready; [exact H3|exact Hloop].
Qed.

Lemma run_states_sound engine fuel plan req :
  Forall (sound 5) (run_states env engine fuel plan req).
Proof.
  pose proof (initial_loop_head env plan req) as H0.
  unfold run_states. cbv zeta. destruct (graph engine) as [g|].
  - constructor; [now apply loop_head_sound|].
    apply Forall_app. split; [now apply ainvoke_states_sound|].
    constructor; [now apply execute_graph_sound|constructor].
  - constructor; [now apply loop_head_sound|]. now apply sequential_states_sound.
Qed.

Lemma run_workflow_sound engine fuel plan req final :
  run_workflow env engine fuel plan req = Some final -> sound 5 final.
Proof.
  pose proof (initial_loop_head env plan req) as H0.
  unfold run_workflow. destruct (graph engine) as [g|].
  - intros [= <-]. now apply execute_graph_sound.
  - intros Hrun. eapply finished_sound, sequential_finished; [exact H0|exact Hrun].
Qed.

(** A run of the engine as [_build_graph] leaves it reaches FINALIZE,
    given five rounds of fuel for the sequential [while True]. *)
Lemma run_workflow_finishes langgraph fuel plan req :
  5 <= fuel ->
  exists final,
    run_workflow env (_build_graph langgraph) fuel plan req = Some final
    /\ finished env 5 final.
Proof.
  intros Hfuel. pose proof (initial_loop_head env plan req) as H0.
  unfold run_workflow. destruct langgraph; cbn [_build_graph graph].
  - eexists; split; [reflexivity|].
    apply graph_finishes; [exact H0|]. cbn. lia.
  - apply sequential_finishes; [exact H0|]. cbn. lia.
Qed.

Lemma run_workflow_finished langgraph fuel plan req final :
  run_workflow env (_build_graph langgraph) fuel plan req = Some final ->
  finished env 5 final.
Proof.
  pose proof (initial_loop_head env plan req) as H0.
  unfold run_workflow. destruct langgraph; cbn [_build_graph graph].
  - intros [= <-]. apply graph_finishes; [exact H0|]. cbn. lia.
  - intros Hrun. eapply sequential_finished; [exact H0|exact Hrun].
Qed.

Lemma run_workflow_pace langgraph fuel plan req final :
  run_workflow env (_build_graph langgraph) fuel plan req = Some final ->
  length (execution_steps final) <= 19.
Proof.
  pose proof (initial_loop_head env plan req) as H0.
  unfold run_workflow. destruct langgraph; cbn [_build_graph graph].
  - intros [= <-].
    destruct (graph_finishes env 5 {| recursion_limit := 25 |} _ H0) as [Hrun _];
      [cbn; lia|].
    apply ainvoke_from_pace with (m := 5) in Hrun; [|exact H0].
    cbn in Hrun. exact Hrun.
  - intros Hrun. apply sequential_pace with (m := 5) in Hrun; [|exact H0].
    cbn in Hrun. exact Hrun.
Qed.
End Runs.

(** C1. Bounded retries: in every state a run of [execute_plan] passes
    through, on the graph or sequentially, the ceiling
    [max_validation_runs] is 5, CALL_PROVIDER has run at most that many
    times and [validation_attempts] is at most that ceiling; the same
    holds of the final state the run returns. *)
Theorem bounded_retries (env : Env) (engine : WorkflowEngine) (fuel : nat)
    (plan : ExecutionPlan) (req : BrainRequest) :
  Forall (fun s => max_validation_runs s = 5
                   /\ invocations "call_provider" s <= max_validation_runs s
                   /\ validation_attempts s <= max_validation_runs s)
         (run_states env engine fuel plan req)
  /\ match run_workflow env engine fuel plan req with
     | Some final =>
         max_validation_runs final = 5
         /\ invocations "call_provider" final <= 5
         /\ validation_attempts final <= 5
     | None => True
     end.
Proof.
  split.
  - eapply List.Forall_impl; [|apply run_states_sound].
    intros s (Hm & Hc & Ha). unfold calls in Hc. rewrite Hm. auto.
  - destruct (run_workflow env engine fuel plan req) as [final|] eqn:Hrun; [|exact I].
    apply run_workflow_sound in Hrun. exact Hrun.
Qed.

(** C2. Always terminates: whatever the provider, the grader and the
    validator do, raising included, a run with five rounds of fuel for
    the sequential loop (the graph needs none) ends: the loop is left,
    FINALIZE is the last node to run, at most 19 nodes have run, the
    status is a completed one, and [execute_plan] returns the result
    built from that final state. *)
Theorem always_terminates (env : Env) (langgraph : bool) (fuel : nat)
    (plan : ExecutionPlan) (req : BrainRequest) :
  5 <= fuel ->
  exists final,
    run_workflow env (_build_graph langgraph) fuel plan req = Some final
    /\ execute_plan env (_build_graph langgraph) fuel plan req
       = Some (determine_outcome env final)
    /\ (exists pre, final = _finalize_node env pre)
    /\ List.last (execution_steps final) "" = "finalize"
    /\ length (execution_steps final) <= 19
    /\ status_completed (status final) = true.
Proof.
  intros Hfuel.
  destruct (run_workflow_finishes env langgraph fuel plan req Hfuel) as (final & Hrun & Hfin).
  exists final. split; [exact Hrun|].
  split; [unfold execute_plan; now rewrite Hrun|].
  split; [destruct Hfin as (pre & _ & ->); now exists pre|].
  split; [eapply finished_last; exact Hfin|].
  split; [eapply run_workflow_pace; exact Hrun|].
  eapply finished_status; exact Hfin.
Qed.

(** *** The validation node *)

Section Validation.
Variable env : Env.

Lemma Qgeb_le a b : Qgeb a b = true <-> (b <= a)%Q.
Proof. unfold Qgeb. apply Qle_bool_iff. Qed.

Lemma Qltb_lt a b : Qltb a b = true <-> (a < b)%Q.
Proof.
  unfold Qltb. rewrite negb_true_iff. split.
  - intros H. apply Qnot_le_lt. intros Hle. apply Qle_bool_iff in Hle. congruence.
  - intros H. destruct (Qle_bool b a) eqn:E; [|reflexivity].
    apply Qle_bool_iff in E. exfalso. eapply Qlt_not_le; eauto.
Qed.

Lemma Qltb_ge a b : Qltb a b = false <-> (b <= a)%Q.
Proof.
  unfold Qltb. rewrite negb_false_iff. apply Qle_bool_iff.
Qed.

Lemma validate_response_unfold s :
  _validate_response_node env s
  = if negb (truthy (default "" (final_content s)))
       || startswith (default "" (final_content s)) "Error:"
    then set_confidence_score 0
           (set_validation_feedback (Some "Response generation failed or returned error")
              (validating s))
    else
      match call_validate_response_quality env (default "" (final_content s))
              (message (request s)) (validating s) with
      | Ok validation_result =>
          let confidence := v_confidence validation_result in
          if Qgeb confidence 0.75
          then set_is_validated true (set_confidence_score confidence (validating s))
          else
            set_validation_feedback
              (Some (default ("Confidence too low: " +:+ format_2f env confidence)
                             (feedback validation_result)))
              (set_is_validated false (set_confidence_score confidence (validating s)))
      | Raise e =>
          set_is_validated true
            (set_confidence_score 0.5 (push_error ("Validation error: " +:+ e) (validating s)))
      end.
Proof. reflexivity. Qed.

(** The three ways through [_validate_response_node]. *)
Lemma validate_response_cases s :
  let s' := _validate_response_node env s in
  (usable (final_content s) = false
   /\ confidence_score s' = 0%Q
   /\ is_validated s' = is_validated s
   /\ validation_feedback s' = Some "Response generation failed or returned error"
   /\ errors s' = errors s)
  \/ (exists vr,
        usable (final_content s) = true
        /\ call_validate_response_quality env (default "" (final_content s))
             (message (request s)) (validating s) = Ok vr
        /\ confidence_score s' = v_confidence vr
        /\ is_validated s' = Qgeb (v_confidence vr) 0.75
        /\ errors s' = errors s)
  \/ (exists e,
        usable (final_content s) = true
        /\ call_validate_response_quality env (default "" (final_content s))
             (message (request s)) (validating s) = Raise e
        /\ confidence_score s' = 0.5%Q
        /\ is_validated s' = true
        /\ errors s' = errors s ++ ["Validation error: " +:+ e]).
Proof.
  cbv zeta. rewrite validate_response_unfold. unfold usable.
  destruct (truthy (default "" (final_content s))); cbn [negb orb andb].
  2:{ left. repeat split; reflexivity. }
  destruct (startswith (default "" (final_content s)) "Error:"); cbn [negb].
  { left. repeat split; reflexivity. }
  destruct (call_validate_response_quality env _ _ (validating s)) as [vr|e].
  - right; left. exists vr.
    destruct (Qgeb (v_confidence vr) 0.75) eqn:E; repeat split; reflexivity.
  - right; right. exists e. repeat split; reflexivity.
Qed.

Lemma quality_raises_iff response msg s e :
  call_validate_response_quality env response msg s = Raise e
  <-> quality_fault env (validation_attempts s) = Some e.
Proof.
  unfold call_validate_response_quality.
  destruct (quality_fault env (validation_attempts s)) as [e'|].
  - split; intros [= ->]; reflexivity.
  - split; discriminate.
Qed.

(** The call returns what the method of this class returns. *)
Lemma quality_returns response msg s :
  quality_fault env (validation_attempts s) = None ->
  call_validate_response_quality env response msg s
  = Ok (_validate_response_quality env response msg s).
Proof. intros H. unfold call_validate_response_quality. now rewrite H. Qed.

Lemma quality_returned response msg s vr :
  call_validate_response_quality env response msg s = Ok vr ->
  quality_fault env (validation_attempts s) = None
  /\ vr = _validate_response_quality env response msg s.
Proof.
  unfold call_validate_response_quality.
  destruct (quality_fault env (validation_attempts s)); [discriminate|].
  intros [= <-]. split; reflexivity.
Qed.

(** A confidence of 0.75 or more is an accepted response. *)
Lemma validate_response_accepts s :
  (0.75 <= confidence_score (_validate_response_node env s))%Q ->
  is_validated (_validate_response_node env s) = true.
Proof.
  intros Hc.
  destruct (validate_response_cases s) as [(_ & Hz & _)|[(vr & _ & _ & Hv & Hi & _)|(e & _ & _ & Hh & _)]];
    cbv zeta in *.
  - rewrite Hz in Hc. exfalso. revert Hc. apply Qlt_not_le. reflexivity.
  - rewrite Hi. apply Qgeb_le. now rewrite <- Hv.
  - rewrite Hh in Hc. exfalso. revert Hc. apply Qlt_not_le. reflexivity.
Qed.

(** Below 0.75, and the call of the validator (where there is one) not
    raising, the response stays unaccepted. *)
Lemma validate_response_rejects s :
  (usable (final_content s) = true ->
   quality_fault env (validation_attempts s + 1) = None) ->
  is_validated s = false ->
  (confidence_score (_validate_response_node env s) < 0.75)%Q ->
  is_validated (_validate_response_node env s) = false.
Proof.
  intros Hq Hv Hc.
  destruct (validate_response_cases s) as [(_ & _ & Hi & _)|[(vr & _ & _ & Hcv & Hi & _)|(e & Hu & Hr & _)]];
    cbv zeta in *.
  - congruence.
  - rewrite Hi. rewrite Hcv in Hc. destruct (Qgeb _ _) eqn:E; [|reflexivity].
    apply Qgeb_le in E. exfalso. eapply Qlt_not_le; eauto.
  - apply quality_raises_iff in Hr. cbn in Hr. rewrite Hq in Hr; [discriminate|assumption].
Qed.
End Validation.

(** *** The confidence gate *)

Section Gate.
Variable env : Env.

(** The state the validation node receives in a round. *)
Lemma before_validation_control s :
  same_control s (_call_provider_node env (_build_messages_node env s)).
Proof.
  eapply same_control_trans; [apply build_messages_control|apply call_provider_control].
Qed.

Lemma attempt_eq s :
  attempt env s
  = _validate_response_node env (_call_provider_node env (_build_messages_node env s)).
Proof. reflexivity. Qed.

Lemma attempt_max s : max_validation_runs (attempt env s) = max_validation_runs s.
Proof.
  rewrite attempt_eq.
  destruct (validate_response_frame env (_call_provider_node env (_build_messages_node env s)))
    as (-> & _).
  now destruct (before_validation_control s) as (_ & -> & _).
Qed.

(** What the drivers do with the two answers of the router. *)
Lemma driver_finalize fuel s :
  fst (_route_after_validation (attempt env s)) = "finalize" ->
  retry_loop env (S fuel) s = Some (snd (_route_after_validation (attempt env s)))
  /\ edge VALIDATE_RESPONSE (attempt env s)
     = (Ok (Goto FINALIZE), graph_routed (attempt env s)).
Proof.
  intros H. split; [now apply retry_loop_finalize|].
  rewrite edge_validate_response, H. reflexivity.
Qed.

Lemma driver_retry fuel s :
  fst (_route_after_validation (attempt env s)) = "retry" ->
  snd (_route_after_validation (attempt env s)) = attempt env s ->
  retry_loop env (S fuel) s = retry_loop env fuel (attempt env s)
  /\ edge VALIDATE_RESPONSE (attempt env s) = (Ok (Goto BUILD_MESSAGES), attempt env s).
Proof.
  intros H Hs. split.
  - rewrite (retry_loop_retry env fuel s H), Hs. reflexivity.
  - rewrite edge_validate_response, H, (graph_routed_retry _ Hs). reflexivity.
Qed.

Lemma attempt_accepted s :
  (0.75 <= confidence_score (attempt env s))%Q ->
  fst (_route_after_validation (attempt env s)) = "finalize".
Proof.
  rewrite attempt_eq. intros Hc. apply validate_response_accepts in Hc.
  destruct (route_after_validation_cases
              (_validate_response_node env
                 (_call_provider_node env (_build_messages_node env s))))
    as [[Hr _]|(_ & _ & Hv & _)]; [exact Hr|congruence].
Qed.

Lemma attempt_rejected s :
  (confidence_score (attempt env s) < 0.75)%Q ->
  is_validated s = false ->
  (usable (final_content (_call_provider_node env (_build_messages_node env s))) = true ->
   quality_fault env (validation_attempts s + 1) = None) ->
  is_validated (attempt env s) = false.
Proof.
  rewrite attempt_eq. intros Hc Hv Hq.
  destruct (before_validation_control s) as (Ha & _ & Hi & _).
  apply validate_response_rejects; [now rewrite Ha|congruence|exact Hc].
Qed.

Lemma attempt_fault s e :
  quality_fault env (validation_attempts s + 1) = Some e ->
  usable (final_content (_call_provider_node env (_build_messages_node env s))) = true ->
  confidence_score (attempt env s) = 0.5%Q
  /\ is_validated (attempt env s) = true
  /\ errors (attempt env s)
     = errors (_call_provider_node env (_build_messages_node env s))
       ++ ["Validation error: " +:+ e].
Proof.
  intros Hq Hu. rewrite attempt_eq.
  destruct (before_validation_control s) as (Ha & _).
  destruct (validate_response_cases env (_call_provider_node env (_build_messages_node env s)))
    as [(Hn & _)|[(vr & _ & Hok & _)|(e' & _ & Hr & Hc & Hi & He)]]; cbv zeta in *.
  - congruence.
  - assert (call_validate_response_quality env
              (default "" (final_content (_call_provider_node env (_build_messages_node env s))))
              (message (request (_call_provider_node env (_build_messages_node env s))))
              (validating (_call_provider_node env (_build_messages_node env s)))
            = Raise e) as Hraise.
    { apply quality_raises_iff.
      change (validation_attempts (validating ?x)) with (validation_attempts x + 1).
      now rewrite Ha. }
    congruence.
  - apply quality_raises_iff in Hr.
    change (validation_attempts (validating ?x)) with (validation_attempts x + 1) in Hr.
    rewrite Ha, Hq in Hr. injection Hr as <-. auto.
Qed.
End Gate.

(** C3. The confidence gate of one round of the retry loop, [s] being
    the state at its head, on the sequential path and on the graph.  A
    response validated with a confidence of 0.75 or more ends the loop.
    A response below 0.75 is sent back to BUILD_MESSAGES whenever
    attempts are left, and ends the loop when none is, in every round in
    which the call of the validator, if there is one, returns: so it is
    with [_validate_response_quality] as this class has it, which raises
    on no string.  The last part is the handler of the validation node,
    which only a validator put in its place reaches: on a usable response
    the confidence is then 0.5 and the loop ends. *)
Theorem confidence_gate (env : Env) (s : WorkflowState) (fuel : nat) :
  let s2 := _call_provider_node env (_build_messages_node env s) in
  let s3 := attempt env s in
  let r := _route_after_validation s3 in
  ((0.75 <= confidence_score s3)%Q ->
   fst r = "finalize"
   /\ retry_loop env (S fuel) s = Some (snd r)
   /\ edge VALIDATE_RESPONSE s3 = (Ok (Goto FINALIZE), graph_routed s3))
  /\ ((confidence_score s3 < 0.75)%Q ->
      is_validated s = false ->
      (usable (final_content s2) = true ->
       quality_fault env (validation_attempts s + 1) = None) ->
      (validation_attempts s3 < max_validation_runs s3 ->
       fst r = "retry"
       /\ retry_loop env (S fuel) s = retry_loop env fuel s3
       /\ edge VALIDATE_RESPONSE s3 = (Ok (Goto BUILD_MESSAGES), s3))
      /\ (max_validation_runs s3 <= validation_attempts s3 ->
          fst r = "finalize"
          /\ retry_loop env (S fuel) s = Some (snd r)
          /\ edge VALIDATE_RESPONSE s3 = (Ok (Goto FINALIZE), graph_routed s3)))
  /\ (forall e,
        quality_fault env (validation_attempts s + 1) = Some e ->
        usable (final_content s2) = true ->
        confidence_score s3 = 0.5%Q
        /\ fst r = "finalize"
        /\ retry_loop env (S fuel) s = Some (snd r)
        /\ edge VALIDATE_RESPONSE s3 = (Ok (Goto FINALIZE), graph_routed s3)).
Proof.
  cbv zeta. split; [|split].
  - intros Hc. pose proof (attempt_accepted env s Hc) as Hr.
    split; [exact Hr|]. now apply driver_finalize.
  - intros Hc Hv Hq.
    pose proof (attempt_rejected env s Hc Hv Hq) as Hi.
    destruct (route_after_validation_cases (attempt env s))
      as [[Hr [Ht|Hm]]|(Hr & Hs & _ & Hlt)].
    + congruence.
    + split; [lia|]. intros _. split; [exact Hr|]. now apply driver_finalize.
    + split; [|lia]. intros _. split; [exact Hr|]. now apply driver_retry.
  - intros e Hq Hu. destruct (attempt_fault env s e Hq Hu) as (Hc & Hi & _).
    split; [exact Hc|].
    assert (fst (_route_after_validation (attempt env s)) = "finalize") as Hr.
    { destruct (route_after_validation_cases (attempt env s)) as [[Hr _]|(_ & _ & Hv & _)];
        [exact Hr|congruence]. }
    split; [exact Hr|]. now apply driver_finalize.
Qed.

(** C3, witness: in the world of five-character answers the first
    response (confidence 0.1) is retried; in the good world the first
    response (confidence 0.78) ends the loop. *)
Lemma confidence_gate_witness :
  fst (_route_after_validation
         (attempt terse_world (initial_state terse_world (plan_of plain_specs) hello)))
  = "retry"
  /\ fst (_route_after_validation
            (attempt good_world (initial_state good_world (plan_of plain_specs) hello)))
     = "finalize".
Proof.
  split.
  - refine (proj1 (proj1 (proj1 (proj2 (confidence_gate terse_world
              (initial_state terse_world (plan_of plain_specs) hello) 0)) _ _ _) _)).
    + vm_compute. reflexivity.
    + reflexivity.
    + intros _. reflexivity.
    + vm_compute. lia.
  - refine (proj1 (proj1 (confidence_gate good_world
              (initial_state good_world (plan_of plain_specs) hello) 0) _)).
    vm_compute. discriminate.
Defined.

Section Outcome.
Variable env : Env.

Lemma determine_outcome_success final_state :
  result_success (determine_outcome env final_state)
  = has_valid_content (reported_content final_state)
    && (llm_success final_state || status_completed (status final_state)).
Proof.
  unfold determine_outcome. cbn [result_success].
  destruct (has_valid_content _), (llm_success _), (status_completed _); reflexivity.
Qed.
End Outcome.

(** C4 (as the code has it). For the final state of a run, the success
    flag of the result is true exactly when the reported content is
    valid (not empty, not the placeholder, not starting with the error
    marker) and the provider reported success or the status is a
    completed one.  The status of a run that ended is always a completed
    one, so there the flag is the validity of the content, whatever the
    provider reported. *)
Theorem success_flag (env : Env) (langgraph : bool) (fuel : nat)
    (plan : ExecutionPlan) (req : BrainRequest) (final : WorkflowState) :
  run_workflow env (_build_graph langgraph) fuel plan req = Some final ->
  let r := determine_outcome env final in
  (result_success r = true
   <-> has_valid_content (result_content r) = true
       /\ (llm_success final = true \/ status_completed (result_status r) = true))
  /\ status_completed (result_status r) = true
  /\ result_success r = has_valid_content (result_content r).
Proof.
  intros Hrun r.
  assert (status_completed (status final) = true) as Hs
    by (eapply finished_status, run_workflow_finished; exact Hrun).
  subst r. rewrite determine_outcome_success.
  change (result_content (determine_outcome env final)) with (reported_content final).
  change (result_status (determine_outcome env final)) with (status final).
  rewrite Hs, orb_true_r, andb_true_r. tauto.
Qed.

Lemma success_flag_witness :
  exists final,
    run_workflow good_world (_build_graph true) 0 (plan_of plain_specs) hello = Some final
    /\ result_success (determine_outcome good_world final)
       = has_valid_content (result_content (determine_outcome good_world final)).
Proof.
  eexists. split; [vm_compute; reflexivity|].
  refine (proj2 (proj2 (success_flag good_world true 0 (plan_of plain_specs) hello _ _))).
  vm_compute. reflexivity.
Defined.

(** C4, as stated, fails: the provider reports a failure on every call,
    FINALIZE puts the fallback message in, and the result is flagged a
    success although no provider call succeeded. *)
Lemma success_flag_counterexample :
  exists final,
    run_workflow failing_world sequential_engine 5 (plan_of plain_specs) hello = Some final
    /\ result_success (determine_outcome failing_world final) = true
    /\ llm_success final = false.
Proof.
  eexists. split; [vm_compute; reflexivity|]. split; vm_compute; reflexivity.
Qed.

(** *** FINALIZE *)

Section Finalize.
Variable env : Env.

Lemma finalize_unfold s :
  _finalize_node env s
  = set_end_time (Some (clock_end env))
      (if Qltb (confidence_score s) 0.75
       then
         set_status "completed_with_errors"
           (push_error (low_confidence_error env (confidence_score s))
              (set_final_content (Some (nth 0 fallback_messages ""))
                 (push_step "finalize" s)))
       else
         set_status (match errors s with [] => "completed" | _ => "completed_with_errors" end)
           (push_step "finalize" s)).
Proof.
  unfold _finalize_node, low_confidence_error.
  change (confidence_score (push_step "finalize" s)) with (confidence_score s).
  destruct (Qltb (confidence_score s) 0.75); [|reflexivity].
  cbn. destruct (errors s); reflexivity.
Qed.

(** What FINALIZE does to a state. *)
Lemma finalize_contract s :
  let s' := _finalize_node env s in
  confidence_score s' = confidence_score s
  /\ end_time s' = Some (clock_end env)
  /\ ((confidence_score s < 0.75)%Q ->
      final_content s' = Some (nth 0 fallback_messages "")
      /\ errors s' = errors s ++ [low_confidence_error env (confidence_score s)])
  /\ ((0.75 <= confidence_score s)%Q ->
      final_content s' = final_content s /\ errors s' = errors s)
  /\ (status s' = "completed" <-> errors s' = [])
  /\ (status s' = "completed_with_errors" <-> errors s' <> []).
Proof.
  cbv zeta. rewrite finalize_unfold.
  destruct (Qltb (confidence_score s) 0.75) eqn:E.
  - apply Qltb_lt in E. cbn.
    split; [reflexivity|]. split; [reflexivity|]. split; [auto|].
    split; [intros H; exfalso; eapply Qlt_not_le; eauto|].
    split; split.
    + discriminate.
    + intros H. destruct (errors s); discriminate.
    + intros _ H. destruct (errors s); discriminate.
    + reflexivity.
  - apply Qltb_ge in E. cbn.
    split; [reflexivity|]. split; [reflexivity|].
    split; [intros H; exfalso; eapply Qlt_not_le; eauto|]. split; [auto|].
    destruct (errors s); split; split; congruence.
Qed.
End Finalize.

(** C5. FINALIZE runs exactly once in a run that ends: the final state
    is what [_finalize_node] makes of a state [pre] in which it had not
    run.  Below a confidence of 0.75 the node puts the first of the
    fixed fallback messages in [final_content] and appends the error
    entry that documents it; otherwise it leaves content and errors as
    they are.  The status is "completed" exactly when the error list is
    empty and "completed_with_errors" exactly when it is not, and
    [end_time] is set in both cases. *)
Theorem finalize_once (env : Env) (langgraph : bool) (fuel : nat)
    (plan : ExecutionPlan) (req : BrainRequest) (final : WorkflowState) :
  run_workflow env (_build_graph langgraph) fuel plan req = Some final ->
  invocations "finalize" final = 1
  /\ exists pre,
       final = _finalize_node env pre
       /\ invocations "finalize" pre = 0
       /\ confidence_score final = confidence_score pre
       /\ ((confidence_score pre < 0.75)%Q ->
           final_content final = Some (nth 0 fallback_messages "")
           /\ In (nth 0 fallback_messages "") fallback_messages
           /\ errors final
              = errors pre ++ [low_confidence_error env (confidence_score pre)])
       /\ ((0.75 <= confidence_score pre)%Q ->
           final_content final = final_content pre /\ errors final = errors pre)
       /\ (status final = "completed" <-> errors final = [])
       /\ (status final = "completed_with_errors" <-> errors final <> [])
       /\ end_time final = Some (clock_end env).
Proof.
  intros Hrun. apply run_workflow_finished in Hrun.
  split; [eapply finished_once; exact Hrun|].
  destruct Hrun as (pre & (_ & _ & _ & Hf) & ->). exists pre.
  destruct (finalize_contract env pre) as (Hc & He & Hlow & Hhigh & Hs1 & Hs2).
  cbv zeta in *.
  split; [reflexivity|]. split; [exact Hf|]. split; [exact Hc|].
  split; [|split; [exact Hhigh|split; [exact Hs1|split; [exact Hs2|exact He]]]].
  intros Hlt. destruct (Hlow Hlt) as [H1 H2].
  split; [exact H1|]. split; [left; reflexivity|exact H2].
Qed.

Lemma finalize_once_witness :
  exists final,
    run_workflow terse_world sequential_engine 5 (plan_of plain_specs) hello = Some final
    /\ invocations "finalize" final = 1.
Proof.
  eexists. split; [vm_compute; reflexivity|].
  refine (proj1 (finalize_once terse_world false 5 (plan_of plain_specs) hello _ _)).
  vm_compute. reflexivity.
Defined.

(** *** Runs that end after their first round *)

Section FirstRound.
Variable env : Env.

Lemma ainvoke_from_step limit n s :
  ainvoke_from env (S limit) n s
  = match fst (edge n (node_function env n s)) with
    | Ok END => Ok (snd (edge n (node_function env n s)))
    | Ok (Goto n') => ainvoke_from env limit n' (snd (edge n (node_function env n s)))
    | Raise e => Raise e
    end.
Proof.
  cbn [ainvoke_from]. destruct (edge n (node_function env n s)) as [[[n'|]|e] s2]; reflexivity.
Qed.

(** The graph reaches BUILD_MESSAGES within three nodes, with the
    control fields of the state it started from. *)
Lemma ainvoke_prologue s :
  exists k s_h,
    k <= 3 /\ same_control s s_h
    /\ (forall m, loop_head m s -> loop_head m s_h)
    /\ forall limit,
         ainvoke_from env (k + limit) INITIALIZE s
         = ainvoke_from env limit BUILD_MESSAGES s_h.
Proof.
  pose proof (initialize_control s) as C1.
  pose proof (query_data_sources_control env (_initialize_node s)) as C2.
  assert (forall x limit, ainvoke_from env (S limit) EXECUTE_TOOLS x
                          = ainvoke_from env limit BUILD_MESSAGES (_execute_tools_node env x))
    as Ht by (intros; now rewrite ainvoke_from_step).
  assert (forall x, exists k s_h, k <= 2 /\ same_control x s_h
            /\ (forall m, loop_head m x -> loop_head m s_h)
            /\ forall limit, ainvoke_from env (k + limit) QUERY_DATA_SOURCES x
                             = ainvoke_from env limit BUILD_MESSAGES s_h) as Hq.
  { intros x.
    destruct (edge_query_data_sources (_query_data_sources_node env x)) as (n' & He & [->| ->]).
    - exists 2, (_execute_tools_node env (_query_data_sources_node env x)).
      split; [lia|]. split; [|split].
      + eapply same_control_trans;
          [apply query_data_sources_control|apply execute_tools_control].
      + intros m Hm. now apply loop_head_execute_tools, loop_head_query_data_sources.
      + intros limit. cbn [Nat.add]. rewrite ainvoke_from_step.
        cbn [node_function]. rewrite He. cbn [fst snd]. apply Ht.
    - exists 1, (_query_data_sources_node env x).
      split; [lia|]. split; [apply query_data_sources_control|].
      split; [intros m Hm; now apply loop_head_query_data_sources|].
      intros limit. cbn [Nat.add]. rewrite ainvoke_from_step.
      cbn [node_function]. rewrite He. reflexivity. }
  destruct (edge_initialize (_initialize_node s)) as (n' & He & [->| [->| ->]]).
  - destruct (Hq (_initialize_node s)) as (k & s_h & Hk & Hc & Hl & Hrun).
    exists (S k), s_h. split; [lia|]. split; [eapply same_control_trans; [exact C1|exact Hc]|].
    split; [intros m Hm; now apply Hl, loop_head_initialize|].
    intros limit. cbn [Nat.add]. rewrite ainvoke_from_step.
    cbn [node_function]. rewrite He. cbn [fst snd]. apply Hrun.
  - exists 2, (_execute_tools_node env (_initialize_node s)).
    split; [lia|]. split; [|split].
    + eapply same_control_trans; [exact C1|apply execute_tools_control].
    + intros m Hm. now apply loop_head_execute_tools, loop_head_initialize.
    + intros limit. cbn [Nat.add]. rewrite ainvoke_from_step.
      cbn [node_function]. rewrite He. cbn [fst snd]. apply Ht.
  - exists 1, (_initialize_node s). split; [lia|]. split; [exact C1|].
    split; [intros m Hm; now apply loop_head_initialize|].
    intros limit. cbn [Nat.add]. rewrite ainvoke_from_step.
    cbn [node_function]. rewrite He. reflexivity.
Qed.

Lemma ainvoke_build limit s :
  ainvoke_from env (S limit) BUILD_MESSAGES s
  = ainvoke_from env limit CALL_PROVIDER (_build_messages_node env s).
Proof. now rewrite ainvoke_from_step. Qed.

Lemma ainvoke_call limit s :
  ainvoke_from env (S limit) CALL_PROVIDER s
  = ainvoke_from env limit VALIDATE_RESPONSE (_call_provider_node env s).
Proof. now rewrite ainvoke_from_step. Qed.

Lemma ainvoke_validate_finalize limit s :
  fst (_route_after_validation (_validate_response_node env s)) = "finalize" ->
  ainvoke_from env (S limit) VALIDATE_RESPONSE s
  = ainvoke_from env limit FINALIZE (graph_routed (_validate_response_node env s)).
Proof.
  intros Hr. rewrite ainvoke_from_step. cbn [node_function].
  rewrite edge_validate_response, Hr. reflexivity.
Qed.

Lemma ainvoke_finalize limit s :
  ainvoke_from env (S limit) FINALIZE s = Ok (_finalize_node env s).
Proof. now rewrite ainvoke_from_step. Qed.

(** A round that ends with the route to FINALIZE, on the graph. *)
Lemma ainvoke_last_round limit s :
  fst (_route_after_validation (attempt env s)) = "finalize" ->
  ainvoke_from env (4 + limit) BUILD_MESSAGES s
  = Ok (_finalize_node env (graph_routed (attempt env s))).
Proof.
  rewrite attempt_eq. intros Hr.
  change (4 + limit) with (S (S (S (S limit)))).
  rewrite ainvoke_build, ainvoke_call, (ainvoke_validate_finalize _ _ Hr).
  apply ainvoke_finalize.
Qed.

(** When the first round of a run ends the loop, the run is that round
    followed by FINALIZE; the sequential loop needs one round for it. *)
Lemma run_single_round langgraph fuel plan req :
  langgraph = true \/ 1 <= fuel ->
  exists s_h,
    same_control (initial_state env plan req) s_h
    /\ loop_head 5 s_h
    /\ (fst (_route_after_validation (attempt env s_h)) = "finalize" ->
        run_workflow env (_build_graph langgraph) fuel plan req
        = Some (_finalize_node env
                  (if langgraph then graph_routed (attempt env s_h)
                   else snd (_route_after_validation (attempt env s_h))))).
Proof.
  intros Hfuel. unfold run_workflow. destruct langgraph; cbn [_build_graph graph].
  - destruct (ainvoke_prologue (initial_state env plan req))
      as (k & s_h & Hk & Hc & Hl & Hrun).
    exists s_h. split; [exact Hc|]. split; [apply Hl, initial_loop_head|]. intros Hr.
    unfold _execute_graph, ainvoke. cbn [recursion_limit].
    replace 25 with (k + (4 + (21 - k))) by lia.
    rewrite Hrun, (ainvoke_last_round _ _ Hr). reflexivity.
  - exists (sequential_prologue env (initial_state env plan req)).
    split; [|split].
    + unfold sequential_prologue. cbv zeta.
      eapply same_control_trans; [apply initialize_control|].
      eapply same_control_trans;
        [|destruct (tools _); [apply same_control_refl|apply execute_tools_control]].
      destruct (data_sources _); [apply same_control_refl|apply query_data_sources_control].
    + apply sequential_prologue_head, initial_loop_head.
    + intros Hr. rewrite sequential_unfold.
      destruct Hfuel as [Hfuel|Hfuel]; [discriminate|].
      destruct fuel as [|fuel]; [lia|].
      rewrite (retry_loop_finalize env fuel _ Hr). reflexivity.
Qed.

(** The provider answers: what CALL_PROVIDER stores. *)
Lemma call_provider_answer s p r c :
  provider (specs s) = Some p ->
  create_provider env (validation_attempts s) p = Ok tt ->
  provider_initialize env (validation_attempts s) = Ok true ->
  generate_response env (validation_attempts s) (messages s) p = Ok r ->
  provider_close env (validation_attempts s) = Ok tt ->
  success r = true ->
  response_content r = Some c ->
  final_content (_call_provider_node env s) = Some c
  /\ llm_response (_call_provider_node env s) = Some r
  /\ errors (_call_provider_node env s) = errors s.
Proof.
  intros Hp Hc Hi Hg Hcl Hs Hrc. unfold _call_provider_node.
  change (specs (push_step "call_provider" s)) with (specs s).
  change (validation_attempts (push_step "call_provider" s)) with (validation_attempts s).
  change (messages (push_step "call_provider" s)) with (messages s).
  rewrite Hp, Hc, Hi, Hg, Hs, Hcl, Hrc. cbn. auto.
Qed.

Lemma route_after_validation_accepted s :
  is_validated s = true ->
  fst (_route_after_validation s) = "finalize" /\ snd (_route_after_validation s) = s.
Proof. intros H. unfold _route_after_validation. rewrite H. split; reflexivity. Qed.

Lemma calls_eq (s : WorkflowState) : calls s = invocations "call_provider" s.
Proof. reflexivity. Qed.

Lemma calls_finalize s :
  invocations "call_provider" (_finalize_node env s) = invocations "call_provider" s.
Proof.
  unfold invocations. rewrite finalize_steps, count_steps_app.
  change (count_steps "call_provider" ["finalize"]) with 0. lia.
Qed.
End FirstRound.

Section FaultRound.
Variable env : Env.

(** The round in which the provider answers and the validator raises. *)
Lemma fault_round s p r c e :
  loop_head 5 s ->
  validation_attempts s = 0 ->
  provider (specs s) = Some p ->
  create_provider env 0 p = Ok tt ->
  provider_initialize env 0 = Ok true ->
  (forall msgs, generate_response env 0 msgs p = Ok r) ->
  provider_close env 0 = Ok tt ->
  success r = true ->
  response_content r = Some c ->
  usable (Some c) = true ->
  quality_fault env 1 = Some e ->
  confidence_score (attempt env s) = 0.5%Q
  /\ is_validated (attempt env s) = true
  /\ validation_attempts (attempt env s) = 1
  /\ invocations "call_provider" (attempt env s) = 1
  /\ (exists errs, errors (attempt env s) = errs ++ ["Validation error: " +:+ e])
  /\ fst (_route_after_validation (attempt env s)) = "finalize"
  /\ snd (_route_after_validation (attempt env s)) = attempt env s.
Proof.
  intros Hhead Ha Hp Hcr Hin Hgen Hcl Hsucc Hcont Huse Hq.
  destruct (build_messages_control env s) as (Hba & _ & _ & Hbs & _).
  destruct (call_provider_answer env (_build_messages_node env s) p r c)
    as (Hfc & _ & _); rewrite ?Hba, ?Hbs, ?Ha; auto.
  destruct (attempt_fault env s e) as (Hconf & Hval & Herr).
  { now rewrite Ha. }
  { now rewrite Hfc. }
  destruct (route_after_validation_accepted (attempt env s) Hval) as [Hrf Hrs].
  pose proof (attempt_attempts env s) as Hatt. rewrite Ha in Hatt.
  destruct (route_after_attempt env 5 s Hhead) as [[_ Hready]|(Hr & _)];
    [|rewrite Hrf in Hr; discriminate].
  rewrite Hrs in Hready. destruct Hready as (_ & Hcalls & _).
  split; [exact Hconf|]. split; [exact Hval|]. split; [exact Hatt|].
  split; [rewrite <- calls_eq, Hcalls; exact Hatt|].
  split; [eexists; exact Herr|]. split; [exact Hrf|exact Hrs].
Qed.

(** FINALIZE on a state of confidence 0.5. *)
Lemma finalize_neutral s :
  confidence_score s = 0.5%Q ->
  confidence_score (_finalize_node env s) = 0.5%Q
  /\ final_content (_finalize_node env s) = Some (nth 0 fallback_messages "")
  /\ errors (_finalize_node env s) = errors s ++ [low_confidence_error env 0.5].
Proof.
  intros Hc. rewrite finalize_unfold, Hc.
  change (Qltb 0.5 0.75) with true. cbv iota. split; [exact Hc|]. split; reflexivity.
Qed.
End FaultRound.

(** C10. When, on the first attempt, the provider has produced a usable
    response and the call of the validator then raises, the run ends, on
    the graph and after the first round of the sequential loop: the
    validation node stores a confidence of 0.5 with [is_validated] true,
    no second attempt is made, and FINALIZE, 0.5 being below 0.75,
    replaces the response by the first fallback message and appends its
    error entry after the one of the validation: the result handed back
    carries the fallback message, not what the provider wrote. *)
Theorem validator_fault_discards_output (env : Env) (langgraph : bool) (fuel : nat)
    (plan : ExecutionPlan) (req : BrainRequest)
    (p : ProviderSpec) (r : LLMResponse) (c e : string) :
  langgraph = true \/ 1 <= fuel ->
  provider (optimized_specs plan) = Some p ->
  create_provider env 0 p = Ok tt ->
  provider_initialize env 0 = Ok true ->
  (forall msgs, generate_response env 0 msgs p = Ok r) ->
  provider_close env 0 = Ok tt ->
  success r = true ->
  response_content r = Some c ->
  usable (Some c) = true ->
  quality_fault env 1 = Some e ->
  exists final,
    run_workflow env (_build_graph langgraph) fuel plan req = Some final
    /\ confidence_score final = 0.5%Q
    /\ is_validated final = true
    /\ validation_attempts final = 1
    /\ invocations "call_provider" final = 1
    /\ final_content final = Some (nth 0 fallback_messages "")
    /\ (exists errs,
          errors final
          = errs ++ ["Validation error: " +:+ e; low_confidence_error env 0.5])
    /\ result_content (determine_outcome env final) = nth 0 fallback_messages ""
    /\ result_confidence (determine_outcome env final) = 0.5%Q.
Proof.
  intros Hfuel Hp Hcr Hin Hgen Hcl Hsucc Hcont Huse Hq.
  destruct (run_single_round env langgraph fuel plan req Hfuel)
    as (s_h & (Ha & _ & _ & Hsp & _) & Hhead & Hfinal).
  destruct (fault_round env s_h p r c e)
    as (Hconf & Hval & Hatt & Hcalls & Herr & Hrf & Hrs); auto; [now rewrite Hsp|].
  specialize (Hfinal Hrf).
  assert ((if langgraph then graph_routed (attempt env s_h)
           else snd (_route_after_validation (attempt env s_h))) = attempt env s_h) as Hst.
  { destruct langgraph; [now apply graph_routed_retry|exact Hrs]. }
  rewrite Hst in Hfinal.
  exists (_finalize_node env (attempt env s_h)). split; [exact Hfinal|].
  destruct (finalize_neutral env _ Hconf) as (Hc & Hfb & Herrs).
  destruct (finalize_control env (attempt env s_h)) as (Hfa & _ & Hfv & _).
  split; [exact Hc|]. split; [now rewrite Hfv|]. split; [now rewrite Hfa|].
  split; [now rewrite calls_finalize|].
  split; [exact Hfb|].
  split.
  { destruct Herr as (errs & Herr). exists errs.
    rewrite Herrs, Herr, <- app_assoc. reflexivity. }
  split.
  - unfold determine_outcome, reported_content. cbn [result_content]. now rewrite Hfb.
  - exact Hc.
Qed.

(** C10, witness: the good world with a validator that raises on the
    first validation, on the sequential path with fuel for one round. *)
Lemma validator_fault_discards_output_witness :
  exists final,
    run_workflow (with_quality_fault 1 "boom" good_world) sequential_engine 1
      (plan_of plain_specs) hello = Some final
    /\ final_content final = Some (nth 0 fallback_messages "")
    /\ validation_attempts final = 1.
Proof.
  destruct (validator_fault_discards_output (with_quality_fault 1 "boom" good_world)
              false 1 (plan_of plain_specs) hello openai (reply long_answer)
              long_answer "boom")
    as (final & Hrun & _ & _ & Ha & _ & Hc & _).
  all: try (vm_compute; reflexivity).
  - right. lia.
  - exists final. split; [exact Hrun|]. split; [exact Hc|exact Ha].
Defined.

(** *** The response validator *)

Section Digits.

Lemma span_digits_all s : all_digits (fst (span_digits s)) = true.
Proof.
  induction s as [|c r IH]; [reflexivity|].
  cbn [span_digits]. destruct (isdigit c) eqn:Hc; [|reflexivity].
  destruct (span_digits r) as [d rest]. cbn [fst all_digits] in *.
  now rewrite Hc, IH.
Qed.

Lemma match_label_digits_all label s d :
  match_label_digits label s = Some d -> all_digits d = true.
Proof.
  unfold match_label_digits. destruct (String.prefix label s); [|discriminate].
  pose proof (span_digits_all
                (lstrip (String.substring (len label) (len s - len label) s))) as H.
  destruct (span_digits _) as [digits rest]. cbn [fst] in H.
  destruct (truthy digits); [|discriminate]. now intros [= <-].
Qed.

(** The regular expression captures decimal digits only. *)
Lemma search_label_digits_all label s : forall d,
  search_label_digits label s = Some d -> all_digits d = true.
Proof.
  induction s as [|c r IH]; intros d; cbn [search_label_digits];
    destruct (match_label_digits label _) as [d'|] eqn:Hm.
  - intros [= <-]. eapply match_label_digits_all; eauto.
  - discriminate.
  - intros [= <-]. eapply match_label_digits_all; eauto.
  - apply IH.
Qed.

Lemma isdigit_value c :
  isdigit c = true -> (0 <= Z.of_nat (nat_of_ascii c) - 48 <= 9)%Z.
Proof.
  unfold isdigit. cbv zeta. rewrite andb_true_iff, !Nat.leb_le. lia.
Qed.

Lemma int_of_digits_from_bound s : forall acc,
  all_digits s = true -> (0 <= acc)%Z ->
  (0 <= int_of_digits_from acc s < (acc + 1) * 10 ^ Z.of_nat (String.length s))%Z.
Proof.
  induction s as [|c r IH]; intros acc Hd Hacc.
  - cbn [int_of_digits_from String.length]. change (10 ^ Z.of_nat 0)%Z with 1%Z. lia.
  - cbn [all_digits] in Hd. apply andb_true_iff in Hd as [Hc Hr].
    apply isdigit_value in Hc.
    cbn [int_of_digits_from String.length].
    specialize (IH (10 * acc + (Z.of_nat (nat_of_ascii c) - 48))%Z Hr ltac:(lia)).
    rewrite Nat2Z.inj_succ, Z.pow_succ_r by lia.
    pose proof (Z.pow_pos_nonneg 10 (Z.of_nat (String.length r)) ltac:(lia) ltac:(lia)).
    nia.
Qed.

(** A number of [k] digits is below [10^k]. *)
Lemma int_of_digits_bound s :
  all_digits s = true ->
  (0 <= int_of_digits s < 10 ^ Z.of_nat (String.length s))%Z.
Proof.
  intros H. pose proof (int_of_digits_from_bound s 0 H ltac:(lia)) as B.
  unfold int_of_digits. lia.
Qed.

(** Up to 308 digits there is a float for the number. *)
Lemma short_score_no_overflow s :
  all_digits s = true -> String.length s <= 308 ->
  float_overflows (int_of_digits s) = false.
Proof.
  intros Hd Hl. unfold float_overflows. apply Z.leb_gt.
  destruct (int_of_digits_bound s Hd) as [_ Hlt].
  eapply Z.lt_le_trans; [exact Hlt|].
  transitivity (10 ^ 308)%Z.
  - apply Z.pow_le_mono_r; lia.
  - vm_compute. discriminate.
Qed.

Lemma short_score_int m s :
  String.length s <= 640 -> int_of_str m s = Ok (int_of_digits s).
Proof.
  intros H. unfold int_of_str. apply Nat.ltb_ge in H. now rewrite H.
Qed.
End Digits.

Section Validator.
Variable env : Env.

Lemma quality_unfold response user_message s :
  _validate_response_quality env response user_message s
  = if len (strip response) <? 10 then rejected "Response is too short" 0.1
    else if count_char " " response <? 3 then rejected "Response lacks substance" 0.2
    else if refusal response && (len response <? 100)
         then rejected "Response appears to be a refusal or error message" 0.3
         else match llm_validation env s response user_message 0.5 with
              | Ok r => r
              | Raise _ => accept_with 0.5
              end.
Proof. reflexivity. Qed.

(** The conversions of a score either both return or one raises. *)
Lemma score_converts_cases digits :
  (score_converts env digits = true
   /\ int_of_str (int_max_str_digits env) digits = Ok (int_of_digits digits)
   /\ float_overflows (int_of_digits digits) = false)
  \/ (score_converts env digits = false
      /\ exists e,
           bind (int_of_str (int_max_str_digits env) digits)
                (fun llm_score => int_div_float llm_score 100) = Raise e).
Proof.
  unfold score_converts, int_of_str, int_div_float.
  destruct (_ && _ && _); cbn [bind].
  - right. split; [reflexivity|]. eexists. reflexivity.
  - destruct (float_overflows (int_of_digits digits)).
    + right. split; [reflexivity|]. eexists. reflexivity.
    + left. repeat split.
Qed.

Lemma short_score_converts digits :
  all_digits digits = true -> String.length digits <= 308 ->
  score_converts env digits = true.
Proof.
  intros Hd Hl. unfold score_converts.
  rewrite short_score_int by lia. cbn [bind]. unfold int_div_float.
  now rewrite (short_score_no_overflow digits Hd Hl).
Qed.

(** The grade of a text with a score line that converts. *)
Lemma grade_scored base text digits :
  search_label_digits "SCORE:" text = Some digits ->
  score_converts env digits = true ->
  let c := (base * 0.3 + Qmin (inject_Z (int_of_digits digits) / 100) 1 * 0.7)%Q in
  exists vr,
    grade env base text = Ok vr
    /\ v_confidence vr = c
    /\ is_valid vr = Qgeb c 0.75.
Proof.
  intros H Hc. cbv zeta. unfold grade. rewrite H.
  destruct (score_converts_cases digits) as [(_ & Hi & Hf)|(Hn & _)]; [|congruence].
  rewrite Hi. cbn [bind]. unfold int_div_float. rewrite Hf. cbn [bind].
  destruct (Qgeb _ 0.75); eexists; (split; [reflexivity|split; reflexivity]).
Qed.

(** A score line that does not convert: the grading raises. *)
Lemma grade_unconverted base text digits :
  search_label_digits "SCORE:" text = Some digits ->
  score_converts env digits = false ->
  exists e, grade env base text = Raise e.
Proof.
  intros H Hc. unfold grade. rewrite H.
  destruct (score_converts_cases digits) as [(Ht & _)|(_ & e & He)]; [congruence|].
  exists e. revert He. unfold int_of_str, int_div_float.
  destruct (_ && _ && _); cbn [bind]; [now intros [= <-]|].
  destruct (float_overflows (int_of_digits digits)); cbn [bind]; [now intros [= <-]|].
  discriminate.
Qed.

Lemma grade_unscored base text :
  search_label_digits "SCORE:" text = None ->
  grade env base text
  = Ok (if score_keyword text then accept_with 0.75
        else {| is_valid := false; feedback := Some text; v_confidence := 0.5;
                reasoning := None |}).
Proof.
  intros H. unfold grade, score_keyword. rewrite H.
  destruct (_ || _); reflexivity.
Qed.

(** The model-graded stage when every call of the grading provider
    returns. *)
Lemma llm_validation_graded s response user_message base p g :
  provider (specs s) = Some p ->
  grader_create env (validation_attempts s) p = Ok tt ->
  grader_initialize env (validation_attempts s) = Ok true ->
  grader_generate env (validation_attempts s) (validation_prompt user_message response)
  = Ok g ->
  grader_close env (validation_attempts s) = Ok tt ->
  llm_validation env s response user_message base
  = grade env base (strip (default "" (response_content g))).
Proof.
  intros Hp Hc Hi Hg Hcl. unfold llm_validation. rewrite Hp, Hc. cbn [bind].
  rewrite Hi. cbn [bind negb]. rewrite Hg, Hcl. reflexivity.
Qed.

(** Without a provider, with a provider that does not initialise, or
    when a call of the grading provider raises, the stage keeps the base
    confidence and accepts. *)
Lemma llm_validation_skipped s response user_message base :
  (provider (specs s) = None
   \/ (exists p, provider (specs s) = Some p
                 /\ ((exists e, grader_create env (validation_attempts s) p = Raise e)
                     \/ (exists e, grader_initialize env (validation_attempts s) = Raise e)
                     \/ grader_initialize env (validation_attempts s) = Ok false
                     \/ (exists e, grader_close env (validation_attempts s) = Raise e)
                     \/ (exists e, grader_generate env (validation_attempts s)
                                     (validation_prompt user_message response) = Raise e)))) ->
  match llm_validation env s response user_message base with
  | Ok r => r
  | Raise _ => accept_with base
  end = accept_with base.
Proof.
  unfold llm_validation.
  intros [->|(p & -> & H)]; [reflexivity|].
  destruct (grader_create env (validation_attempts s) p) as [[]|e0] eqn:Hc; cbn [bind];
    [|reflexivity].
  destruct (grader_initialize env (validation_attempts s)) as [[|]|e1] eqn:Hi; cbn [bind negb];
    [|reflexivity|reflexivity].
  destruct (grader_close env (validation_attempts s)) as [[]|e2] eqn:Hcl; cbn [finally];
    [|reflexivity].
  destruct (grader_generate env (validation_attempts s) _) as [g|e3] eqn:Hg; cbn [bind];
    [|reflexivity].
  destruct H as [(e & H)|[(e & H)|[H|[(e & H)|(e & H)]]]]; discriminate.
Qed.
End Validator.

(** C6 (as the code has it). The staged checks of the validator, which
    returns on every response.  A response whose stripped length is below
    10 gets confidence 0.1; else one with fewer than 3 space characters
    gets 0.2; else one containing a refusal pattern and shorter than 100
    characters gets 0.3; all three invalid.  Otherwise the base is 0.5,
    kept (and accepted) when there is no provider.  When the grading
    call returns a text with a score line, and the digits of the score
    convert to an integer and to a float, as those of every score of up
    to 308 digits do, the confidence is 0.3 times the base plus 0.7
    times the score over 100, the latter capped at 1, valid from 0.75
    on; a score that does not convert leaves the base 0.5, accepted.
    Without a score line the confidence is 0.75 on a keyword
    "acceptable" or "good" and else 0.5 with the text as feedback. *)
Theorem validator_stages (env : Env) (response user_message : string) (s : WorkflowState) :
  let out := _validate_response_quality env response user_message s in
  (len (strip response) < 10 -> out = rejected "Response is too short" 0.1)
  /\ (10 <= len (strip response) -> count_char " " response < 3 ->
      out = rejected "Response lacks substance" 0.2)
  /\ (10 <= len (strip response) -> 3 <= count_char " " response ->
      refusal response = true -> len response < 100 ->
      out = rejected "Response appears to be a refusal or error message" 0.3)
  /\ (10 <= len (strip response) -> 3 <= count_char " " response ->
      refusal response = false \/ 100 <= len response ->
      (provider (specs s) = None -> out = accept_with 0.5)
      /\ (forall p g,
            provider (specs s) = Some p ->
            grader_create env (validation_attempts s) p = Ok tt ->
            grader_initialize env (validation_attempts s) = Ok true ->
            grader_generate env (validation_attempts s)
              (validation_prompt user_message response) = Ok g ->
            grader_close env (validation_attempts s) = Ok tt ->
            let text := strip (default "" (response_content g)) in
            (forall digits,
               search_label_digits "SCORE:" text = Some digits ->
               let c := (0.5 * 0.3
                         + Qmin (inject_Z (int_of_digits digits) / 100) 1 * 0.7)%Q in
               (String.length digits <= 308 -> score_converts env digits = true)
               /\ (score_converts env digits = true ->
                   v_confidence out = c /\ is_valid out = Qgeb c 0.75)
               /\ (score_converts env digits = false -> out = accept_with 0.5))
            /\ (search_label_digits "SCORE:" text = None ->
                score_keyword text = true -> out = accept_with 0.75)
            /\ (search_label_digits "SCORE:" text = None ->
                score_keyword text = false ->
                out = {| is_valid := false; feedback := Some text;
                         v_confidence := 0.5; reasoning := None |}))).
Proof.
  intros out. subst out. rewrite (quality_unfold env).
  split; [|split; [|split]].
  - intros H. apply Nat.ltb_lt in H. now rewrite H.
  - intros H1 H2. apply Nat.ltb_ge in H1. apply Nat.ltb_lt in H2. now rewrite H1, H2.
  - intros H1 H2 H3 H4. apply Nat.ltb_ge in H1, H2. apply Nat.ltb_lt in H4.
    now rewrite H1, H2, H3, H4.
  - intros H1 H2 H3. apply Nat.ltb_ge in H1, H2. rewrite H1, H2.
    assert (refusal response && (len response <? 100) = false) as ->.
    { destruct H3 as [->|H3]; [reflexivity|].
      apply Nat.ltb_ge in H3. rewrite H3. apply andb_false_r. }
    split.
    + intros Hp. unfold llm_validation. now rewrite Hp.
    + intros p g Hp Hc Hi Hg Hcl text.
      rewrite (llm_validation_graded env s response user_message 0.5 p g Hp Hc Hi Hg Hcl).
      fold text. split; [|split].
      * intros digits Hd. cbv zeta. split; [|split].
        -- intros Hl. apply short_score_converts; [|exact Hl].
           eapply search_label_digits_all; eauto.
        -- intros Hcv.
           destruct (grade_scored env 0.5 text digits Hd Hcv) as (vr & -> & Hv & Hi').
           split; assumption.
        -- intros Hcv.
           destruct (grade_unconverted env 0.5 text digits Hd Hcv) as (e & ->).
           reflexivity.
      * intros Hn Hk. rewrite (grade_unscored env 0.5 text Hn), Hk. reflexivity.
      * intros Hn Hk. rewrite (grade_unscored env 0.5 text Hn), Hk. reflexivity.
Qed.

(** C6, witness: in the good world the grader answers "SCORE: 90" to a
    sound response, which gives 0.5 x 0.3 + 0.9 x 0.7. *)
Lemma validator_stages_witness :
  v_confidence
    (_validate_response_quality good_world long_answer "Hello"
       (initial_state good_world (plan_of plain_specs) hello))
  = (0.5 * 0.3 + Qmin (inject_Z (int_of_digits "90") / 100) 1 * 0.7)%Q.
Proof.
  pose proof (validator_stages good_world long_answer "Hello"
                (initial_state good_world (plan_of plain_specs) hello)) as H.
  cbv zeta in H. destruct H as (_ & _ & _ & H).
  destruct H as [_ H]; [vm_compute; lia|vm_compute; lia|left; reflexivity|].
  destruct (H openai (reply ("SCORE: 90" +:+ nl +:+ "REASONING: relevant and complete"))
              eq_refl eq_refl eq_refl eq_refl eq_refl) as (Hscore & _).
  destruct (Hscore "90") as (Hshort & Hconv & _); [vm_compute; reflexivity|].
  apply Hconv, Hshort. vm_compute. lia.
Defined.

(** C6, as stated, fails in three ways.  On a score above 100: for
    "SCORE: 150" the formula of the claim gives 1.2, the code caps the
    score and gives 0.85.  On the count of the second rule: a single
    word after three spaces has no internal word-separator, and is not
    answered with 0.2, the code having counted three space characters.
    On a score too large for a float: a one followed by 309 zeros makes
    the division raise, and the answer is the base 0.5, accepted. *)
Lemma validator_stages_counterexample :
  (let env := world (fun _ => reply long_answer) (fun _ => "SCORE: 150") in
   let out := _validate_response_quality env long_answer "Hello"
                (initial_state env (plan_of plain_specs) hello) in
   option_map int_of_digits (search_label_digits "SCORE:" "SCORE: 150") = Some 150%Z
   /\ (v_confidence out == 0.85)%Q
   /\ ~ (v_confidence out == 0.3 * 0.5 + 0.7 * (150 / 100))%Q)
  /\ (let out := _validate_response_quality good_world indented_word "Hello"
                   (initial_state good_world (plan_of plain_specs) hello) in
      10 <= len (strip indented_word)
      /\ spec_internal_word_separators indented_word < 3
      /\ ~ (v_confidence out == 0.2)%Q
      /\ is_valid out = true)
  /\ (let env := world (fun _ => reply long_answer) (fun _ => huge_score) in
      let out := _validate_response_quality env long_answer "Hello"
                   (initial_state env (plan_of plain_specs) hello) in
      option_map int_of_digits (search_label_digits "SCORE:" huge_score)
      = Some (10 ^ 309)%Z
      /\ out = accept_with 0.5
      /\ ~ (v_confidence out == 0.3 * 0.5 + 0.7 * (inject_Z (10 ^ 309) / 100))%Q
      /\ ~ (v_confidence out == 0.3 * 0.5 + 0.7 * Qmin (inject_Z (10 ^ 309) / 100) 1)%Q).
Proof.
  cbv zeta. split; [|split].
  - split; [vm_compute; reflexivity|]. split; vm_compute; congruence.
  - split; [vm_compute; lia|]. split; [vm_compute; lia|].
    split; [vm_compute; congruence|vm_compute; reflexivity].
  - split; [vm_compute; reflexivity|]. split; [vm_compute; reflexivity|].
    split; vm_compute; congruence.
Qed.

(** *** Data sources *)

Section DataSources.
Variable env : Env.

(** The loop body only appends. *)
Lemma query_data_source_appends req i ds_spec results errs :
  query_data_source env req i ds_spec (results, errs)
  = (results ++ appended_results env req i ds_spec,
     errs ++ appended_errors env req i ds_spec).
Proof.
  unfold appended_results, appended_errors, query_data_source.
  repeat (break_match; cbn [fst snd]); rewrite ?app_nil_r; reflexivity.
Qed.

Lemma query_data_sources_from_appends req l : forall i results errs,
  fst (query_data_sources_from env req i l (results, errs))
  = results ++ all_appended_results env req i l.
Proof.
  induction l as [|ds_spec rest IH]; intros i results errs; cbn [query_data_sources_from].
  - cbn. now rewrite app_nil_r.
  - rewrite query_data_source_appends, IH. cbn [all_appended_results].
    now rewrite app_assoc.
Qed.

Lemma query_data_sources_results s :
  data_source_results (_query_data_sources_node env s)
  = all_appended_results env (request s) 0 (data_sources (specs s)).
Proof.
  unfold _query_data_sources_node.
  change (request (push_step "query_data_sources" s)) with (request s).
  change (specs (push_step "query_data_sources" s)) with (specs s).
  change (errors (push_step "query_data_sources" s)) with (errors s).
  pose proof (query_data_sources_from_appends (request s) (data_sources (specs s)) 0 []
                (errors s)) as H.
  destruct (query_data_sources_from env (request s) 0 (data_sources (specs s)) ([], errors s))
    as [results errs].
  cbn [fst] in H. cbn. exact H.
Qed.

Lemma appended_results_disabled req i ds_spec :
  enabled ds_spec = false -> appended_results env req i ds_spec = [].
Proof. intros H. unfold appended_results, query_data_source. now rewrite H. Qed.

Lemma appended_results_other_type req i ds_spec :
  source_type ds_spec = CONVERSATION_HISTORY -> appended_results env req i ds_spec = [].
Proof.
  intros H. unfold appended_results, query_data_source. rewrite H.
  destruct (enabled ds_spec); reflexivity.
Qed.

Lemma appended_results_short req i ds_spec :
  length (appended_results env req i ds_spec) <= 1.
Proof.
  unfold appended_results, query_data_source.
  repeat (break_match; cbn [fst snd length app]); lia.
Qed.

(** An enabled vector store entry whose initialisation and query do not
    raise adds exactly one record. *)
Lemma appended_results_vector req i ds_spec :
  enabled ds_spec = true -> source_type ds_spec = VECTOR_DB ->
  (exists b, vector_initialize env i (config ds_spec) = Ok b) ->
  (exists docs, vector_query env i (query_text req ds_spec)
                  (dict_get "filter" (config ds_spec)) (query_limit ds_spec) = Ok docs) ->
  exists r, appended_results env req i ds_spec = [r] /\ result_source r = "vector_db".
Proof.
  intros He Ht (b & Hi) (docs & Hq).
  unfold appended_results, query_data_source. rewrite He, Ht. cbn [negb DataSourceType_value].
  change (String.eqb "vector_db" "vector_db") with true. cbv iota.
  destruct (check_data_source_available env "vector_db"); [|eexists; split; reflexivity].
  rewrite Hi. destruct b; [|eexists; split; reflexivity].
  fold (query_text req ds_spec). fold (query_limit ds_spec). rewrite Hq.
  destruct (vector_close env i); eexists; split; reflexivity.
Qed.
End DataSources.

(** C8 (as the code has it). After QUERY_DATA_SOURCES the results are
    what the entries of the spec's list append, in the order of the
    list.  An entry appends at most one record; a disabled entry and an
    entry of a type other than the vector store append nothing; an
    enabled vector store entry whose initialisation and query do not
    raise appends exactly one.  So for [A; B; C] with B disabled the
    results are what A appends followed by what C appends. *)
Theorem data_source_order (env : Env) (s : WorkflowState) (A B C : DataSourceSpec) :
  data_sources (specs s) = [A; B; C] ->
  enabled B = false ->
  let req := request s in
  data_source_results (_query_data_sources_node env s)
  = appended_results env req 0 A ++ appended_results env req 2 C
  /\ (forall i X, length (appended_results env req i X) <= 1)
  /\ (forall i X, enabled X = false -> appended_results env req i X = [])
  /\ (forall i X, source_type X = CONVERSATION_HISTORY -> appended_results env req i X = [])
  /\ (forall i X,
        enabled X = true -> source_type X = VECTOR_DB ->
        (exists b, vector_initialize env i (config X) = Ok b) ->
        (exists docs, vector_query env i (query_text req X)
                        (dict_get "filter" (config X)) (query_limit X) = Ok docs) ->
        exists r, appended_results env req i X = [r] /\ result_source r = "vector_db").
Proof.
  intros Hl HB req. subst req.
  rewrite query_data_sources_results, Hl. cbn [all_appended_results].
  rewrite (appended_results_disabled env _ 1 B HB), app_nil_r. cbn [app].
  split; [reflexivity|].
  split; [intros; apply appended_results_short|].
  split; [intros; now apply appended_results_disabled|].
  split; [intros; now apply appended_results_other_type|].
  intros; now apply appended_results_vector.
Qed.

(** *** The planner *)

Section Planner.
Import Cortex.

(** C7. Adaptive planning when the reasoning step returns a result with
    optimized specs: the plan adopts them, with [reasoning_applied] true
    and the confidence of the reasoning, exactly when that confidence is
    at least [reasoning_threshold]; below the threshold the plan keeps
    the original specs as the optimized ones, with [reasoning_applied]
    false and confidence 1, and its notes record the comparison and the
    notes of the rejected suggestion. *)
Theorem adaptive_plan (penv : PlannerEnv) (agent_specs : AgentExecutionSpec)
    (req : BrainRequest) (rr : ReasoningResult) (proc : ProcessingSpec)
    (optimized : AgentExecutionSpec) :
  reasoning_engine penv agent_specs req = Ok rr ->
  processing agent_specs = Some proc ->
  rr_optimized_specs rr = Some optimized ->
  let c := default 0%Q (rr_confidence rr) in
  let plan := _create_adaptive_plan penv agent_specs req in
  original_specs plan = agent_specs
  /\ ((reasoning_threshold proc <= c)%Q ->
      optimized_specs plan = optimized
      /\ reasoning_applied plan = true
      /\ confidence plan = c
      /\ reasoning_notes plan = NotesEngine (default no_notes (rr_notes rr)))
  /\ ((c < reasoning_threshold proc)%Q ->
      optimized_specs plan = agent_specs
      /\ reasoning_applied plan = false
      /\ confidence plan = 1%Q
      /\ reasoning_notes plan
         = NotesSkipped (skipped_note penv c (reasoning_threshold proc))
                        (default no_notes (rr_notes rr)))
  /\ (reasoning_applied plan = true <-> (reasoning_threshold proc <= c)%Q).
Proof.
  intros Hr Hp Ho c plan. subst c plan.
  unfold _create_adaptive_plan. rewrite Hr, Hp.
  destruct (Qgeb (default 0%Q (rr_confidence rr)) (reasoning_threshold proc)) eqn:E.
  - rewrite Ho. cbn. apply Qgeb_le in E.
    split; [reflexivity|]. split; [auto|].
    split; [intros H; exfalso; eapply Qlt_not_le; eauto|]. tauto.
  - cbn. assert (default 0%Q (rr_confidence rr) < reasoning_threshold proc)%Q as Hlt.
    { apply Qnot_le_lt. intros H. apply Qgeb_le in H. congruence. }
    split; [reflexivity|].
    split; [intros H; exfalso; eapply Qlt_not_le; eauto|].
    split; [auto|]. split; [discriminate|].
    intros H; exfalso; eapply Qlt_not_le; eauto.
Qed.
End Planner.

(** C2, witness: five rounds of fuel, in the world where the provider
    and the validator raise on every attempt. *)
Lemma always_terminates_witness :
  5 <= 5
  /\ exists final,
       run_workflow stormy_world (_build_graph false) 5 (plan_of plain_specs) hello
       = Some final
       /\ execute_plan stormy_world (_build_graph false) 5 (plan_of plain_specs) hello
          = Some (determine_outcome stormy_world final)
       /\ (exists pre, final = _finalize_node stormy_world pre)
       /\ List.last (execution_steps final) "" = "finalize"
       /\ length (execution_steps final) <= 19
       /\ status_completed (status final) = true.
Proof.
  split; [lia|].
  apply (always_terminates stormy_world false 5 (plan_of plain_specs) hello). lia.
Defined.

(** C8, witness: A and C are enabled vector store entries, B is
    disabled; two records come out, A's before C's. *)
Lemma data_source_order_witness :
  let A := vector_source "first" true in
  let B := vector_source "second" false in
  let C := vector_source "third" true in
  let s := initial_state good_world (plan_of (specs_with [A; B; C])) hello in
  data_source_results (_query_data_sources_node good_world s)
  = appended_results good_world hello 0 A ++ appended_results good_world hello 2 C
  /\ map (fun r => match r with
                   | SourceResults _ docs _ => map doc_content docs
                   | SourceError _ _ => []
                   end)
         (data_source_results (_query_data_sources_node good_world s))
     = [["doc 0 for first"]; ["doc 2 for third"]].
Proof.
  cbv zeta. split.
  - apply (proj1 (data_source_order good_world
                    (initial_state good_world
                       (plan_of (specs_with [vector_source "first" true;
                                             vector_source "second" false;
                                             vector_source "third" true])) hello)
                    (vector_source "first" true) (vector_source "second" false)
                    (vector_source "third" true) eq_refl eq_refl)).
  - vm_compute. reflexivity.
Defined.

(** C8, as stated, fails: A is an enabled entry of type
    "conversation_history", B is disabled, C is an enabled vector store
    entry; the results hold one record, C's, and none for A. *)
Lemma data_source_order_counterexample :
  let A := history_source in
  let B := vector_source "second" false in
  let C := vector_source "third" true in
  let s := initial_state good_world (plan_of (specs_with [A; B; C])) hello in
  enabled A = true /\ enabled B = false /\ enabled C = true
  /\ data_source_results (_query_data_sources_node good_world s)
     = [SourceResults "vector_db"
          [{| doc_content := "doc 2 for third"; doc_source := "vector_db" |}] 1].
Proof. cbv zeta. repeat split; vm_compute; reflexivity. Qed.

(** C7, witness: threshold 0.7, reasoning confidence 0.5; the plan
    keeps the original spec and records the rejected suggestion. *)
Lemma adaptive_plan_witness :
  let plan := Cortex._create_adaptive_plan timid_planner adaptive_specs hello in
  optimized_specs plan = adaptive_specs
  /\ reasoning_applied plan = false
  /\ confidence plan = 1%Q
  /\ reasoning_notes plan = NotesSkipped "confidence 0.50 < 0.70" no_notes.
Proof.
  cbv zeta.
  destruct (adaptive_plan timid_planner adaptive_specs hello _ _ suggested
              eq_refl eq_refl eq_refl) as (_ & _ & Hlow & _).
  cbv zeta in Hlow. destruct Hlow as (H1 & H2 & H3 & H4); [reflexivity|].
  split; [exact H1|]. split; [exact H2|]. split; [exact H3|].
  rewrite H4. vm_compute. reflexivity.
Defined.

(** *** The rate limiter *)

Section RateLimiting.
Import Guardrails.


Lemma prune_recent now window stamps :
  List.Forall (fun t => (now - window < t)%Z) (prune now window stamps).
Proof.
  apply List.Forall_forall. intros t Ht. unfold prune in Ht.
  apply List.filter_In in Ht. destruct Ht as [_ Ht]. now apply Z.ltb_lt in Ht.
Qed.

Lemma prune_keeps now window stamps :
  List.Forall (fun t => (now - window < t)%Z) stamps -> prune now window stamps = stamps.
Proof.
  induction 1 as [|t l Ht _ IH]; [reflexivity|].
  unfold prune in *. cbn [List.filter]. apply Z.ltb_lt in Ht. now rewrite Ht, IH.
Qed.

Lemma check_rate_limit_enabled now uid sm :
  rate_limiting_enabled (config sm) = true ->
  check_rate_limit now uid sm
  = (within_caps now uid sm,
     {| config := config sm;
        rate_limits :=
          <[uid := {| minute := stamped (within_caps now uid sm) now (pruned_minute now uid sm);
                      hour := stamped (within_caps now uid sm) now (pruned_hour now uid sm) |}]>
            (rate_limits sm) |}).
Proof.
  intros He. unfold check_rate_limit, within_caps. rewrite He. cbn [negb].
  fold (pruned_minute now uid sm). fold (pruned_hour now uid sm).
  destruct (max_min (config sm) <=? Z.of_nat (length (pruned_minute now uid sm)))%Z eqn:E1.
  - apply Z.leb_le in E1.
    assert ((Z.of_nat (length (pruned_minute now uid sm)) <? max_min (config sm))%Z = false)
      as -> by (apply Z.ltb_ge; lia).
    reflexivity.
  - apply Z.leb_gt in E1.
    assert ((Z.of_nat (length (pruned_minute now uid sm)) <? max_min (config sm))%Z = true)
      as -> by (apply Z.ltb_lt; lia).
    cbn [andb].
    destruct (max_hour (config sm) <=? Z.of_nat (length (pruned_hour now uid sm)))%Z eqn:E2.
    + apply Z.leb_le in E2.
      assert ((Z.of_nat (length (pruned_hour now uid sm)) <? max_hour (config sm))%Z = false)
        as -> by (apply Z.ltb_ge; lia).
      reflexivity.
    + apply Z.leb_gt in E2.
      assert ((Z.of_nat (length (pruned_hour now uid sm)) <? max_hour (config sm))%Z = true)
        as -> by (apply Z.ltb_lt; lia).
      reflexivity.
Qed.

Lemma check_rate_limit_disabled now uid sm :
  rate_limiting_enabled (config sm) = false -> check_rate_limit now uid sm = (true, sm).
Proof. intros He. unfold check_rate_limit. now rewrite He. Qed.

Lemma stamped_recent ok now window stamps :
  (0 < window)%Z ->
  List.Forall (fun t => (now - window < t)%Z) stamps ->
  List.Forall (fun t => (now - window < t)%Z) (stamped ok now stamps).
Proof.
  intros Hw H. unfold stamped. destruct ok; [|exact H].
  apply List.Forall_app. split; [exact H|]. constructor; [lia|constructor].
Qed.

(** C9. With rate limiting enabled, a call of [check_rate_limit] at time
    [t1] leaves for the user two windows holding only time stamps
    younger than a minute, respectively an hour: the old stamps pruned
    by the same strict test, and [t1] itself when the request is let
    through; the answer is true exactly when both pruned windows are
    under their caps; the windows of other users and the configuration
    stay as they were.  With a cap of 2 a minute (and an hourly cap of
    at least 2, the default being 1000), three calls for a user not seen
    before, at times [t1 <= t2 <= t3] less than a minute apart, answer
    true, true, false. *)
Theorem rate_limit_windows (sm : SecurityManager) (uid : string) (t1 t2 t3 : Z) :
  rate_limiting_enabled (config sm) = true ->
  let r1 := check_rate_limit t1 uid sm in
  let r2 := check_rate_limit t2 uid (snd r1) in
  let r3 := check_rate_limit t3 uid (snd r2) in
  fst r1 = within_caps t1 uid sm
  /\ (exists w,
        rate_limits (snd r1) !! uid = Some w
        /\ minute w = stamped (fst r1) t1 (pruned_minute t1 uid sm)
        /\ hour w = stamped (fst r1) t1 (pruned_hour t1 uid sm)
        /\ List.Forall (fun t => (t1 - one_minute < t)%Z) (minute w)
        /\ List.Forall (fun t => (t1 - one_hour < t)%Z) (hour w))
  /\ (forall other, other <> uid ->
        rate_limits (snd r1) !! other = rate_limits sm !! other)
  /\ config (snd r1) = config sm
  /\ (max_min (config sm) = 2%Z -> (2 <= max_hour (config sm))%Z ->
      rate_limits sm !! uid = None ->
      (t1 <= t2 <= t3)%Z -> (t3 < t1 + one_minute)%Z ->
      (fst r1, fst r2, fst r3) = (true, true, false)).
Proof.
  intros He r1 r2 r3.
  assert (r1 = check_rate_limit t1 uid sm) as E1 by reflexivity. clearbody r1.
  rewrite (check_rate_limit_enabled t1 uid sm He) in E1.
  split; [now rewrite E1|]. split.
  { rewrite E1. cbn [fst snd rate_limits]. eexists. rewrite lookup_insert_eq.
    split; [reflexivity|]. cbn [minute hour]. split; [reflexivity|]. split; [reflexivity|].
    split; apply stamped_recent; try (unfold one_minute, one_hour; lia);
      apply prune_recent. }
  split.
  { intros other Hne. rewrite E1. cbn [snd rate_limits]. now rewrite lookup_insert_ne. }
  split; [now rewrite E1|].
  intros Hmin Hhour Hfresh Ht Hclose.
  (* first call *)
  assert (within_caps t1 uid sm = true) as W1.
  { unfold within_caps, pruned_minute, pruned_hour. rewrite Hfresh. cbn.
    rewrite Hmin. apply andb_true_intro. split; [reflexivity|]. apply Z.ltb_lt. lia. }
  assert (pruned_minute t1 uid sm = []) as M1
    by (unfold pruned_minute; rewrite Hfresh; reflexivity).
  assert (pruned_hour t1 uid sm = []) as H1
    by (unfold pruned_hour; rewrite Hfresh; reflexivity).
  rewrite W1, M1, H1 in E1. cbn [stamped app] in E1.
  (* second call *)
  assert (r2 = check_rate_limit t2 uid (snd r1)) as E2 by reflexivity. clearbody r2.
  rewrite E1 in E2. cbn [snd] in E2.
  rewrite check_rate_limit_enabled in E2 by exact He.
  cbn [config rate_limits] in E2.
  assert (pruned_minute t2 uid
            {| config := config sm;
               rate_limits := <[uid := {| minute := [t1]; hour := [t1] |}]> (rate_limits sm) |}
          = [t1]) as M2.
  { unfold pruned_minute. cbn [rate_limits]. rewrite lookup_insert_eq. cbn [default minute].
    apply prune_keeps. constructor; [unfold one_minute in *; lia|constructor]. }
  assert (pruned_hour t2 uid
            {| config := config sm;
               rate_limits := <[uid := {| minute := [t1]; hour := [t1] |}]> (rate_limits sm) |}
          = [t1]) as H2.
  { unfold pruned_hour. cbn [rate_limits]. rewrite lookup_insert_eq. cbn [default hour].
    apply prune_keeps. constructor; [unfold one_minute, one_hour in *; lia|constructor]. }
  assert (within_caps t2 uid
            {| config := config sm;
               rate_limits := <[uid := {| minute := [t1]; hour := [t1] |}]> (rate_limits sm) |}
          = true) as W2.
  { unfold within_caps. rewrite M2, H2. cbn [config length]. rewrite Hmin.
    apply andb_true_intro. split; [reflexivity|]. apply Z.ltb_lt. lia. }
  rewrite W2, M2, H2 in E2. cbn [stamped app] in E2.
  rewrite insert_insert_eq in E2.
  (* third call *)
  assert (r3 = check_rate_limit t3 uid (snd r2)) as E3 by reflexivity. clearbody r3.
  rewrite E2 in E3. cbn [snd] in E3.
  rewrite check_rate_limit_enabled in E3 by exact He.
  cbn [config rate_limits] in E3.
  assert (within_caps t3 uid
            {| config := config sm;
               rate_limits :=
                 <[uid := {| minute := [t1; t2]; hour := [t1; t2] |}]> (rate_limits sm) |}
          = false) as W3.
  { unfold within_caps.
    assert (pruned_minute t3 uid
              {| config := config sm;
                 rate_limits :=
                   <[uid := {| minute := [t1; t2]; hour := [t1; t2] |}]> (rate_limits sm) |}
            = [t1; t2]) as ->.
    { unfold pruned_minute. cbn [rate_limits]. rewrite lookup_insert_eq. cbn [default minute].
      apply prune_keeps.
      constructor; [unfold one_minute in *; lia|].
      constructor; [unfold one_minute in *; lia|constructor]. }
    cbn [config length]. rewrite Hmin. reflexivity. }
  rewrite W3 in E3. rewrite E1, E2, E3. reflexivity.
Qed.

(** C9, witness: the limiter configured with two requests a minute,
    three calls for "alice" within two microseconds. *)
Lemma rate_limit_windows_witness :
  let r1 := check_rate_limit 0 "alice" Scenario.two_a_minute in
  let r2 := check_rate_limit 1 "alice" (snd r1) in
  let r3 := check_rate_limit 2 "alice" (snd r2) in
  (fst r1, fst r2, fst r3) = (true, true, false).
Proof.
  cbv zeta.
  refine (proj2 (proj2 (proj2 (proj2
            (rate_limit_windows Scenario.two_a_minute "alice" 0 1 2 eq_refl))))
            _ _ _ _ _).
  - reflexivity.
  - vm_compute. discriminate.
  - reflexivity.
  - lia.
  - vm_compute. reflexivity.
Defined.
End RateLimiting.

(** *** The shape of the loop *)

Section LoopShape.
Variable env : Env.

Lemma route_is_finalize_or_retry s :
  fst (_route_after_validation s) = "finalize"
  \/ (fst (_route_after_validation s) = "retry" /\ snd (_route_after_validation s) = s).
Proof.
  destruct (route_after_validation_cases s) as [[H _]|(H & Hs & _)]; [left|right]; auto.
Qed.

(** More fuel does not change the result of the loop. *)
Lemma retry_loop_more_fuel fuel : forall s s' k,
  retry_loop env fuel s = Some s' -> retry_loop env (fuel + k) s = Some s'.
Proof.
  induction fuel as [|fuel IH]; intros s s' k Hrun; [discriminate|].
  cbn [Nat.add].
  destruct (route_is_finalize_or_retry (attempt env s)) as [Hr|[Hr Hs]].
  - rewrite (retry_loop_finalize env fuel s Hr) in Hrun.
    now rewrite (retry_loop_finalize env (fuel + k) s Hr).
  - rewrite (retry_loop_retry env fuel s Hr) in Hrun.
    rewrite (retry_loop_retry env (fuel + k) s Hr). now apply IH.
Qed.

Lemma ainvoke_validate_retry limit s :
  fst (_route_after_validation (_validate_response_node env s)) = "retry" ->
  ainvoke_from env (S limit) VALIDATE_RESPONSE s
  = ainvoke_from env limit BUILD_MESSAGES
      (snd (_route_after_validation (_validate_response_node env s))).
Proof.
  intros Hr. rewrite ainvoke_from_step. cbn [node_function].
  rewrite edge_validate_response, Hr.
  destruct (route_is_finalize_or_retry (_validate_response_node env s)) as [H|[_ Hs]];
    [rewrite Hr in H; discriminate|].
  rewrite (graph_routed_retry _ Hs), Hs. reflexivity.
Qed.

(** What the router leaves when it ends the loop. *)
Lemma route_after_validation_exit s :
  fst (_route_after_validation s) = "finalize" ->
  is_validated (snd (_route_after_validation s)) = true
  /\ confidence_score (snd (_route_after_validation s)) = confidence_score s
  /\ (is_validated s = true -> snd (_route_after_validation s) = s)
  /\ (is_validated s = false ->
      max_validation_runs (snd (_route_after_validation s))
      <= validation_attempts (snd (_route_after_validation s))
      /\ errors (snd (_route_after_validation s))
         = errors s ++ [attempts_exhausted_error (validation_attempts s)]).
Proof.
  unfold _route_after_validation.
  destruct (is_validated s) eqn:Hv; cbn [fst snd].
  - intros _. repeat split; auto; discriminate.
  - destruct (max_validation_runs s <=? validation_attempts s) eqn:Hm; cbn [fst snd];
      [|discriminate].
    intros _. apply Nat.leb_le in Hm. repeat split; auto; discriminate.
Qed.

(** FINALIZE neither reads nor writes [is_validated]. *)
Lemma finalize_set_is_validated v s :
  _finalize_node env (set_is_validated v s) = set_is_validated v (_finalize_node env s).
Proof.
  destruct s. unfold _finalize_node. cbn.
  destruct (Qltb _ 0.75); cbn; [reflexivity|].
  now destruct errors.
Qed.

(** The graph runs the rounds of the sequential loop, then FINALIZE on
    the state the loop ends with, but for [is_validated]: that is false
    on the graph when the router has ended the loop for want of
    attempts, which a confidence of 0.75 or more rules out. *)
Lemma graph_loop fuel : forall s s' k,
  retry_loop env fuel s = Some s' ->
  exists v,
    ainvoke_from env (3 * fuel + 1 + k) BUILD_MESSAGES s
    = Ok (_finalize_node env (set_is_validated v s'))
    /\ is_validated s' = true
    /\ ((0.75 <= confidence_score s')%Q -> v = true)
    /\ (v = false ->
        max_validation_runs s' <= validation_attempts s'
        /\ exists errs,
             errors s' = errs ++ [attempts_exhausted_error (validation_attempts s')]).
Proof.
  induction fuel as [|fuel IH]; intros s s' k Hrun; [discriminate|].
  replace (3 * S fuel + 1 + k) with (S (S (S (3 * fuel + 1 + k)))) by lia.
  rewrite ainvoke_build, ainvoke_call.
  destruct (route_is_finalize_or_retry (attempt env s)) as [Hr|[Hr Hs]].
  - rewrite (retry_loop_finalize env fuel s Hr) in Hrun. injection Hrun as <-.
    destruct (route_after_validation_exit _ Hr) as (Hv & Hc & Hsame & Hex).
    destruct (route_after_validation_frame (attempt env s)) as (Ra & _).
    cbv zeta in Ra.
    exists (is_validated (attempt env s)). split; [|split; [exact Hv|split]].
    + rewrite attempt_eq in *. rewrite (ainvoke_validate_finalize env _ _ Hr).
      replace (3 * fuel + 1 + k) with (S (3 * fuel + k)) by lia.
      apply ainvoke_finalize.
    + rewrite Hc. intros Hq. rewrite attempt_eq in *.
      now apply validate_response_accepts.
    + intros Hf. destruct (Hex Hf) as (Hm & He). split; [exact Hm|].
      rewrite Ra. eexists. exact He.
  - rewrite (retry_loop_retry env fuel s Hr) in Hrun.
    rewrite attempt_eq in *. rewrite (ainvoke_validate_retry _ _ Hr).
    now apply IH.
Qed.

(** The steps and the attempts of the rounds of the loop. *)
Lemma attempt_steps s :
  execution_steps (attempt env s) = execution_steps s ++ round_steps.
Proof.
  rewrite attempt_eq, validate_response_steps, call_provider_steps, build_messages_steps.
  now rewrite <- !app_assoc.
Qed.

Lemma retry_loop_rounds fuel : forall s s',
  retry_loop env fuel s = Some s' ->
  exists k,
    1 <= k
    /\ validation_attempts s' = validation_attempts s + k
    /\ execution_steps s' = execution_steps s ++ rounds_steps k.
Proof.
  induction fuel as [|fuel IH]; intros s s' Hrun; [discriminate|].
  destruct (route_after_validation_frame (attempt env s)) as (Ra & _ & Rs & _).
  cbv zeta in Ra, Rs.
  destruct (route_is_finalize_or_retry (attempt env s)) as [Hr|[Hr Hs]].
  - rewrite (retry_loop_finalize env fuel s Hr) in Hrun. injection Hrun as <-.
    exists 1. split; [lia|]. rewrite Ra, Rs, attempt_attempts, attempt_steps.
    split; [reflexivity|]. cbn [rounds_steps]. now rewrite app_nil_r.
  - rewrite (retry_loop_retry env fuel s Hr), Hs in Hrun.
    destruct (IH _ _ Hrun) as (k & Hk & Ha & Hst).
    exists (S k). split; [lia|]. rewrite Ha, Hst, attempt_attempts, attempt_steps.
    split; [lia|]. cbn [rounds_steps]. now rewrite <- app_assoc.
Qed.
End LoopShape.

(** *** The nodes before the loop *)

Section Prologue.
Variable env : Env.

Lemma ainvoke_initialize limit s :
  ainvoke_from env (S limit) INITIALIZE s
  = ainvoke_from env limit
      (if existsb enabled (data_sources (specs s)) then QUERY_DATA_SOURCES
       else if existsb tool_enabled (tools (specs s)) then EXECUTE_TOOLS
            else BUILD_MESSAGES)
      (_initialize_node s).
Proof.
  rewrite ainvoke_from_step. cbn [node_function]. unfold edge, _route_after_initialize.
  change (specs (_initialize_node s)) with (specs s).
  destruct (existsb enabled _); [reflexivity|].
  destruct (existsb tool_enabled _); reflexivity.
Qed.

Lemma ainvoke_query_data_sources limit s :
  ainvoke_from env (S limit) QUERY_DATA_SOURCES s
  = ainvoke_from env limit
      (if existsb tool_enabled (tools (specs s)) then EXECUTE_TOOLS else BUILD_MESSAGES)
      (_query_data_sources_node env s).
Proof.
  rewrite ainvoke_from_step. cbn [node_function]. unfold edge, _route_after_data_sources.
  destruct (query_data_sources_control env s) as (_ & _ & _ & -> & _).
  destruct (existsb tool_enabled _); reflexivity.
Qed.

Lemma ainvoke_execute_tools limit s :
  ainvoke_from env (S limit) EXECUTE_TOOLS s
  = ainvoke_from env limit BUILD_MESSAGES (_execute_tools_node env s).
Proof. now rewrite ainvoke_from_step. Qed.

(** The graph reaches BUILD_MESSAGES in the state [graph_prologue],
    within three nodes. *)
Lemma ainvoke_graph_prologue s :
  exists k, k <= 3 /\ forall limit,
    ainvoke_from env (k + limit) INITIALIZE s
    = ainvoke_from env limit BUILD_MESSAGES (graph_prologue env s).
Proof.
  unfold graph_prologue. cbv zeta.
  change (specs (_initialize_node s)) with (specs s).
  destruct (query_data_sources_control env (_initialize_node s)) as (_ & _ & _ & Hs & _).
  rewrite Hs. change (specs (_initialize_node s)) with (specs s).
  destruct (existsb enabled (data_sources (specs s))) eqn:Ed.
  - destruct (existsb tool_enabled (tools (specs s))) eqn:Et.
    + exists 3. split; [lia|]. intros limit. cbn [Nat.add].
      rewrite ainvoke_initialize, Ed, ainvoke_query_data_sources.
      change (specs (_initialize_node s)) with (specs s). rewrite Et.
      apply ainvoke_execute_tools.
    + exists 2. split; [lia|]. intros limit. cbn [Nat.add].
      rewrite ainvoke_initialize, Ed, ainvoke_query_data_sources.
      change (specs (_initialize_node s)) with (specs s). now rewrite Et.
  - destruct (existsb tool_enabled (tools (specs s))) eqn:Et.
    + exists 2. split; [lia|]. intros limit. cbn [Nat.add].
      rewrite ainvoke_initialize, Ed, Et. apply ainvoke_execute_tools.
    + exists 1. split; [lia|]. intros limit. cbn [Nat.add].
      now rewrite ainvoke_initialize, Ed, Et.
Qed.

Lemma graph_prologue_head m s : loop_head m s -> loop_head m (graph_prologue env s).
Proof.
  intros Hh. unfold graph_prologue. cbv zeta.
  pose proof (loop_head_initialize m s Hh) as H1.
  pose proof (loop_head_query_data_sources env m _ H1) as H2.
  destruct (existsb enabled _).
  - destruct (existsb tool_enabled _); auto using loop_head_execute_tools.
  - destruct (existsb tool_enabled _); auto using loop_head_execute_tools.
Qed.

Lemma prologue_head b m s : loop_head m s -> loop_head m (prologue b env s).
Proof.
  destruct b; [apply graph_prologue_head|apply sequential_prologue_head].
Qed.

Lemma graph_prologue_control s : same_control s (graph_prologue env s).
Proof.
  unfold graph_prologue. cbv zeta.
  pose proof (initialize_control s) as C1.
  pose proof (query_data_sources_control env (_initialize_node s)) as C2.
  pose proof (execute_tools_control env (_initialize_node s)) as C3.
  pose proof (execute_tools_control env (_query_data_sources_node env (_initialize_node s)))
    as C4.
  destruct (existsb enabled _); destruct (existsb tool_enabled _);
    eauto using same_control_trans.
Qed.

Lemma sequential_prologue_control s : same_control s (sequential_prologue env s).
Proof.
  unfold sequential_prologue. cbv zeta.
  eapply same_control_trans; [apply initialize_control|].
  eapply same_control_trans;
    [|destruct (tools _); [apply same_control_refl|apply execute_tools_control]].
  destruct (data_sources _); [apply same_control_refl|apply query_data_sources_control].
Qed.

Lemma prologue_control b s : same_control s (prologue b env s).
Proof.
  destruct b; [apply graph_prologue_control|apply sequential_prologue_control].
Qed.

Lemma prologue_execution_steps b s :
  execution_steps (prologue b env s) = execution_steps s ++ prologue_steps b (specs s).
Proof.
  unfold prologue_steps, runs_data_sources, runs_tools.
  destruct (query_data_sources_control env (_initialize_node s)) as (_ & _ & _ & Hs & _).
  destruct b; cbn [prologue].
  - unfold graph_prologue. cbv zeta. rewrite Hs.
    change (specs (_initialize_node s)) with (specs s).
    destruct (existsb enabled _); destruct (existsb tool_enabled _);
      rewrite ?execute_tools_steps, ?query_data_sources_steps, ?initialize_steps,
        <- ?app_assoc; reflexivity.
  - unfold sequential_prologue. cbv zeta.
    change (specs (_initialize_node s)) with (specs s).
    destruct (data_sources (specs s)) as [|d ds] eqn:Ed.
    + change (specs (_initialize_node s)) with (specs s).
      destruct (tools (specs s)) as [|t ts];
        rewrite ?execute_tools_steps, ?initialize_steps, <- ?app_assoc; reflexivity.
    + rewrite Hs. change (specs (_initialize_node s)) with (specs s).
      destruct (tools (specs s)) as [|t ts];
        rewrite ?execute_tools_steps, ?query_data_sources_steps, ?initialize_steps,
          <- ?app_assoc; reflexivity.
Qed.

(** A run is the prologue, the rounds of the loop, and FINALIZE: the
    final state is what FINALIZE makes of the state the loop ends with,
    but for [is_validated] on the graph (see [graph_loop]). *)
Lemma run_workflow_loop b fuel plan req final :
  run_workflow env (_build_graph b) fuel plan req = Some final ->
  exists s' v,
    retry_loop env (if b then 5 else fuel) (prologue b env (initial_state env plan req))
    = Some s'
    /\ final = set_is_validated v (_finalize_node env s')
    /\ is_validated s' = true
    /\ (b = false -> v = true)
    /\ ((0.75 <= confidence_score s')%Q -> v = true)
    /\ (v = false ->
        max_validation_runs s' <= validation_attempts s'
        /\ exists errs,
             errors s' = errs ++ [attempts_exhausted_error (validation_attempts s')]).
Proof.
  pose proof (initial_loop_head env plan req) as H0.
  unfold run_workflow. destruct b; cbn [_build_graph graph prologue].
  - intros [= <-].
    destruct (retry_loop_exits env 5 5 (graph_prologue env (initial_state env plan req)))
      as (s' & Hloop & _).
    + now apply graph_prologue_head.
    + lia.
    + destruct (ainvoke_graph_prologue (initial_state env plan req)) as (k & Hk & Hrun).
      destruct (graph_loop env 5 _ s' (9 - k) Hloop) as (v & Hg & Hv & Hc & Hex).
      exists s', v. split; [exact Hloop|].
      split; [|split; [exact Hv|split; [discriminate|split; assumption]]].
      unfold _execute_graph, ainvoke. cbn [recursion_limit].
      replace 25 with (k + (3 * 5 + 1 + (9 - k))) by lia.
      rewrite Hrun, Hg. apply finalize_set_is_validated.
  - intros Hrun. rewrite sequential_unfold in Hrun.
    destruct (retry_loop env fuel _) as [s'|] eqn:Hloop; [|discriminate].
    injection Hrun as <-.
    assert (is_validated s' = true) as Hv.
    { destruct (graph_loop env fuel _ s' 0 Hloop) as (_ & _ & Hv & _). exact Hv. }
    exists s', true. split; [reflexivity|].
    split; [|split; [exact Hv|split; [reflexivity|split; [reflexivity|discriminate]]]].
    rewrite <- finalize_set_is_validated, <- Hv. now rewrite set_is_validated_same.
Qed.

(** The fields of the final state other than [is_validated] are those
    FINALIZE leaves. *)
Lemma set_is_validated_frame v s :
  let s' := set_is_validated v s in
  validation_attempts s' = validation_attempts s
  /\ max_validation_runs s' = max_validation_runs s
  /\ execution_steps s' = execution_steps s
  /\ errors s' = errors s
  /\ confidence_score s' = confidence_score s
  /\ final_content s' = final_content s
  /\ llm_response s' = llm_response s
  /\ status s' = status s
  /\ data_source_results s' = data_source_results s
  /\ tool_results s' = tool_results s
  /\ determine_outcome env s' = determine_outcome env s.
Proof. cbv zeta. repeat split. Qed.
End Prologue.

(** *** The trace of a run, on the graph and sequentially *)

Section Trace.
Variable env : Env.

Lemma run_workflow_steps langgraph fuel plan req final :
  run_workflow env (_build_graph langgraph) fuel plan req = Some final ->
  execution_steps final
  = prologue_steps langgraph (optimized_specs plan)
    ++ rounds_steps (validation_attempts final) ++ ["finalize"]
  /\ 1 <= validation_attempts final.
Proof.
  intros Hrun.
  destruct (run_workflow_loop env langgraph fuel plan req final Hrun)
    as (s' & v & Hloop & -> & _).
  destruct (set_is_validated_frame env v (_finalize_node env s')) as (-> & _ & -> & _).
  destruct (retry_loop_rounds env _ _ _ Hloop) as (k & Hk & Ha & Hs).
  destruct (prologue_control env langgraph (initial_state env plan req)) as (Hpa & _).
  rewrite Hpa in Ha. change (validation_attempts (initial_state env plan req)) with 0 in Ha.
  rewrite prologue_execution_steps in Hs.
  change (execution_steps (initial_state env plan req)) with (@nil string) in Hs.
  change (specs (initial_state env plan req)) with (optimized_specs plan) in Hs.
  destruct (finalize_control env s') as (Hfa & _).
  rewrite Hfa in *. rewrite finalize_steps, Hs, Ha. cbn [Nat.add app].
  split; [now rewrite <- app_assoc|lia].
Qed.
End Trace.

(** X1. The trace of a run that ends is, in this order: "initialize",
    "query_data_sources" and "execute_tools" when those nodes run (at
    most once each), then as many rounds "build_messages",
    "call_provider", "validate_response" as there were validation
    attempts, between one and five, then "finalize".  The retrieval
    nodes are not run again on a retry. *)
Theorem run_trace (env : Env) (langgraph : bool) (fuel : nat)
    (plan : ExecutionPlan) (req : BrainRequest) (final : WorkflowState) :
  run_workflow env (_build_graph langgraph) fuel plan req = Some final ->
  execution_steps final
  = prologue_steps langgraph (optimized_specs plan)
    ++ rounds_steps (validation_attempts final) ++ ["finalize"]
  /\ 1 <= validation_attempts final <= 5.
Proof.
  intros Hrun.
  pose proof (run_workflow_sound env _ _ _ _ _ Hrun) as (_ & _ & Hmax).
  destruct (run_workflow_steps env langgraph fuel plan req final Hrun) as [Hs Hone].
  split; [exact Hs|lia].
Qed.

Lemma run_trace_witness :
  exists final,
    run_workflow terse_world graph_engine 0 (plan_of plain_specs) hello = Some final
    /\ execution_steps final
       = ["initialize"] ++ rounds_steps 5 ++ ["finalize"].
Proof.
  eexists. split; [vm_compute; reflexivity|].
  refine (eq_trans (proj1 (run_trace terse_world true 0 (plan_of plain_specs) hello _ _)) _).
  - vm_compute. reflexivity.
  - vm_compute. reflexivity.
Defined.

Section Agreement.
Variable env : Env.

Lemma prologues_agree s :
  runs_data_sources true (specs s) = runs_data_sources false (specs s) ->
  runs_tools true (specs s) = runs_tools false (specs s) ->
  graph_prologue env s = sequential_prologue env s.
Proof.
  unfold runs_data_sources, runs_tools, graph_prologue, sequential_prologue. cbv zeta.
  destruct (query_data_sources_control env (_initialize_node s)) as (_ & _ & _ & Hs & _).
  rewrite Hs. change (specs (_initialize_node s)) with (specs s).
  intros Hd Ht. rewrite Hd, Ht.
  destruct (data_sources (specs s)) as [|d ds].
  - change (specs (_initialize_node s)) with (specs s).
    destruct (tools (specs s)); reflexivity.
  - rewrite Hs. change (specs (_initialize_node s)) with (specs s).
    destruct (tools (specs s)); reflexivity.
Qed.
End Agreement.

(** X2. When the graph and the sequential fallback agree on which
    retrieval nodes run, that is when each of the two lists is empty or
    has an enabled entry, and the sequential loop has its five rounds of
    fuel, both runs end, and their final states differ in [is_validated]
    at most: the result handed to the caller is the same.  The
    sequential state always ends with [is_validated] true; the graph,
    which drops the assignment the router makes when the attempts are
    used up, ends with [is_validated] false in that case only, after
    five attempts, below 0.75 and with the router's entry among the
    errors; a last response of confidence 0.75 or more makes the two
    states equal. *)
Theorem graph_sequential_agree (env : Env) (fuel : nat)
    (plan : ExecutionPlan) (req : BrainRequest) :
  5 <= fuel ->
  runs_data_sources true (optimized_specs plan)
  = runs_data_sources false (optimized_specs plan) ->
  runs_tools true (optimized_specs plan) = runs_tools false (optimized_specs plan) ->
  exists on_graph sequentially,
    run_workflow env (_build_graph true) fuel plan req = Some on_graph
    /\ run_workflow env (_build_graph false) fuel plan req = Some sequentially
    /\ on_graph = set_is_validated (is_validated on_graph) sequentially
    /\ is_validated sequentially = true
    /\ determine_outcome env on_graph = determine_outcome env sequentially
    /\ ((0.75 <= confidence_score sequentially)%Q -> on_graph = sequentially)
    /\ (is_validated on_graph = false ->
        validation_attempts on_graph = 5
        /\ (confidence_score on_graph < 0.75)%Q
        /\ In (attempts_exhausted_error 5) (errors on_graph)).
Proof.
  intros Hfuel Hd Ht.
  destruct (run_workflow_finishes env true fuel plan req Hfuel) as (f1 & H1 & _).
  destruct (run_workflow_finishes env false fuel plan req Hfuel) as (f2 & H2 & _).
  exists f1, f2. split; [exact H1|]. split; [exact H2|].
  pose proof (run_workflow_sound env _ _ _ _ _ H1) as (Hmax & _ & Hle).
  destruct (run_workflow_loop env true fuel plan req f1 H1)
    as (s1 & v1 & L1 & E1 & _ & _ & Hacc & Hex).
  destruct (run_workflow_loop env false fuel plan req f2 H2)
    as (s2 & v2 & L2 & E2 & Hv2 & Hseq & _).
  cbn [prologue] in L1, L2.
  rewrite (prologues_agree env (initial_state env plan req) Hd Ht) in L1.
  apply retry_loop_more_fuel with (k := fuel - 5) in L1.
  replace (5 + (fuel - 5)) with fuel in L1 by lia.
  assert (s1 = s2) as -> by congruence.
  rewrite (Hseq eq_refl) in E2.
  destruct (finalize_control env s2) as (Ha & Hm & Hi & _).
  destruct (finalize_contract env s2) as (Hc & _ & Hlow & _). cbv zeta in Hc, Hlow.
  revert E1 E2 Ha Hm Hi Hc Hlow Hmax Hle.
  generalize (_finalize_node env s2) as F. intros F E1 E2 Ha Hm Hi Hc Hlow Hmax Hle.
  subst f1 f2.
  split; [reflexivity|]. split; [reflexivity|]. split; [reflexivity|].
  split.
  - intros Hq. change (confidence_score (set_is_validated true F)) with (confidence_score F) in Hq.
    rewrite Hc in Hq. now rewrite (Hacc Hq).
  - change (is_validated (set_is_validated v1 F)) with v1.
    change (validation_attempts (set_is_validated v1 F)) with (validation_attempts F).
    change (confidence_score (set_is_validated v1 F)) with (confidence_score F).
    change (errors (set_is_validated v1 F)) with (errors F).
    change (max_validation_runs (set_is_validated v1 F)) with (max_validation_runs F) in Hmax.
    change (validation_attempts (set_is_validated v1 F)) with (validation_attempts F) in Hle.
    intros Hf. destruct (Hex Hf) as (Hm5 & errs & He).
    assert (validation_attempts s2 = 5) as H5 by lia.
    assert (confidence_score s2 < 0.75)%Q as Hlt.
    { apply Qnot_le_lt. intros Hq. rewrite (Hacc Hq) in Hf. discriminate. }
    split; [lia|]. split; [now rewrite Hc|].
    destruct (Hlow Hlt) as (_ & ->). rewrite He, H5.
    apply in_or_app. left. apply in_or_app. right. now left.
Qed.

(** X2, witness: in the world of five-character answers the attempts
    are used up; the two runs hand back the same result, and the graph
    leaves [is_validated] false where the sequential path has it true. *)
Lemma graph_sequential_agree_witness :
  exists on_graph sequentially,
    run_workflow terse_world (_build_graph true) 5 (plan_of plain_specs) hello
    = Some on_graph
    /\ run_workflow terse_world (_build_graph false) 5 (plan_of plain_specs) hello
       = Some sequentially
    /\ determine_outcome terse_world on_graph = determine_outcome terse_world sequentially
    /\ is_validated on_graph = false
    /\ is_validated sequentially = true.
Proof.
  destruct (graph_sequential_agree terse_world 5 (plan_of plain_specs) hello)
    as (g & q & Hg & Hq & _ & Hv & Ho & _); [lia|reflexivity|reflexivity|].
  exists g, q. split; [exact Hg|]. split; [exact Hq|]. split; [exact Ho|].
  split; [|exact Hv].
  vm_compute in Hg. injection Hg as <-. reflexivity.
Defined.

Section Counting.
Lemma count_rounds_other step k :
  String.eqb "build_messages" step = false ->
  String.eqb "call_provider" step = false ->
  String.eqb "validate_response" step = false ->
  count_steps step (rounds_steps k) = 0.
Proof.
  intros H1 H2 H3. induction k as [|k IH]; [reflexivity|].
  cbn [rounds_steps]. rewrite count_steps_app, IH. unfold round_steps. cbn [count_steps].
  now rewrite H1, H2, H3.
Qed.
End Counting.

(** X3. Where they differ: on a spec whose data source list is not
    empty but has no enabled entry, the sequential path runs
    QUERY_DATA_SOURCES once and the graph does not run it, so the two
    traces returned to the caller differ. *)
Theorem graph_sequential_differ (env : Env) (fuel : nat)
    (plan : ExecutionPlan) (req : BrainRequest) (on_graph sequentially : WorkflowState) :
  data_sources (optimized_specs plan) <> [] ->
  existsb enabled (data_sources (optimized_specs plan)) = false ->
  run_workflow env (_build_graph true) fuel plan req = Some on_graph ->
  run_workflow env (_build_graph false) fuel plan req = Some sequentially ->
  invocations "query_data_sources" on_graph = 0
  /\ invocations "query_data_sources" sequentially = 1
  /\ meta_execution_steps (result_metadata (determine_outcome env on_graph))
     <> meta_execution_steps (result_metadata (determine_outcome env sequentially)).
Proof.
  intros Hne Hoff Hg Hs.
  destruct (run_workflow_steps env true fuel plan req on_graph Hg) as [Tg _].
  destruct (run_workflow_steps env false fuel plan req sequentially Hs) as [Ts _].
  assert (invocations "query_data_sources" on_graph = 0) as Cg.
  { unfold invocations. rewrite Tg, !count_steps_app, count_rounds_other by reflexivity.
    unfold prologue_steps, runs_data_sources. rewrite Hoff.
    rewrite !count_steps_app. destruct (runs_tools true _); reflexivity. }
  assert (invocations "query_data_sources" sequentially = 1) as Cs.
  { unfold invocations. rewrite Ts, !count_steps_app, count_rounds_other by reflexivity.
    unfold prologue_steps, runs_data_sources.
    destruct (data_sources (optimized_specs plan)); [congruence|].
    rewrite !count_steps_app. destruct (runs_tools false _); reflexivity. }
  split; [exact Cg|]. split; [exact Cs|].
  unfold determine_outcome. cbn [result_metadata meta_execution_steps].
  intros Heq. unfold invocations in Cg, Cs. rewrite Heq in Cg. lia.
Qed.

Lemma graph_sequential_differ_witness :
  exists on_graph sequentially,
    run_workflow good_world (_build_graph true) 5
      (plan_of (specs_with [vector_source "off" false])) hello = Some on_graph
    /\ run_workflow good_world (_build_graph false) 5
         (plan_of (specs_with [vector_source "off" false])) hello = Some sequentially
    /\ invocations "query_data_sources" on_graph = 0
    /\ invocations "query_data_sources" sequentially = 1.
Proof.
  destruct (run_workflow good_world (_build_graph true) 5
              (plan_of (specs_with [vector_source "off" false])) hello)
    as [g|] eqn:Hg; [|vm_compute in Hg; discriminate].
  destruct (run_workflow good_world (_build_graph false) 5
              (plan_of (specs_with [vector_source "off" false])) hello)
    as [q|] eqn:Hq; [|vm_compute in Hq; discriminate].
  exists g, q. split; [reflexivity|]. split; [reflexivity|].
  destruct (graph_sequential_differ good_world 5
              (plan_of (specs_with [vector_source "off" false])) hello g q
              ltac:(discriminate) eq_refl Hg Hq) as (H1 & H2 & _).
  split; [exact H1|exact H2].
Defined.

(** *** The retrieval nodes *)

Section Retrieval.
Variable env : Env.

Lemma same_retrieval_trans s1 s2 s3 :
  same_retrieval s1 s2 -> same_retrieval s2 s3 -> same_retrieval s1 s3.
Proof. unfold same_retrieval; intuition congruence. Qed.

Lemma build_messages_retrieval s : same_retrieval s (_build_messages_node env s).
Proof.
  unfold same_retrieval, _build_messages_node.
  destruct (build_messages _ _); [cbn; tauto|].
  destruct (messages _); cbn; tauto.
Qed.

Lemma call_provider_retrieval s : same_retrieval s (_call_provider_node env s).
Proof.
  unfold same_retrieval, _call_provider_node, provider_call_failed.
  repeat (break_match; cbn); try tauto.
Qed.

Lemma validate_response_retrieval s : same_retrieval s (_validate_response_node env s).
Proof.
  unfold same_retrieval, _validate_response_node.
  repeat (break_match; cbn); try tauto.
Qed.

Lemma route_after_validation_retrieval s :
  same_retrieval s (snd (_route_after_validation s)).
Proof.
  unfold same_retrieval, _route_after_validation.
  repeat (break_match; cbn); try tauto.
Qed.

Lemma finalize_retrieval s : same_retrieval s (_finalize_node env s).
Proof.
  unfold same_retrieval, _finalize_node.
  repeat (break_match; cbn); try tauto.
Qed.

Lemma attempt_retrieval s : same_retrieval s (attempt env s).
Proof.
  rewrite attempt_eq.
  eapply same_retrieval_trans; [apply build_messages_retrieval|].
  eapply same_retrieval_trans; [apply call_provider_retrieval|].
  apply validate_response_retrieval.
Qed.

Lemma retry_loop_retrieval fuel : forall s s',
  retry_loop env fuel s = Some s' -> same_retrieval s s'.
Proof.
  induction fuel as [|fuel IH]; intros s s' Hrun; [discriminate|].
  destruct (route_is_finalize_or_retry (attempt env s)) as [Hr|[Hr Hs]].
  - rewrite (retry_loop_finalize env fuel s Hr) in Hrun. injection Hrun as <-.
    eapply same_retrieval_trans; [apply attempt_retrieval|].
    apply route_after_validation_retrieval.
  - rewrite (retry_loop_retry env fuel s Hr), Hs in Hrun.
    eapply same_retrieval_trans; [apply attempt_retrieval|]. now apply IH.
Qed.

(** EXECUTE_TOOLS: one record for each enabled tool. *)
Lemma execute_tool_fold l : forall results,
  fold_left (fun results t => execute_tool env t results) l results
  = results ++ map (tool_record env) (List.filter tool_enabled l).
Proof.
  induction l as [|t rest IH]; intros results; cbn [fold_left List.filter map].
  - now rewrite app_nil_r.
  - rewrite IH. unfold execute_tool, tool_record.
    destruct (tool_enabled t); cbn [negb map]; [|reflexivity].
    destruct (check_tool_available env (name t)); now rewrite <- app_assoc.
Qed.

Lemma execute_tools_unfold s :
  _execute_tools_node env s
  = set_tool_results (map (tool_record env) (List.filter tool_enabled (tools (specs s))))
      (push_step "execute_tools" s).
Proof.
  unfold _execute_tools_node. cbv zeta.
  change (specs (push_step "execute_tools" s)) with (specs s).
  now rewrite execute_tool_fold.
Qed.

Lemma filter_none {A} (f : A -> bool) l : existsb f l = false -> List.filter f l = [].
Proof.
  induction l as [|x l IH]; [reflexivity|]. cbn. destruct (f x); [discriminate|]. exact IH.
Qed.

Lemma all_appended_results_none req l : forall i,
  existsb enabled l = false -> all_appended_results env req i l = [].
Proof.
  induction l as [|d l IH]; intros i H; [reflexivity|].
  cbn in H. apply orb_false_iff in H as [Hd Hl].
  cbn [all_appended_results]. rewrite appended_results_disabled, IH by assumption.
  reflexivity.
Qed.

Lemma query_data_sources_tools s :
  tool_results (_query_data_sources_node env s) = tool_results s.
Proof.
  unfold _query_data_sources_node.
  destruct (query_data_sources_from _ _ _ _ _); reflexivity.
Qed.

(** What the retrieval nodes leave at the head of the loop, on either
    path. *)
Lemma prologue_retrieval langgraph s :
  data_source_results s = [] -> tool_results s = [] ->
  data_source_results (prologue langgraph env s)
  = all_appended_results env (request s) 0 (data_sources (specs s))
  /\ tool_results (prologue langgraph env s)
     = map (tool_record env) (List.filter tool_enabled (tools (specs s))).
Proof.
  intros Hd Ht.
  destruct (query_data_sources_control env (_initialize_node s)) as (_ & _ & _ & Hs & _).
  pose proof (query_data_sources_results env (_initialize_node s)) as Hq.
  pose proof (query_data_sources_tools (_initialize_node s)) as Hqt.
  change (request (_initialize_node s)) with (request s) in Hq.
  change (specs (_initialize_node s)) with (specs s) in *.
  change (tool_results (_initialize_node s)) with (tool_results s) in Hqt.
  destruct langgraph; cbn [prologue].
  - unfold graph_prologue. cbv zeta. change (specs (_initialize_node s)) with (specs s).
    rewrite Hs.
    destruct (existsb enabled (data_sources (specs s))) eqn:Ed;
      destruct (existsb tool_enabled (tools (specs s))) eqn:Et;
      rewrite ?execute_tools_unfold; cbn [data_source_results tool_results set_tool_results push_step];
      rewrite ?Hs, ?Hq, ?Hqt, ?(filter_none _ _ Et), ?(all_appended_results_none _ _ 0 Ed);
      cbn [map]; auto.
  - unfold sequential_prologue. cbv zeta. change (specs (_initialize_node s)) with (specs s).
    destruct (data_sources (specs s)) as [|d ds] eqn:Ed; cbv iota.
    + change (specs (_initialize_node s)) with (specs s).
      destruct (tools (specs s)) as [|t ts] eqn:Et; cbv iota.
      * cbn. auto.
      * rewrite execute_tools_unfold. change (specs (_initialize_node s)) with (specs s).
        rewrite Et. cbn [data_source_results tool_results set_tool_results push_step].
        cbn [all_appended_results]. auto.
    + rewrite Hs.
      destruct (tools (specs s)) as [|t ts] eqn:Et; cbv iota.
      * split; [exact Hq|]. etransitivity; [exact Hqt|]. exact Ht.
      * rewrite execute_tools_unfold, Hs.
        rewrite Et. cbn [data_source_results tool_results set_tool_results push_step].
        split; [exact Hq|reflexivity].
Qed.

(** QUERY_DATA_SOURCES only appends to the errors. *)
Lemma query_data_sources_from_errors req l : forall i results errs,
  snd (query_data_sources_from env req i l (results, errs))
  = errs ++ all_appended_errors env req i l.
Proof.
  induction l as [|ds_spec rest IH]; intros i results errs; cbn [query_data_sources_from].
  - cbn. now rewrite app_nil_r.
  - rewrite query_data_source_appends, IH. cbn [all_appended_errors].
    now rewrite app_assoc.
Qed.

Lemma query_data_sources_errors s :
  errors (_query_data_sources_node env s)
  = errors s ++ all_appended_errors env (request s) 0 (data_sources (specs s)).
Proof.
  unfold _query_data_sources_node.
  change (request (push_step "query_data_sources" s)) with (request s).
  change (specs (push_step "query_data_sources" s)) with (specs s).
  change (errors (push_step "query_data_sources" s)) with (errors s).
  pose proof (query_data_sources_from_errors (request s) (data_sources (specs s)) 0 []
                (errors s)) as H.
  destruct (query_data_sources_from env (request s) 0 (data_sources (specs s)) ([], errors s))
    as [results errs].
  cbn [snd] in H. cbn. exact H.
Qed.

(** What one entry adds: at most one record and at most one error. *)
Lemma appended_cases req i ds_spec :
  let r := appended_results env req i ds_spec in
  let e := appended_errors env req i ds_spec in
  length r <= 1
  /\ (e = [] \/ exists msg, e = ["DS Error: " +:+ msg])
  /\ (enabled ds_spec = false -> r = [] /\ e = []).
Proof.
  cbv zeta. unfold appended_results, appended_errors, query_data_source.
  destruct (enabled ds_spec); cbn [negb].
  2:{ cbn. repeat split; auto. }
  repeat (break_match; cbn [fst snd length app]);
    (split; [lia|]); (split; [first [left; reflexivity|right; eexists; reflexivity]|]);
    discriminate.
Qed.
End Retrieval.

(** X4. EXECUTE_TOOLS leaves one record for each enabled tool of the
    spec, in the order of the list: "executed" with the placeholder
    result when the registry has the tool, the error "Not available"
    otherwise.  It runs no tool and writes no error. *)
Theorem execute_tools_records (env : Env) (s : WorkflowState) :
  tool_results (_execute_tools_node env s)
  = map (tool_record env) (List.filter tool_enabled (tools (specs s)))
  /\ errors (_execute_tools_node env s) = errors s
  /\ data_source_results (_execute_tools_node env s) = data_source_results s
  /\ final_content (_execute_tools_node env s) = final_content s.
Proof. rewrite execute_tools_unfold. repeat split; reflexivity. Qed.

(** X5. QUERY_DATA_SOURCES isolates the failure of an entry: the errors
    after the node are the errors before it followed by what each entry
    adds, in the order of the list; an entry adds at most one record and
    at most one error, of the form "DS Error: ..."; a disabled entry
    adds neither; and the records are those of the entries taken one by
    one, so that a failing entry does not change what the others
    leave. *)
Theorem query_data_sources_isolation (env : Env) (s : WorkflowState) :
  errors (_query_data_sources_node env s)
  = errors s ++ all_appended_errors env (request s) 0 (data_sources (specs s))
  /\ data_source_results (_query_data_sources_node env s)
     = all_appended_results env (request s) 0 (data_sources (specs s))
  /\ forall i ds_spec,
       length (appended_results env (request s) i ds_spec) <= 1
       /\ (appended_errors env (request s) i ds_spec = []
           \/ exists msg, appended_errors env (request s) i ds_spec = ["DS Error: " +:+ msg])
       /\ (enabled ds_spec = false ->
           appended_results env (request s) i ds_spec = []
           /\ appended_errors env (request s) i ds_spec = []).
Proof.
  split; [apply query_data_sources_errors|].
  split; [apply query_data_sources_results|].
  intros i ds_spec.
  destruct (appended_cases env (request s) i ds_spec) as (H1 & H2 & H3).
  auto.
Qed.

(** X6. A vector store whose [close] raises after a query that returned:
    the record of the query is kept and the exception is logged as a
    "DS Error", so the entry leaves both a result and an error. *)
Theorem close_failure_keeps_result (env : Env) (req : BrainRequest) (i : nat)
    (ds_spec : DataSourceSpec) (docs : list Doc) (msg : string) :
  enabled ds_spec = true -> source_type ds_spec = VECTOR_DB ->
  check_data_source_available env "vector_db" = true ->
  vector_initialize env i (config ds_spec) = Ok true ->
  vector_query env i (query_text req ds_spec) (dict_get "filter" (config ds_spec))
    (query_limit ds_spec) = Ok docs ->
  vector_close env i = Raise msg ->
  appended_results env req i ds_spec = [SourceResults "vector_db" docs (length docs)]
  /\ appended_errors env req i ds_spec = ["DS Error: " +:+ msg].
Proof.
  intros He Ht Ha Hi Hq Hc.
  unfold appended_results, appended_errors, query_data_source.
  rewrite He, Ht. cbn [negb DataSourceType_value].
  change (String.eqb "vector_db" "vector_db") with true. cbv iota.
  rewrite Ha, Hi. fold (query_text req ds_spec). fold (query_limit ds_spec).
  rewrite Hq, Hc. split; reflexivity.
Qed.

Lemma close_failure_keeps_result_witness :
  appended_results leaky_store_world hello 0 (vector_source "q" true)
  = [SourceResults "vector_db"
       [{| doc_content := "doc 0 for q"; doc_source := "vector_db" |}] 1]
  /\ appended_errors leaky_store_world hello 0 (vector_source "q" true)
     = ["DS Error: close failed"].
Proof.
  apply (close_failure_keeps_result leaky_store_world hello 0 (vector_source "q" true)
           [{| doc_content := "doc 0 for q"; doc_source := "vector_db" |}] "close failed");
    reflexivity.
Defined.

(** *** What a run reports *)

Section Accepted.
Variable env : Env.

(** The loop leaves through the router, after a round. *)
Lemma retry_loop_last fuel : forall s s',
  retry_loop env fuel s = Some s' ->
  exists s0, s' = snd (_route_after_validation (attempt env s0)).
Proof.
  induction fuel as [|fuel IH]; intros s s' Hrun; [discriminate|].
  destruct (route_is_finalize_or_retry (attempt env s)) as [Hr|[Hr Hs]].
  - rewrite (retry_loop_finalize env fuel s Hr) in Hrun. injection Hrun as <-. now exists s.
  - rewrite (retry_loop_retry env fuel s Hr) in Hrun. eauto.
Qed.

(** The validation node does not touch the response. *)
Lemma validate_response_content s :
  final_content (_validate_response_node env s) = final_content s
  /\ llm_response (_validate_response_node env s) = llm_response s.
Proof.
  unfold _validate_response_node.
  repeat (break_match; cbn); try tauto.
Qed.

Lemma low_confidence (q : Q) : (q <= 0.5)%Q -> (0.75 <= q)%Q -> False.
Proof. intros H1 H2. apply (Qle_not_lt _ _ (Qle_trans _ _ _ H2 H1)). reflexivity. Qed.

(** A response the rule-based stage lets through has three spaces. *)
Lemma quality_accepts_substance response user_message s vr :
  call_validate_response_quality env response user_message s = Ok vr ->
  (0.75 <= v_confidence vr)%Q ->
  (count_char " " response <? 3) = false.
Proof.
  intros Hq Hc. apply quality_returned in Hq as [_ ->].
  rewrite quality_unfold in Hc.
  destruct (len (strip response) <? 10).
  { exfalso. revert Hc. apply Qlt_not_le. reflexivity. }
  destruct (count_char " " response <? 3); [|reflexivity].
  exfalso. revert Hc. apply Qlt_not_le. reflexivity.
Qed.

Lemma three_spaces_valid c :
  truthy c = true -> startswith c "Error:" = false ->
  (count_char " " c <? 3) = false -> has_valid_content c = true.
Proof.
  intros Ht He Hs. unfold has_valid_content. rewrite Ht, He. cbn [andb negb].
  rewrite andb_true_r. apply negb_true_iff.
  destruct (String.eqb c "No response generated") eqn:E; [|reflexivity].
  apply String.eqb_eq in E. subst c. discriminate.
Qed.

(** A confidence of 0.75 or more after the validation node: the content
    is one [execute_plan] counts as valid. *)
Lemma accepted_content s :
  (0.75 <= confidence_score (_validate_response_node env s))%Q ->
  exists c, final_content s = Some c /\ has_valid_content c = true.
Proof.
  intros Hc.
  destruct (validate_response_cases env s)
    as [(_ & Hz & _)|[(vr & Hu & Hq & Hv & _)|(e & _ & _ & Hh & _)]]; cbv zeta in *.
  - rewrite Hz in Hc. exfalso. revert Hc. apply Qlt_not_le. reflexivity.
  - rewrite Hv in Hc. unfold usable in Hu. apply andb_true_iff in Hu as [Ht He].
    apply negb_true_iff in He.
    destruct (final_content s) as [c|]; [|discriminate]. cbn [default] in *.
    exists c. split; [reflexivity|].
    apply three_spaces_valid; auto.
    eapply quality_accepts_substance; eauto.
  - rewrite Hh in Hc. exfalso. revert Hc. apply Qlt_not_le. reflexivity.
Qed.

Lemma reported_content_some s c : final_content s = Some c -> reported_content s = c.
Proof. intros H. unfold reported_content. now rewrite H. Qed.

Lemma accepted_attempt s0 :
  (0.75 <= confidence_score (attempt env s0))%Q ->
  exists c, final_content (attempt env s0) = Some c /\ has_valid_content c = true.
Proof.
  rewrite attempt_eq. intros Hc.
  destruct (accepted_content _ Hc) as (c & Hf & Hv).
  destruct (validate_response_content (_call_provider_node env (_build_messages_node env s0)))
    as [Hsame _].
  exists c. split; [congruence|exact Hv].
Qed.

(** What FINALIZE hands over is valid content. *)
Lemma finalize_valid_content s0 :
  has_valid_content
    (reported_content
       (_finalize_node env (snd (_route_after_validation (attempt env s0))))) = true.
Proof.
  destruct (route_after_validation_frame (attempt env s0))
    as (_ & _ & _ & _ & _ & Rc & Rf & _). cbv zeta in Rc, Rf.
  destruct (finalize_contract env (snd (_route_after_validation (attempt env s0))))
    as (_ & _ & Hlow & Hhigh & _). cbv zeta in Hlow, Hhigh.
  destruct (Qlt_le_dec (confidence_score (snd (_route_after_validation (attempt env s0)))) 0.75)
    as [Hlt|Hge].
  - destruct (Hlow Hlt) as [Hf _]. rewrite (reported_content_some _ _ Hf). reflexivity.
  - destruct (Hhigh Hge) as [Hf _]. rewrite Rc in Hge. rewrite Rf in Hf.
    destruct (accepted_attempt _ Hge) as (c & Hc & Hvalid).
    rewrite Hc in Hf. now rewrite (reported_content_some _ _ Hf).
Qed.

(** A run that ends reports success. *)
Lemma finished_run_success langgraph fuel plan req final :
  run_workflow env (_build_graph langgraph) fuel plan req = Some final ->
  result_success (determine_outcome env final) = true.
Proof.
  intros Hrun.
  pose proof (finished_status env 5 final (run_workflow_finished env _ _ _ _ _ Hrun)) as Hst.
  destruct (run_workflow_loop env langgraph fuel plan req final Hrun)
    as (s' & v & Hloop & -> & _).
  destruct (retry_loop_last _ _ _ Hloop) as (s0 & ->).
  destruct (set_is_validated_frame env v
              (_finalize_node env (snd (_route_after_validation (attempt env s0)))))
    as (_ & _ & _ & _ & _ & _ & _ & Fst & _ & _ & Fo).
  rewrite Fst in Hst. rewrite Fo.
  rewrite determine_outcome_success, (finalize_valid_content s0), Hst.
  now rewrite orb_true_r.
Qed.
End Accepted.

(** X7. Every run that ends reports [success = true], whatever the
    provider did: FINALIZE hands over either the fallback message or a
    response that was accepted, and both are non-empty, are not the
    placeholder "No response generated" (which has two spaces and is
    rejected as lacking substance) and do not start with "Error:"; and
    the status is one of the two completed variants. *)
Theorem run_reports_success (env : Env) (langgraph : bool) (fuel : nat)
    (plan : ExecutionPlan) (req : BrainRequest) (result : ExecutionResult) :
  execute_plan env (_build_graph langgraph) fuel plan req = Some result ->
  result_success result = true
  /\ has_valid_content (result_content result) = true
  /\ status_completed (result_status result) = true.
Proof.
  unfold execute_plan.
  destruct (run_workflow env (_build_graph langgraph) fuel plan req) as [final|] eqn:Hrun;
    [|discriminate].
  intros [= <-].
  pose proof (finished_status env 5 final (run_workflow_finished env _ _ _ _ _ Hrun)) as Hst.
  destruct (run_workflow_loop env langgraph fuel plan req final Hrun)
    as (s' & v & Hloop & -> & _).
  destruct (retry_loop_last env _ _ _ Hloop) as (s0 & ->).
  destruct (set_is_validated_frame env v
              (_finalize_node env (snd (_route_after_validation (attempt env s0)))))
    as (_ & _ & _ & _ & _ & _ & _ & Fst & _ & _ & Fo).
  rewrite Fst in Hst. rewrite Fo.
  pose proof (finalize_valid_content env s0) as Hv.
  rewrite determine_outcome_success.
  change (result_content (determine_outcome env ?f)) with (reported_content f).
  change (result_status (determine_outcome env ?f)) with (status f).
  rewrite Hv, Hst, orb_true_r. auto.
Qed.

Lemma run_reports_success_witness :
  exists result,
    execute_plan failing_world graph_engine 0 (plan_of plain_specs) hello = Some result
    /\ result_success result = true.
Proof.
  destruct (execute_plan failing_world graph_engine 0 (plan_of plain_specs) hello)
    as [result|] eqn:Hrun; [|vm_compute in Hrun; discriminate].
  exists result. split; [reflexivity|].
  exact (proj1 (run_reports_success failing_world true 0 (plan_of plain_specs) hello result Hrun)).
Defined.

(** X8. The retrieval results of a run are fixed before the first round
    and are the same on both paths: in the final state
    [data_source_results] is what the entries of the spec leave, taken
    in order, and [tool_results] has one record for each enabled tool.
    No retry queries a data source or touches a tool record again. *)
Theorem retrieval_results_final (env : Env) (langgraph : bool) (fuel : nat)
    (plan : ExecutionPlan) (req : BrainRequest) (final : WorkflowState) :
  run_workflow env (_build_graph langgraph) fuel plan req = Some final ->
  data_source_results final
  = all_appended_results env req 0 (data_sources (optimized_specs plan))
  /\ tool_results final
     = map (tool_record env) (List.filter tool_enabled (tools (optimized_specs plan))).
Proof.
  intros Hrun.
  destruct (run_workflow_loop env langgraph fuel plan req final Hrun)
    as (s' & v & Hloop & -> & _).
  destruct (set_is_validated_frame env v (_finalize_node env s'))
    as (_ & _ & _ & _ & _ & _ & _ & _ & -> & -> & _).
  destruct (retry_loop_retrieval env _ _ _ Hloop) as [Hd Ht].
  destruct (finalize_retrieval env s') as [Fd Ft].
  destruct (prologue_retrieval env langgraph (initial_state env plan req) eq_refl eq_refl)
    as [Pd Pt].
  rewrite Fd, Ft, Hd, Ht, Pd, Pt. split; reflexivity.
Qed.

Lemma retrieval_results_final_witness :
  exists final,
    run_workflow terse_world sequential_engine 5 (plan_of tooled_specs) hello = Some final
    /\ tool_results final
       = [ToolExecuted "tavily_search" "executed" "Tool execution placeholder";
          ToolError "calculator" "Not available"].
Proof.
  destruct (run_workflow terse_world sequential_engine 5 (plan_of tooled_specs) hello)
    as [final|] eqn:Hrun; [|vm_compute in Hrun; discriminate].
  exists final. split; [reflexivity|].
  exact (proj2 (retrieval_results_final terse_world false 5 (plan_of tooled_specs) hello
                  final Hrun)).
Defined.

Section Ungraded.
Variable env : Env.
Hypothesis no_fault : forall n, quality_fault env n = None.

(** Without a grade the validator stops at the base confidence. *)
Lemma quality_ungraded response user_message s :
  grading_unavailable env (specs s) (validation_attempts s) ->
  (v_confidence (_validate_response_quality env response user_message s) <= 0.5)%Q.
Proof.
  intros Hg. rewrite quality_unfold.
  destruct (len (strip response) <? 10); [discriminate|].
  destruct (count_char " " response <? 3); [discriminate|].
  destruct (refusal response && (len response <? 100)); [discriminate|].
  rewrite llm_validation_skipped; [discriminate|].
  unfold grading_unavailable in Hg.
  destruct (provider (specs s)) as [p|]; [right|now left].
  exists p. split; [reflexivity|].
  destruct Hg as [H|[H|[H|[H|H]]]]; auto.
Qed.

Lemma attempt_ungraded s :
  grading_unavailable env (specs s) (validation_attempts s + 1) ->
  (confidence_score (attempt env s) <= 0.5)%Q.
Proof.
  intros Hg. rewrite attempt_eq.
  destruct (before_validation_control env s) as (Ha & _ & _ & Hs & _).
  destruct (validate_response_cases env (_call_provider_node env (_build_messages_node env s)))
    as [(_ & Hz & _)|[(vr & _ & Hq & Hv & _)|(e & _ & Hr & _)]]; cbv zeta in *.
  - rewrite Hz. discriminate.
  - rewrite Hv. apply quality_returned in Hq as [_ ->]. apply quality_ungraded.
    change (specs (validating ?x)) with (specs x).
    change (validation_attempts (validating ?x)) with (validation_attempts x + 1).
    now rewrite Hs, Ha.
  - apply quality_raises_iff in Hr. rewrite no_fault in Hr. discriminate.
Qed.

Lemma below_threshold (q : Q) : (q <= 0.5)%Q -> (q < 0.75)%Q.
Proof. intros H. eapply Qle_lt_trans; [exact H|reflexivity]. Qed.

(** When no round can be graded, the loop leaves by the ceiling. *)
Lemma retry_loop_exhausts m fuel : forall s s',
  loop_head m s ->
  (forall n, grading_unavailable env (specs s) n) ->
  retry_loop env fuel s = Some s' ->
  validation_attempts s' = m /\ (confidence_score s' <= 0.5)%Q.
Proof.
  induction fuel as [|fuel IH]; intros s s' Hh Hg Hrun; [discriminate|].
  pose proof (attempt_ungraded s (Hg _)) as Hc.
  assert (is_validated (attempt env s) = false) as Hv.
  { apply attempt_rejected; [now apply below_threshold|apply Hh|intros _; apply no_fault]. }
  destruct (route_after_validation_frame (attempt env s))
    as (Ra & Rm & _ & _ & _ & Rc & _). cbv zeta in Ra, Rm, Rc.
  pose proof (attempt_attempts env s) as Hatt.
  pose proof (attempt_max env s) as Hmax.
  pose proof Hh as Hh'.
  destruct Hh as (Hm & _ & Hlt & _).
  destruct (route_after_validation_cases (attempt env s))
    as [[Hr [Hval|Hle]]|(Hr & Hsame & _ & Hlt')].
  - congruence.
  - rewrite (retry_loop_finalize env fuel s Hr) in Hrun. injection Hrun as <-.
    rewrite Ra, Rc. split; [lia|exact Hc].
  - rewrite (retry_loop_retry env fuel s Hr), Hsame in Hrun.
    refine (IH _ _ _ _ Hrun).
    + destruct (route_after_attempt env m s Hh') as [[Hr' _]|(_ & _ & Hhead)];
        [rewrite Hr in Hr'; discriminate|exact Hhead].
    + intros n. rewrite attempt_eq.
      destruct (validate_response_frame env
                  (_call_provider_node env (_build_messages_node env s))) as (_ & -> & _).
      destruct (before_validation_control env s) as (_ & _ & _ & -> & _). apply Hg.
Qed.
End Ungraded.

(** X9. When no validation can be graded (the spec has no provider, or
    the grading provider cannot be created, initialised, called or
    closed) and the call of the validator does not raise, no response is
    ever accepted: the run, on the graph or with five rounds for the
    sequential loop, ends after all five attempts, and FINALIZE returns
    the fallback message with status "completed_with_errors", however
    good the answers of the provider were. *)
Theorem ungraded_run_falls_back (env : Env) (langgraph : bool) (fuel : nat)
    (plan : ExecutionPlan) (req : BrainRequest) :
  langgraph = true \/ 5 <= fuel ->
  (forall n, quality_fault env n = None) ->
  (forall n, grading_unavailable env (optimized_specs plan) n) ->
  exists final,
    run_workflow env (_build_graph langgraph) fuel plan req = Some final
    /\ validation_attempts final = 5
    /\ invocations "call_provider" final = 5
    /\ final_content final = Some (nth 0 fallback_messages "")
    /\ status final = "completed_with_errors"
    /\ (confidence_score final <= 0.5)%Q.
Proof.
  intros Hfuel Hf Hg.
  assert (exists final, run_workflow env (_build_graph langgraph) fuel plan req = Some final)
    as (final & Hrun).
  { destruct Hfuel as [->|Hfuel].
    - eexists. reflexivity.
    - destruct (run_workflow_finishes env langgraph fuel plan req Hfuel) as (final & H & _).
      now exists final. }
  exists final. split; [exact Hrun|].
  destruct (run_workflow_loop env langgraph fuel plan req final Hrun)
    as (s' & v & Hloop & -> & _).
  destruct (set_is_validated_frame env v (_finalize_node env s'))
    as (-> & _ & Fs & _ & -> & -> & _ & -> & _).
  unfold invocations. rewrite Fs. fold (invocations "call_provider" (_finalize_node env s')).
  pose proof (prologue_head env langgraph 5 _ (initial_loop_head env plan req)) as Hhead.
  pose proof (retry_loop_ready env 5 _ _ _ Hhead Hloop) as (_ & Hcalls & _).
  destruct (prologue_control env langgraph (initial_state env plan req))
    as (_ & _ & _ & Hs & _).
  destruct (retry_loop_exhausts env Hf 5 (if langgraph then 5 else fuel) _ s' Hhead)
    as [Ha Hc]; [|exact Hloop|].
  { intros n. rewrite Hs. apply Hg. }
  destruct (finalize_control env s') as (Fa & _).
  destruct (finalize_contract env s') as (Fc & _ & Hlow & _ & _ & Hst). cbv zeta in *.
  destruct (Hlow (below_threshold _ Hc)) as [Hcontent Herr].
  rewrite Fa, Fc, calls_finalize, <- calls_eq, Hcalls, Ha.
  repeat split; auto.
  apply Hst. rewrite Herr. now destruct (errors s').
Qed.

(** X9, witness: a world whose grading provider does not initialise,
    on the sequential path with fuel for five rounds. *)
Lemma ungraded_run_falls_back_witness :
  exists final,
    run_workflow ungraded_world sequential_engine 5 (plan_of plain_specs) hello = Some final
    /\ validation_attempts final = 5
    /\ final_content final = Some (nth 0 fallback_messages "").
Proof.
  destruct (ungraded_run_falls_back ungraded_world false 5 (plan_of plain_specs) hello)
    as (final & Hrun & H1 & _ & H3 & _).
  - right. lia.
  - intros n. reflexivity.
  - intros n. right. right. left. reflexivity.
  - exists final. split; [exact Hrun|]. split; [exact H1|exact H3].
Defined.

(** *** The messages sent to the provider *)

Section Messages.
Variable env : Env.

Lemma append_assoc (a b c : string) : (a +:+ b) +:+ c = a +:+ (b +:+ c).
Proof. induction a as [|x a IH]; [reflexivity|exact (f_equal (String x) IH)]. Qed.

(** [sep.join] of a list that ends with [x] ends with [x]. *)
Lemma join_snoc sep l x : exists before, join sep (l ++ [x]) = before +:+ x.
Proof.
  induction l as [|a l [before IH]].
  - exists "". reflexivity.
  - exists (a +:+ sep +:+ before). cbn [app join].
    destruct (l ++ [x]) as [|y r] eqn:E; [now destruct l|].
    rewrite IH, !append_assoc. reflexivity.
Qed.

Lemma build_messages_node_ok s msgs :
  build_messages env (push_step "build_messages" s) = Ok msgs ->
  _build_messages_node env s = set_messages msgs (push_step "build_messages" s).
Proof. intros H. unfold _build_messages_node. cbv zeta. now rewrite H. Qed.

(** With an agent context the messages are a function of the request,
    the spec and the retrieval results. *)
Lemma build_messages_agent s s' mc :
  messages_context (agent_metadata (specs s)) = Some mc ->
  messages_context_truthy mc = true ->
  request s' = request s -> specs s' = specs s -> same_retrieval s s' ->
  build_messages env s' = build_messages env s
  /\ exists msgs, build_messages env s = Ok msgs.
Proof.
  intros Hmc Ht Hr Hs [Hd Htl].
  unfold build_messages, _inject_context_messages, _format_data_source_context,
    _format_tool_context.
  rewrite Hr, Hs, Hd, Htl, Hmc, Ht. split; [reflexivity|eexists; reflexivity].
Qed.

Lemma push_step_retrieval step s : same_retrieval s (push_step step s).
Proof. split; reflexivity. Qed.

Lemma push_step_request step s : request (push_step step s) = request s.
Proof. reflexivity. Qed.

Lemma push_step_specs step s : specs (push_step step s) = specs s.
Proof. reflexivity. Qed.

Lemma attempt_frame s :
  specs (attempt env s) = specs s /\ request (attempt env s) = request s
  /\ same_retrieval s (attempt env s).
Proof.
  split; [|split; [|apply attempt_retrieval]]; rewrite attempt_eq;
    destruct (validate_response_frame env
                (_call_provider_node env (_build_messages_node env s))) as (_ & Hs & Hr);
    destruct (before_validation_control env s) as (_ & _ & _ & Hs0 & Hr0); congruence.
Qed.

Lemma same_retrieval_sym s s' : same_retrieval s s' -> same_retrieval s' s.
Proof. intros [H1 H2]. split; congruence. Qed.

(** The last message of a list that was built is the user's. *)
Lemma build_messages_last s msgs :
  build_messages env s = Ok msgs ->
  exists init c, msgs = init ++ [{| role := "user"; content := c |}]
                 /\ (c = message (request s)
                     \/ exists mc, messages_context (agent_metadata (specs s)) = Some mc
                                   /\ current_message mc = Some c).
Proof.
  unfold build_messages. cbv zeta.
  destruct (match messages_context (agent_metadata (specs s)) with
            | Some mc => if messages_context_truthy mc then Some mc else None
            | None => None
            end) as [mc|] eqn:Hmc.
  - intros [= <-].
    assert (messages_context (agent_metadata (specs s)) = Some mc) as Hsome.
    { destruct (messages_context (agent_metadata (specs s))) as [mc'|]; [|discriminate].
      destruct (messages_context_truthy mc'); congruence. }
    destruct (current_message mc) as [c|] eqn:Hc; cbn [opt_truthy default].
    + destruct (truthy c); eexists; eexists; (split; [reflexivity|]); [right|now left].
      exists mc. split; [exact Hsome|exact Hc].
    + eexists; eexists; (split; [reflexivity|]). now left.
  - destruct (if (0 <? validation_attempts s) && opt_truthy (validation_feedback s)
              then _ else _) as [parts|e]; cbn [bind]; [|discriminate].
    intros [= <-]. eexists. eexists. split; [reflexivity|now left].
Qed.

(** The user-context block shows the ACE score and nothing else. *)
Lemma user_context_prompt_extracted uc info :
  _extract_user_info_for_llm uc = Some info ->
  _build_user_context_prompt env info
  = match info_ace_score info with
    | Some ace => "User Context:" +:+ nl +:+ "- User ACE score: " +:+ str_float env ace
    | None => ""
    end.
Proof.
  unfold _extract_user_info_for_llm.
  destruct (negb (is_authenticated uc)); [discriminate|]. cbv zeta.
  destruct (1 <? _); [|discriminate]. intros [= <-].
  unfold _build_user_context_prompt. cbn [info_name info_email info_roles info_ace_score
    opt_truthy app].
  destruct (match user_profile uc with Some profile => ace_score profile | None => None end);
    reflexivity.
Qed.
End Messages.

(** X10. When the agent passes a [messages_context], BUILD_MESSAGES
    builds the messages from the request, the spec and the retrieval
    results only: the validation feedback and the previous response
    never reach the provider, and the round after a rejected response
    sends the very same messages again. *)
Theorem agent_retry_resends (env : Env) (s : WorkflowState) (mc : MessagesContext) :
  messages_context (agent_metadata (specs s)) = Some mc ->
  messages_context_truthy mc = true ->
  messages (_build_messages_node env (attempt env s))
  = messages (_build_messages_node env s)
  /\ forall attempts feedback previous,
       build_messages env
         (set_validation_attempts attempts
            (set_validation_feedback feedback (set_final_content previous s)))
       = build_messages env s.
Proof.
  intros Hmc Ht. split.
  - destruct (attempt_frame env s) as (Hs & Hr & Hret).
    destruct (build_messages_agent env (push_step "build_messages" s)
                (push_step "build_messages" (attempt env s)) mc Hmc Ht)
      as [Heq (msgs & Hok)].
    + now rewrite !push_step_request.
    + now rewrite !push_step_specs.
    + eapply same_retrieval_trans; [apply same_retrieval_sym, push_step_retrieval|].
      eapply same_retrieval_trans; [exact Hret|apply push_step_retrieval].
    + rewrite (build_messages_node_ok env s msgs Hok).
      rewrite (build_messages_node_ok env (attempt env s) msgs); [reflexivity|].
      now rewrite Heq.
  - intros attempts feedback previous.
    apply (build_messages_agent env s _ mc Hmc Ht); try reflexivity.
    split; reflexivity.
Qed.

Lemma agent_retry_resends_witness :
  messages (_build_messages_node terse_world
              (attempt terse_world (initial_state terse_world (plan_of agent_specs) hello)))
  = messages (_build_messages_node terse_world
                (initial_state terse_world (plan_of agent_specs) hello)).
Proof.
  exact (proj1 (agent_retry_resends terse_world
                  (initial_state terse_world (plan_of agent_specs) hello) chat_context
                  eq_refl eq_refl)).
Defined.

(** X11. Without an agent context, a retry (an attempt was made and the
    validation left feedback) sends exactly two messages: a system
    message that ends with the retry guidance, which quotes the previous
    response cut to 500 characters and the feedback, and the message of
    the user. *)
Theorem generic_retry_carries_feedback (env : Env) (s : WorkflowState)
    (previous why : string) :
  messages_context (agent_metadata (specs s)) = None ->
  0 < validation_attempts s ->
  validation_feedback s = Some why -> truthy why = true ->
  final_content s = Some previous ->
  exists before,
    build_messages env s
    = Ok [{| role := "system"; content := before +:+ retry_guidance previous why |};
          {| role := "user"; content := message (request s) |}].
Proof.
  intros Hmc Ha Hf Ht Hp. unfold build_messages. cbv zeta.
  rewrite Hmc, Hf, Hp. cbn [opt_truthy default]. rewrite Ht.
  apply Nat.ltb_lt in Ha. rewrite Ha. cbn [andb bind]. unfold id.
  match goal with
  | |- context [?parts ++ [retry_guidance previous why]] =>
      destruct (join_snoc (nl +:+ nl) parts (retry_guidance previous why)) as [before Hj];
      exists before; rewrite <- Hj;
      destruct (parts ++ [retry_guidance previous why]) as [|x r] eqn:E;
      [now destruct parts|reflexivity]
  end.
Qed.

Lemma generic_retry_carries_feedback_witness :
  exists before,
    build_messages terse_world (second_round terse_world "Hi :)" "Response is too short")
    = Ok [{| role := "system";
             content := before +:+ retry_guidance "Hi :)" "Response is too short" |};
          {| role := "user"; content := "Hello" |}].
Proof.
  apply (generic_retry_carries_feedback terse_world
           (second_round terse_world "Hi :)" "Response is too short")
           "Hi :)" "Response is too short"); solve [reflexivity | cbn; lia].
Defined.

(** X12. BUILD_MESSAGES never leaves the provider without messages, and
    the list it builds ends with a message of role "user" that carries
    the message of the request (or the [current_message] of the agent
    context when there is one). *)
Theorem build_messages_ends_with_user (env : Env) (s : WorkflowState) :
  messages (_build_messages_node env s) <> []
  /\ forall msgs,
       build_messages env (push_step "build_messages" s) = Ok msgs ->
       exists init c,
         messages (_build_messages_node env s)
         = init ++ [{| role := "user"; content := c |}]
         /\ (c = message (request s)
             \/ exists mc, messages_context (agent_metadata (specs s)) = Some mc
                           /\ current_message mc = Some c).
Proof.
  split.
  - unfold _build_messages_node. cbv zeta.
    destruct (build_messages env (push_step "build_messages" s)) as [msgs|e] eqn:Hb.
    + destruct (build_messages_last env _ _ Hb) as (init & c & -> & _).
      cbn. now destruct init.
    + destruct (messages (push_error e (push_step "build_messages" s))) eqn:Hm.
      * cbn. discriminate.
      * rewrite Hm. discriminate.
  - intros msgs Hb. rewrite (build_messages_node_ok env s msgs Hb).
    destruct (build_messages_last env _ _ Hb) as (init & c & -> & Hc).
    exists init, c. split; [reflexivity|exact Hc].
Qed.

(** X13. The user-context block that reaches the provider holds the ACE
    score and nothing else: the user id and the session id are
    extracted, and count towards the "more than one entry" test, but are
    never printed.  So for an authenticated user without an ACE score
    the block is empty, and on the generic path (no retrieval results,
    first round) the provider receives a system message with empty
    content before the message of the user. *)
Theorem empty_system_message (env : Env) (s : WorkflowState) :
  messages_context (agent_metadata (specs s)) = None ->
  validation_attempts s = 0 ->
  data_source_results s = [] -> tool_results s = [] ->
  is_authenticated (user_context (request s)) = true ->
  truthy (user_id (user_context (request s))) = true ->
  truthy (session_id (user_context (request s))) = true ->
  (forall profile, user_profile (user_context (request s)) = Some profile ->
                   ace_score profile = None) ->
  build_messages env s
  = Ok [{| role := "system"; content := "" |};
        {| role := "user"; content := message (request s) |}].
Proof.
  intros Hmc Ha Hd Htl Hauth Hu Hsid Hace.
  assert (match user_profile (user_context (request s)) with
          | Some profile => ace_score profile
          | None => None
          end = None) as Hnone.
  { destruct (user_profile (user_context (request s))) as [p|]; [now apply Hace|reflexivity]. }
  destruct (_extract_user_info_for_llm (user_context (request s))) as [info|] eqn:Hx.
  - pose proof (user_context_prompt_extracted env _ _ Hx) as Hp.
    assert (info_ace_score info = None) as Hi.
    { unfold _extract_user_info_for_llm in Hx. rewrite Hauth, Hnone in Hx.
      cbn [negb] in Hx. cbv zeta in Hx.
      destruct (1 <? _); [|discriminate]. now injection Hx as <-. }
    rewrite Hi in Hp.
    unfold build_messages, _format_data_source_context, _format_tool_context. cbv zeta.
    rewrite Hmc, Ha, Hx, Hd, Htl, Hp. reflexivity.
  - exfalso. unfold _extract_user_info_for_llm in Hx. rewrite Hauth, Hnone in Hx.
    cbn [negb] in Hx. cbv zeta in Hx. unfold keep_truthy, info_len in Hx.
    rewrite Hu, Hsid in Hx. discriminate.
Qed.

Lemma empty_system_message_witness :
  build_messages good_world (initial_state good_world (plan_of plain_specs) hello)
  = Ok [{| role := "system"; content := "" |}; {| role := "user"; content := "Hello" |}].
Proof.
  apply (empty_system_message good_world
           (initial_state good_world (plan_of plain_specs) hello));
    try reflexivity.
  intros profile [=].
Defined.

(** *** The outcomes of the provider call *)

Section ProviderOutcomes.
Variable env : Env.

Lemma provider_call_failed_unfold e s :
  provider_call_failed e s
  = set_final_content (Some ("Error calling provider: " +:+ e)) (push_error e s).
Proof. reflexivity. Qed.

(** The answer of CALL_PROVIDER to a failure the provider reports. *)
Lemma call_provider_reported s p r :
  provider (specs s) = Some p ->
  create_provider env (validation_attempts s) p = Ok tt ->
  provider_initialize env (validation_attempts s) = Ok true ->
  generate_response env (validation_attempts s) (messages s) p = Ok r ->
  provider_close env (validation_attempts s) = Ok tt ->
  success r = false ->
  _call_provider_node env s
  = set_final_content
      (Some ("Error: " +:+ default "Unknown provider error" (metadata_error r)))
      (push_error (default "Unknown provider error" (metadata_error r))
         (set_llm_response (Some r) (push_step "call_provider" s))).
Proof.
  intros Hp Hc Hi Hg Hcl Hs. unfold _call_provider_node.
  change (specs (push_step "call_provider" s)) with (specs s).
  change (validation_attempts (push_step "call_provider" s)) with (validation_attempts s).
  change (messages (push_step "call_provider" s)) with (messages s).
  rewrite Hp, Hc, Hi, Hg, Hs, Hcl. reflexivity.
Qed.

(** The answer of CALL_PROVIDER to an exception. *)
Lemma call_provider_raised s e :
  provider_raises env s e ->
  final_content (_call_provider_node env s) = Some ("Error calling provider: " +:+ e)
  /\ exists l, errors (_call_provider_node env s) = errors s ++ l ++ [e].
Proof.
  unfold provider_raises, _call_provider_node. cbv zeta.
  change (specs (push_step "call_provider" s)) with (specs s).
  change (validation_attempts (push_step "call_provider" s)) with (validation_attempts s).
  change (messages (push_step "call_provider" s)) with (messages s).
  destruct (provider (specs s)) as [p|]; [|intros ->; split; [reflexivity|now exists []]].
  destruct (create_provider env (validation_attempts s) p) as [[]|e1];
    [|intros ->; split; [reflexivity|now exists []]].
  destruct (provider_initialize env (validation_attempts s)) as [[|]|e2];
    [| intros ->; split; [reflexivity|now exists []]
     | intros ->; split; [reflexivity|now exists []]].
  destruct (provider_close env (validation_attempts s)) as [[]|e3];
    destruct (generate_response env (validation_attempts s) (messages s) p) as [r|e4];
    try (intros ->); try contradiction.
  - split; [reflexivity|now exists []].
  - destruct (success r); (split; [reflexivity|]).
    + now exists [].
    + eexists [_]. cbn. now rewrite <- app_assoc.
  - split; [reflexivity|now exists []].
Qed.

Lemma usable_exception_text e : usable (Some ("Error calling provider: " +:+ e)) = true.
Proof. reflexivity. Qed.

Lemma not_usable_error_text e : usable (Some ("Error: " +:+ e)) = false.
Proof. reflexivity. Qed.
End ProviderOutcomes.

(** X14. A failure the provider reports ([success] false in its answer)
    is written as "Error: ..." and recorded in the errors; the
    validation node then stops at its first test: confidence 0, the
    fixed feedback, no call of the validator, and the acceptance flag
    left as it was. *)
Theorem provider_failure_not_graded (env : Env) (s : WorkflowState)
    (p : ProviderSpec) (r : LLMResponse) :
  provider (specs s) = Some p ->
  create_provider env (validation_attempts s) p = Ok tt ->
  provider_initialize env (validation_attempts s) = Ok true ->
  generate_response env (validation_attempts s) (messages s) p = Ok r ->
  provider_close env (validation_attempts s) = Ok tt ->
  success r = false ->
  let err := default "Unknown provider error" (metadata_error r) in
  let s' := _validate_response_node env (_call_provider_node env s) in
  final_content s' = Some ("Error: " +:+ err)
  /\ errors s' = errors s ++ [err]
  /\ confidence_score s' = 0%Q
  /\ validation_feedback s' = Some "Response generation failed or returned error"
  /\ is_validated s' = is_validated s.
Proof.
  intros Hp Hc Hi Hg Hcl Hs. cbv zeta.
  pose proof (call_provider_reported env s p r Hp Hc Hi Hg Hcl Hs) as Hcall.
  destruct (validate_response_content env (_call_provider_node env s)) as [Hf _].
  destruct (validate_response_cases env (_call_provider_node env s))
    as [(_ & Hz & Hv & Hfb & He)|[(vr & Hu & _)|(e & Hu & _)]]; cbv zeta in *.
  - rewrite Hf, Hz, Hv, Hfb, He, Hcall. repeat split; reflexivity.
  - rewrite Hcall in Hu. discriminate.
  - rewrite Hcall in Hu. discriminate.
Qed.

Lemma provider_failure_not_graded_witness :
  confidence_score
    (_validate_response_node failing_world
       (_call_provider_node failing_world
          (initial_state failing_world (plan_of plain_specs) hello))) = 0%Q
  /\ final_content
       (_validate_response_node failing_world
          (_call_provider_node failing_world
             (initial_state failing_world (plan_of plain_specs) hello)))
     = Some "Error: quota exceeded".
Proof.
  destruct (provider_failure_not_graded failing_world
              (initial_state failing_world (plan_of plain_specs) hello) openai
              {| success := false; response_content := Some "";
                 metadata_error := Some "quota exceeded" |}
              eq_refl eq_refl eq_refl eq_refl eq_refl eq_refl) as (H1 & _ & H3 & _).
  split; [exact H3|exact H1].
Defined.

(** X15. An exception in the provider call (no provider in the spec, a
    provider that cannot be created or initialised, a call or a [close]
    that raises) is written as "Error calling provider: ...".  That text
    does not start with "Error:", so the validation node does not stop
    at its first test: it hands the text to the validator like a
    response, takes the confidence the validator gives, and accepts the
    text when that confidence reaches 0.75. *)
Theorem provider_exception_is_graded (env : Env) (s : WorkflowState) (e : string) :
  provider_raises env s e ->
  let text := "Error calling provider: " +:+ e in
  let s1 := _call_provider_node env s in
  final_content s1 = Some text
  /\ usable (final_content s1) = true
  /\ forall vr,
       call_validate_response_quality env text (message (request s1)) (validating s1) = Ok vr ->
       confidence_score (_validate_response_node env s1) = v_confidence vr
       /\ is_validated (_validate_response_node env s1) = Qgeb (v_confidence vr) 0.75
       /\ final_content (_validate_response_node env s1) = Some text.
Proof.
  intros Hr. cbv zeta.
  destruct (call_provider_raised env s e Hr) as [Hf _].
  split; [exact Hf|]. split; [now rewrite Hf|].
  intros vr Hq.
  destruct (validate_response_content env (_call_provider_node env s)) as [Hsame _].
  destruct (validate_response_cases env (_call_provider_node env s))
    as [(Hu & _)|[(vr' & _ & Hq' & Hc & Hv & _)|(e' & _ & Hq' & _)]]; cbv zeta in *.
  - rewrite Hf in Hu. discriminate.
  - rewrite Hf in Hq'. cbn [default] in Hq'. unfold id in Hq'.
    assert (vr' = vr) as -> by congruence.
    rewrite Hc, Hv, Hsame, Hf. auto.
  - rewrite Hf in Hq'. cbn [default] in Hq'. unfold id in Hq'. congruence.
Qed.

Lemma provider_exception_is_graded_witness :
  is_validated
    (_validate_response_node unreachable_world
       (_call_provider_node unreachable_world
          (initial_state unreachable_world (plan_of plain_specs) hello))) = true
  /\ final_content
       (_validate_response_node unreachable_world
          (_call_provider_node unreachable_world
             (initial_state unreachable_world (plan_of plain_specs) hello)))
     = Some "Error calling provider: connection reset".
Proof.
  destruct (provider_exception_is_graded unreachable_world
              (initial_state unreachable_world (plan_of plain_specs) hello)
              "connection reset" eq_refl) as (_ & _ & H).
  destruct (call_validate_response_quality unreachable_world
              ("Error calling provider: " +:+ "connection reset")
              (message (request (_call_provider_node unreachable_world
                 (initial_state unreachable_world (plan_of plain_specs) hello))))
              (validating (_call_provider_node unreachable_world
                 (initial_state unreachable_world (plan_of plain_specs) hello))))
    as [vr|e] eqn:Hq; [|vm_compute in Hq; discriminate].
  destruct (H vr eq_refl) as (_ & Hv & Hf).
  split; [|exact Hf].
  rewrite Hv. vm_compute in Hq. injection Hq as <-. reflexivity.
Defined.

(** *** The guarantee of the rate limiter *)

Section RateLimitGuarantee.
Import Guardrails.

Lemma filter_length_le {A} (p q : A -> bool) l :
  (forall x, In x l -> p x = true -> q x = true) ->
  length (List.filter p l) <= length (List.filter q l).
Proof.
  induction l as [|x l IH]; intros H; [reflexivity|]. cbn [List.filter].
  assert (length (List.filter p l) <= length (List.filter q l)) as Hl
    by (apply IH; intros y Hy; apply H; now right).
  destruct (p x) eqn:Hp.
  - rewrite (H x (or_introl eq_refl) Hp). cbn [length]. lia.
  - destruct (q x); cbn [length]; lia.
Qed.

Lemma prune_app now window l1 l2 :
  prune now window (l1 ++ l2) = prune now window l1 ++ prune now window l2.
Proof. unfold prune. apply List.filter_app. Qed.

(** Pruning later makes an earlier pruning redundant. *)
Lemma prune_prune now later window l :
  (now <= later)%Z -> prune later window (prune now window l) = prune later window l.
Proof.
  intros Hle. unfold prune. induction l as [|t l IH]; [reflexivity|]. cbn [List.filter].
  destruct (now - window <? t)%Z eqn:E1; cbn [List.filter]; rewrite IH; [reflexivity|].
  apply Z.ltb_ge in E1.
  assert ((later - window <? t)%Z = false) as -> by (apply Z.ltb_ge; lia). reflexivity.
Qed.

Lemma within_app lo hi l1 l2 : within lo hi (l1 ++ l2) = within lo hi l1 ++ within lo hi l2.
Proof. unfold within. apply List.filter_app. Qed.

(** A request let through at [now], seen from a window that ends at
    [T]. *)
Lemma within_after_accept now window T past :
  List.Forall (fun t => (t <= now)%Z) past ->
  length (within (T - window) T (past ++ [now]))
  <= (if (now <=? T)%Z then S (length (prune now window past))
      else length (within (T - window) T past)).
Proof.
  intros Hpast. rewrite within_app, length_app.
  destruct (now <=? T)%Z eqn:E.
  - apply Z.leb_le in E.
    assert (length (within (T - window) T past) <= length (prune now window past)) as H1.
    { unfold within, prune. apply filter_length_le. intros x _ Hx.
      apply andb_true_iff in Hx as [Hx _]. apply Z.ltb_lt in Hx. apply Z.ltb_lt. lia. }
    assert (length (within (T - window) T [now]) <= 1) as H2.
    { unfold within. cbn [List.filter]. destruct (_ && _); cbn; lia. }
    lia.
  - apply Z.leb_gt in E. unfold within at 2. cbn [List.filter].
    assert ((now <=? T)%Z = false) as -> by (apply Z.leb_gt; lia).
    rewrite andb_false_r. cbn [length]. lia.
Qed.

Lemma accepted_cons now uid ok user log :
  accepted user ((now, uid, ok) :: log)
  = (if ok && String.eqb uid user then [now] else []) ++ accepted user log.
Proof.
  unfold accepted. cbn [List.filter fst snd].
  destruct (ok && String.eqb uid user); reflexivity.
Qed.

Lemma serve_cons now uid rest sm :
  serve ((now, uid) :: rest) sm
  = ((now, uid, fst (check_rate_limit now uid sm))
       :: fst (serve rest (snd (check_rate_limit now uid sm))),
     snd (serve rest (snd (check_rate_limit now uid sm)))).
Proof.
  cbn [serve]. destruct (check_rate_limit now uid sm) as [ok sm1]. cbn [fst snd].
  destruct (serve rest sm1) as [log sm2]. reflexivity.
Qed.

(** The windows of a user after a call, as [check_rate_limit] leaves
    them. *)
Lemma windows_after now uid sm user :
  rate_limiting_enabled (config sm) = true ->
  let sm1 := snd (check_rate_limit now uid sm) in
  let ok := fst (check_rate_limit now uid sm) in
  let w := default no_windows (rate_limits sm !! user) in
  let w1 := default no_windows (rate_limits sm1 !! user) in
  config sm1 = config sm
  /\ (user <> uid -> w1 = w)
  /\ (user = uid ->
      minute w1 = stamped ok now (prune now one_minute (minute w))
      /\ hour w1 = stamped ok now (prune now one_hour (hour w)))
  /\ (ok = true ->
      (Z.of_nat (length (prune now one_minute
                           (minute (default no_windows (rate_limits sm !! uid)))))
       < max_min (config sm))%Z
      /\ (Z.of_nat (length (prune now one_hour
                              (hour (default no_windows (rate_limits sm !! uid)))))
          < max_hour (config sm))%Z).
Proof.
  intros He. cbv zeta. rewrite (check_rate_limit_enabled now uid sm He). cbn [fst snd config rate_limits].
  split; [reflexivity|]. split; [|split].
  - intros Hne. now rewrite lookup_insert_ne.
  - intros ->. rewrite lookup_insert_eq. cbn. split; reflexivity.
  - unfold within_caps, pruned_minute, pruned_hour. intros H.
    apply andb_true_iff in H as [H1 H2]. apply Z.ltb_lt in H1, H2. auto.
Qed.

Lemma tracks_step window cap get last sm past now uid :
  rate_limiting_enabled (config sm) = true ->
  (last <= now)%Z ->
  (forall user,
     user = uid ->
     get (default no_windows (rate_limits (snd (check_rate_limit now uid sm)) !! user))
     = stamped (fst (check_rate_limit now uid sm)) now
         (prune now window (get (default no_windows (rate_limits sm !! user))))) ->
  (fst (check_rate_limit now uid sm) = true ->
   (Z.of_nat (length (prune now window (get (default no_windows (rate_limits sm !! uid)))))
    < cap)%Z) ->
  tracks window cap get last sm past ->
  tracks window cap get now (snd (check_rate_limit now uid sm))
    (fun user =>
       past user
       ++ (if fst (check_rate_limit now uid sm) && String.eqb uid user then [now] else [])).
Proof.
  intros He Hle Hget Hcap (Hpast & Hwin & Hbound).
  split; [|split].
  - intros user. apply List.Forall_app. split.
    + eapply List.Forall_impl; [|apply Hpast]. cbn. intros; lia.
    + destruct (_ && _); constructor; [lia|constructor].
  - intros user later Hlater.
    destruct (String.eqb_spec uid user) as [<-|Hne].
    + rewrite (Hget uid eq_refl). rewrite andb_true_r.
      unfold stamped. destruct (fst (check_rate_limit now uid sm)).
      * rewrite !prune_app, prune_prune by lia. now rewrite Hwin by lia.
      * rewrite app_nil_r, prune_prune by lia. now rewrite Hwin by lia.
    + rewrite andb_false_r, app_nil_r.
      destruct (windows_after now uid sm user He) as (_ & Hother & _).
      cbv zeta in Hother. rewrite Hother by congruence. apply Hwin. lia.
  - intros user T.
    destruct (fst (check_rate_limit now uid sm) && String.eqb uid user) eqn:E.
    + apply andb_true_iff in E as [Hok Hu]. apply String.eqb_eq in Hu. subst user.
      pose proof (within_after_accept now window T (past uid)) as Hw.
      specialize (Hw ltac:(eapply List.Forall_impl; [|apply Hpast]; cbn; intros; lia)).
      specialize (Hcap Hok). rewrite (Hwin uid now Hle) in Hcap.
      specialize (Hbound uid T).
      destruct (now <=? T)%Z; lia.
    + rewrite app_nil_r. apply Hbound.
Qed.

Lemma serve_tracks window cap get :
  (forall now uid sm user,
     rate_limiting_enabled (config sm) = true -> user = uid ->
     get (default no_windows (rate_limits (snd (check_rate_limit now uid sm)) !! user))
     = stamped (fst (check_rate_limit now uid sm)) now
         (prune now window (get (default no_windows (rate_limits sm !! user))))) ->
  forall calls sm last past,
    rate_limiting_enabled (config sm) = true ->
    (forall now uid sm',
       config sm' = config sm -> fst (check_rate_limit now uid sm') = true ->
       (Z.of_nat (length (prune now window
                            (get (default no_windows (rate_limits sm' !! uid))))) < cap)%Z) ->
    in_order last calls ->
    tracks window cap get last sm past ->
    forall user T,
      (Z.of_nat (length (within (T - window) T
                           (past user ++ accepted user (fst (serve calls sm)))))
       <= Z.max 0 cap)%Z.
Proof.
  intros Hget calls. induction calls as [|[now uid] rest IH];
    intros sm last past He Hcap Hord Htr user T.
  - cbn [serve fst]. unfold accepted. cbn. rewrite app_nil_r.
    destruct Htr as (_ & _ & Hb). apply Hb.
  - destruct Hord as [Hle Hord].
    rewrite serve_cons. cbn [fst]. rewrite accepted_cons, app_assoc.
    destruct (windows_after now uid sm uid He) as (Hcfg & _).
    cbv zeta in Hcfg.
    apply (IH (snd (check_rate_limit now uid sm)) now
             (fun user =>
                past user
                ++ (if fst (check_rate_limit now uid sm) && String.eqb uid user
                    then [now] else []))).
    + now rewrite Hcfg.
    + intros now' uid' sm' Hc. apply Hcap. congruence.
    + exact Hord.
    + apply tracks_step with (last := last);
        [exact He|exact Hle|intros u Hu; now apply Hget|apply Hcap; reflexivity|exact Htr].
Qed.

(** X16. The guarantee of the limiter.  Starting with no recorded
    request and with a clock that does not go back, whatever the
    sequence of calls and of users: among the requests of one user that
    were let through, no more than [max_requests_per_minute] fall in any
    interval of one minute, and no more than [max_requests_per_hour] in
    any interval of one hour (none at all for a cap of zero or less). *)
Theorem rate_limit_guarantee (sm : SecurityManager) (calls : list (Z * string))
    (start : Z) (uid : string) (T : Z) :
  rate_limiting_enabled (config sm) = true ->
  rate_limits sm = ∅ ->
  in_order start calls ->
  (Z.of_nat (length (within (T - one_minute) T (accepted uid (fst (serve calls sm)))))
   <= Z.max 0 (max_min (config sm)))%Z
  /\ (Z.of_nat (length (within (T - one_hour) T (accepted uid (fst (serve calls sm)))))
      <= Z.max 0 (max_hour (config sm)))%Z.
Proof.
  intros He Hfresh Hord.
  assert (forall window cap get,
            get no_windows = [] ->
            tracks window cap get start sm (fun _ => [])) as Hinit.
  { intros window cap get Hg. split; [|split].
    - intros _. constructor.
    - intros user later _. rewrite Hfresh, lookup_empty. cbn [default]. now rewrite Hg.
    - intros user T'. cbn. lia. }
  split.
  - apply (serve_tracks one_minute (max_min (config sm)) minute) with
      (last := start) (past := fun _ => []); auto.
    + intros now u sm0 user He0 Hu.
      destruct (windows_after now u sm0 user He0) as (_ & _ & Hw & _). now apply Hw.
    + intros now u sm' Hc Hok.
      assert (rate_limiting_enabled (config sm') = true) as He' by now rewrite Hc.
      destruct (windows_after now u sm' u He') as (_ & _ & _ & Hcap).
      rewrite <- Hc. now apply Hcap.
  - apply (serve_tracks one_hour (max_hour (config sm)) hour) with
      (last := start) (past := fun _ => []); auto.
    + intros now u sm0 user He0 Hu.
      destruct (windows_after now u sm0 user He0) as (_ & _ & Hw & _). now apply Hw.
    + intros now u sm' Hc Hok.
      assert (rate_limiting_enabled (config sm') = true) as He' by now rewrite Hc.
      destruct (windows_after now u sm' u He') as (_ & _ & _ & Hcap).
      rewrite <- Hc. now apply Hcap.
Qed.

Lemma rate_limit_guarantee_witness :
  (Z.of_nat (length (within (2 - one_minute) 2
                       (accepted "alice"
                          (fst (serve [(0, "alice"); (1, "bob"); (1, "alice"); (2, "alice")]%Z
                                  two_a_minute))))) <= 2)%Z.
Proof.
  refine (proj1 (rate_limit_guarantee two_a_minute
                   [(0, "alice"); (1, "bob"); (1, "alice"); (2, "alice")]%Z 0 "alice" 2
                   _ _ _));
    [reflexivity|reflexivity|cbn; repeat split; lia].
Defined.
End RateLimitGuarantee.

(** *** Content filter and user validation *)

Section ContentFilter.
Import Guardrails.
Variable re_sub : string -> string -> string -> string.

(** The loop over the blocked words: the flags are those of the words
    that occur, in order, and the text is touched only when a flag is
    added. *)
Lemma filter_words_flags content words : forall filtered flags0,
  snd (fold_left (filter_word re_sub content) words (filtered, flags0))
  = flags0 ++ map (fun w => "blocked: " +:+ w)
                  (List.filter (fun w => contains (lower w) (lower content)) words).
Proof.
  induction words as [|w words IH]; intros filtered flags0; cbn [fold_left List.filter].
  - cbn. now rewrite app_nil_r.
  - unfold filter_word at 2.
    destruct (contains (lower w) (lower content)).
    + rewrite IH. cbn [map]. now rewrite <- app_assoc.
    + apply IH.
Qed.

Lemma filter_words_untouched content words : forall filtered flags0,
  snd (fold_left (filter_word re_sub content) words (filtered, flags0)) = [] ->
  fst (fold_left (filter_word re_sub content) words (filtered, flags0)) = filtered.
Proof.
  induction words as [|w words IH]; intros filtered flags0 H; cbn [fold_left] in *.
  - reflexivity.
  - unfold filter_word at 2 in H. unfold filter_word at 2.
    destruct (contains (lower w) (lower content)).
    + rewrite filter_words_flags in H. exfalso.
      destruct flags0; discriminate.
    + now apply IH.
Qed.

Lemma filter_content_enabled section content :
  default true (cf_enabled (default no_content_filtering section)) = true ->
  let cf := default no_content_filtering section in
  let found :=
    map (fun w => "blocked: " +:+ w)
        (List.filter (fun w => contains (lower w) (lower content))
                     (default [] (cf_blocked_words cf)))
    ++ (if default true (cf_trauma_safe_mode cf)
        then map (fun ind => "trauma: " +:+ ind)
                 (List.filter (fun ind => contains (lower ind) (lower content))
                              trauma_indicators)
        else []) in
  filter_content re_sub section content
  = {| safe := match found with [] => true | _ => false end;
       filtered_content := content;
       flags := Some found;
       original_content := Some content |}.
Proof.
  intros He. cbv zeta. unfold filter_content. cbv zeta. rewrite He. cbn [negb].
  pose proof (filter_words_flags content
                (default [] (cf_blocked_words (default no_content_filtering section)))
                content []) as Hf.
  pose proof (filter_words_untouched content
                (default [] (cf_blocked_words (default no_content_filtering section)))
                content []) as Hu.
  destruct (fold_left _ _ _) as [filtered flags0]. cbn [fst snd app] in Hf, Hu.
  subst flags0.
  destruct (default true (cf_trauma_safe_mode (default no_content_filtering section))).
  - match goal with |- context [?a ++ ?b] => destruct (a ++ b) as [|x r] eqn:E end;
      [|reflexivity].
    apply app_eq_nil in E as [E1 _]. now rewrite (Hu E1).
  - rewrite app_nil_r.
    match goal with |- context [match ?a with [] => _ | _ => _ end] =>
      destruct a as [|x r] eqn:E end; [|reflexivity].
    now rewrite (Hu eq_refl).
Qed.
End ContentFilter.

Section ContentFilterFacts.
Import Guardrails.

(** X17. [filter_content] never returns a masked text: whatever the
    configuration and the blocked words, the [content] of its answer is
    the text it was given.  The text with the blocked words starred out
    is computed, and dropped as soon as there is a flag, which is
    whenever a word was starred. *)
Theorem filter_content_returns_original
    (re_sub : string -> string -> string -> string)
    (section : option ContentFiltering) (content : string) :
  filtered_content (filter_content re_sub section content) = content
  /\ (safe (filter_content re_sub section content) = true
      <-> default [] (flags (filter_content re_sub section content)) = []).
Proof.
  destruct (default true (cf_enabled (default no_content_filtering section))) eqn:He.
  - rewrite (filter_content_enabled re_sub section content He). cbn [filtered_content safe flags default].
    split; [reflexivity|].
    match goal with |- context [match ?a with [] => _ | _ => _ end] =>
      destruct a as [|x r] end; split; intros H; (reflexivity || discriminate).
  - unfold filter_content. cbv zeta. rewrite He. cbn. tauto.
Qed.

(** X18. With filtering on, the answer is safe exactly when no blocked
    word and (in trauma-safe mode, the default) none of the eight
    indicators occurs in the text, upper and lower case taken alike;
    the flags name the blocked words that occur, in the order of the
    configuration, and then the indicators that occur. *)
Theorem filter_content_flags
    (re_sub : string -> string -> string -> string)
    (section : option ContentFiltering) (content : string) :
  default true (cf_enabled (default no_content_filtering section)) = true ->
  let cf := default no_content_filtering section in
  let occurs w := contains (lower w) (lower content) in
  flags (filter_content re_sub section content)
  = Some (map (fun w => "blocked: " +:+ w)
              (List.filter occurs (default [] (cf_blocked_words cf)))
          ++ (if default true (cf_trauma_safe_mode cf)
              then map (fun ind => "trauma: " +:+ ind) (List.filter occurs trauma_indicators)
              else []))
  /\ (safe (filter_content re_sub section content) = true
      <-> existsb occurs (default [] (cf_blocked_words cf)) = false
          /\ (default true (cf_trauma_safe_mode cf) = true ->
              existsb occurs trauma_indicators = false)).
Proof.
  intros He. cbv zeta. rewrite (filter_content_enabled re_sub section content He).
  cbn [flags safe]. split; [reflexivity|].
  assert (forall l, List.filter (fun w => contains (lower w) (lower content)) l = []
                    <-> existsb (fun w => contains (lower w) (lower content)) l = false)
    as Hnone.
  { induction l as [|w l IH]; cbn; [tauto|].
    destruct (contains (lower w) (lower content)); cbn; [split; discriminate|exact IH]. }
  assert (forall (f : string -> string) l, map f l = [] <-> l = []) as Hmap
    by (intros f l; destruct l; cbn; split; congruence).
  match goal with |- context [match ?a ++ ?b with [] => _ | _ => _ end] =>
    destruct (a ++ b) as [|x r] eqn:E end.
  - apply app_eq_nil in E as [E1 E2]. apply Hmap, Hnone in E1.
    split; [intros _|reflexivity]. split; [exact E1|].
    intros Ht. rewrite Ht in E2. now apply Hmap, Hnone in E2.
  - split; [discriminate|]. intros [H1 H2]. exfalso.
    apply Hnone in H1. rewrite H1 in E. cbn [map app] in E.
    destruct (default true (cf_trauma_safe_mode (default no_content_filtering section)));
      [|discriminate].
    specialize (H2 eq_refl). apply Hnone in H2. rewrite H2 in E. discriminate.
Qed.

Lemma filter_content_flags_witness :
  flags (filter_content (fun _ _ text => text) None "I feel Anxiety today")
  = Some ["trauma: anxiety"].
Proof.
  exact (proj1 (filter_content_flags (fun _ _ text => text) None "I feel Anxiety today"
                  eq_refl)).
Defined.
End ContentFilterFacts.

Section UserValidationFacts.
Import Guardrails.
Context {S : Type}.
Variable validate_session : string -> UserDict -> S -> SessionAnswer * S.

(** [validate_user], case by case. *)
Lemma validate_user_cases section user_context token st :
  let r := validate_user validate_session section user_context token st in
  let marked ctx :=
    if negb (default false (key_authenticated ctx))
    then {| key_authenticated := Some true; key_is_authenticated := Some true;
            other_keys := other_keys ctx |}
    else ctx in
  let rejected e := {| uv_valid := false; uv_error := Some e; uv_user_context := None |} in
  let passed ctx := {| uv_valid := true; uv_error := None; uv_user_context := Some ctx |} in
  (opt_truthy token = false ->
   r = (if claims_authentication user_context then passed (marked user_context)
        else if strict section then rejected "Authentication required"
             else passed user_context,
        st))
  /\ (opt_truthy token = true ->
      forall answer st',
        validate_session (default "" token) user_context st = (answer, st') ->
        r = (match answer with
             | SessionValid ctx => passed (marked ctx)
             | SessionInvalid e =>
                 if claims_authentication user_context then passed (marked user_context)
                 else if strict section then rejected (default "Auth failed" e)
                      else passed user_context
             end, st')).
Proof.
  cbv zeta. unfold validate_user, claims_authentication, strict. cbv zeta. split.
  - intros Ht. rewrite Ht.
    destruct (default false (key_authenticated user_context)
              || default false (key_is_authenticated user_context)) eqn:Ea;
      destruct (default true (require_auth (default no_user_validation section))
                && negb (default false (allow_anonymous (default no_user_validation section))));
      reflexivity.
  - intros Ht answer st' Hv. rewrite Ht, Hv.
    destruct answer as [ctx|e]; [cbn [negb andb]; now rewrite andb_false_r|].
    destruct (default false (key_authenticated user_context)
              || default false (key_is_authenticated user_context)) eqn:Ea;
      destruct (default true (require_auth (default no_user_validation section))
                && negb (default false (allow_anonymous (default no_user_validation section))));
      reflexivity.
Qed.
End UserValidationFacts.

Section UserValidationTheorems.
Import Guardrails.

(** X19. [validate_user] lets a request through exactly when the
    context claims authentication, or the session manager accepts the
    token, or the settings do not insist on authentication
    ([require_auth] off or [allow_anonymous] on).  A context that
    claims authentication passes even when its token is rejected.  A
    rejection carries an error and no context; an acceptance a context
    and no error. *)
Theorem validate_user_decision {S : Type}
    (validate_session : string -> UserDict -> S -> SessionAnswer * S)
    (section : option UserValidation) (user_context : UserDict) (token : option string)
    (st : S) :
  let r := fst (validate_user validate_session section user_context token st) in
  uv_valid r
  = claims_authentication user_context
    || token_accepted validate_session user_context token st
    || negb (strict section)
  /\ (uv_valid r = false -> uv_user_context r = None /\ uv_error r <> None)
  /\ (uv_valid r = true -> uv_user_context r <> None /\ uv_error r = None).
Proof.
  cbv zeta.
  destruct (validate_user_cases validate_session section user_context token st) as [Hno Hyes].
  cbv zeta in Hno, Hyes. unfold token_accepted.
  destruct (opt_truthy token) eqn:Ht.
  - destruct (validate_session (default "" token) user_context st) as [answer st'] eqn:Hv.
    rewrite (Hyes eq_refl answer st' eq_refl). cbn [fst andb].
    destruct answer as [ctx|e]; cbn [uv_valid].
    + rewrite orb_true_r. cbn. repeat split; discriminate.
    + rewrite orb_false_r.
      destruct (claims_authentication user_context), (strict section); cbn;
        repeat split; discriminate.
  - rewrite (Hno eq_refl). cbn [fst andb]. rewrite orb_false_r.
    destruct (claims_authentication user_context), (strict section); cbn;
      repeat split; discriminate.
Qed.

(** X20. What [validate_user] does beside deciding.  Without a token it
    does not consult the session manager, whose state stays as it was.
    A request let through because the context claimed authentication or
    the token was accepted leaves with a context in which
    [authenticated] is set; one let through as anonymous leaves with
    the context it came with. *)
Theorem validate_user_effects {S : Type}
    (validate_session : string -> UserDict -> S -> SessionAnswer * S)
    (section : option UserValidation) (user_context : UserDict) (token : option string)
    (st : S) :
  let r := validate_user validate_session section user_context token st in
  (opt_truthy token = false -> snd r = st)
  /\ (claims_authentication user_context
      || token_accepted validate_session user_context token st = true ->
      exists ctx, uv_user_context (fst r) = Some ctx
                  /\ key_authenticated ctx = Some true)
  /\ (uv_valid (fst r) = true ->
      claims_authentication user_context
      || token_accepted validate_session user_context token st = false ->
      uv_user_context (fst r) = Some user_context).
Proof.
  cbv zeta.
  destruct (validate_user_cases validate_session section user_context token st) as [Hno Hyes].
  cbv zeta in Hno, Hyes. unfold token_accepted.
  assert (forall ctx,
            key_authenticated
              (if negb (default false (key_authenticated ctx))
               then {| key_authenticated := Some true; key_is_authenticated := Some true;
                       other_keys := other_keys ctx |}
               else ctx) = Some true) as Hmark.
  { intros ctx. destruct (key_authenticated ctx) as [[|]|] eqn:E; cbn; auto. }
  destruct (opt_truthy token) eqn:Ht.
  - destruct (validate_session (default "" token) user_context st) as [answer st'] eqn:Hv.
    rewrite (Hyes eq_refl answer st' eq_refl). cbn [fst snd andb].
    split; [discriminate|].
    destruct answer as [ctx|e].
    + rewrite orb_true_r. split; [|discriminate].
      intros _. eexists. split; [reflexivity|apply Hmark].
    + rewrite orb_false_r.
      destruct (claims_authentication user_context).
      * split; [|discriminate]. intros _. eexists. split; [reflexivity|apply Hmark].
      * split; [discriminate|]. destruct (strict section); cbn; [discriminate|reflexivity].
  - rewrite (Hno eq_refl). cbn [fst snd andb]. rewrite orb_false_r.
    split; [reflexivity|].
    destruct (claims_authentication user_context).
    + split; [|discriminate]. intros _. eexists. split; [reflexivity|apply Hmark].
    + split; [discriminate|]. destruct (strict section); cbn; [discriminate|reflexivity].
Qed.

Lemma validate_user_effects_witness :
  snd (validate_user one_token None anonymous_dict None 0) = 0
  /\ exists ctx,
       uv_user_context (fst (validate_user one_token None claiming_dict (Some "bad") 0))
       = Some ctx
       /\ key_authenticated ctx = Some true.
Proof.
  split.
  - exact (proj1 (validate_user_effects one_token None anonymous_dict None 0) eq_refl).
  - exact (proj1 (proj2 (validate_user_effects one_token None claiming_dict (Some "bad") 0))
             eq_refl).
Defined.
End UserValidationTheorems.

(** *** The registries *)

Section Registries.
Import Registry.
Variable file_exists : string -> bool.

(** Every provider of [PROVIDER_CONFIGS] has a default model, which is
    on its own list. *)
Lemma lookup_config_default provider_type cfg :
  lookup_config provider_type PROVIDER_CONFIGS = Some cfg ->
  exists m, default_model cfg = Some m /\ truthy m = true /\ mem m (models cfg) = true.
Proof.
  unfold PROVIDER_CONFIGS. cbn [lookup_config].
  repeat (destruct (String.eqb provider_type _);
          [intros [= <-]; eexists; repeat split; reflexivity|]).
  discriminate.
Qed.

(** [check_provider_and_model], case by case. *)
Lemma check_provider_and_model_cases provider_type model :
  let r := check_provider_and_model file_exists provider_type model in
  match lookup_config provider_type PROVIDER_CONFIGS with
  | None => exists e, r = (false, [e], None)
  | Some cfg =>
      if negb (file_exists (provider_type +:+ ".py")) then exists e, r = (false, [e], None)
      else if opt_truthy model then
             if mem (default "" model) (models cfg)
             then r = (true, [],
                       Some {| info_provider_type := provider_type;
                               info_model := default "" model;
                               info_available := true |})
             else exists e, r = (false, [e], None)
           else exists m,
                  default_model cfg = Some m /\ mem m (models cfg) = true
                  /\ r = (true, [],
                          Some {| info_provider_type := provider_type;
                                  info_model := m;
                                  info_available := true |})
  end.
Proof.
  cbv zeta. unfold check_provider_and_model.
  destruct (lookup_config provider_type PROVIDER_CONFIGS) as [cfg|] eqn:Hl;
    [|eexists; reflexivity].
  destruct (negb (file_exists (provider_type +:+ ".py"))); [eexists; reflexivity|].
  destruct (opt_truthy model) eqn:Hm.
  - destruct (mem (default "" model) (models cfg)); cbn [negb]; [reflexivity|].
    destruct (model_owner (default "" model) PROVIDER_CONFIGS); eexists; reflexivity.
  - destruct (lookup_config_default _ _ Hl) as (m & Hd & Ht & Hin).
    exists m. rewrite Hd. cbn [opt_truthy]. rewrite Ht. cbn. auto.
Qed.
End Registries.

Section RegistryFacts.
Import Registry.

(** X21. [check_provider_and_model] answers "valid" exactly when the
    provider is one of [PROVIDER_CONFIGS], its file is there, and the
    model, when one is given, is on the list of that provider; a
    missing (or empty) model is never an error, every provider having a
    default. *)
Theorem check_provider_and_model_valid_iff (file_exists : string -> bool)
    (provider_type : string) (model : option string) :
  fst (fst (check_provider_and_model file_exists provider_type model)) = true
  <-> exists cfg,
        lookup_config provider_type PROVIDER_CONFIGS = Some cfg
        /\ file_exists (provider_type +:+ ".py") = true
        /\ (opt_truthy model = true -> mem (default "" model) (models cfg) = true).
Proof.
  pose proof (check_provider_and_model_cases file_exists provider_type model) as H.
  cbv zeta in H.
  destruct (lookup_config provider_type PROVIDER_CONFIGS) as [cfg|].
  2:{ destruct H as [e ->]. split; [discriminate|]. intros (cfg & Hc & _). discriminate. }
  destruct (file_exists (provider_type +:+ ".py")); cbn [negb] in H.
  2:{ destruct H as [e ->]. split; [discriminate|]. intros (c & _ & Hf & _). discriminate. }
  destruct (opt_truthy model).
  - destruct (mem (default "" model) (models cfg)) eqn:Hm.
    + rewrite H. split; [|reflexivity]. intros _. exists cfg. auto.
    + destruct H as [e ->]. split; [discriminate|].
      intros (c & [= <-] & _ & Hin). specialize (Hin eq_refl). congruence.
  - destruct H as (m & _ & _ & ->). split; [|reflexivity].
    intros _. exists cfg. repeat split. discriminate.
Qed.

(** X22. The three parts of the answer of [check_provider_and_model]
    agree: it is valid exactly when there is no error, and exactly when
    there is an info; there is never more than one error; and the model
    of the info is on the list of the provider asked for: the model
    given, or the default of the provider when none was given. *)
Theorem check_provider_and_model_coherent (file_exists : string -> bool)
    (provider_type : string) (model : option string) :
  let '(is_valid, errors, info) :=
    check_provider_and_model file_exists provider_type model in
  (is_valid = true <-> errors = [])
  /\ (is_valid = true <-> info <> None)
  /\ length errors <= 1
  /\ forall i, info = Some i ->
       info_provider_type i = provider_type
       /\ (exists cfg, lookup_config provider_type PROVIDER_CONFIGS = Some cfg
                       /\ mem (info_model i) (models cfg) = true)
       /\ (opt_truthy model = true -> info_model i = default "" model).
Proof.
  pose proof (check_provider_and_model_cases file_exists provider_type model) as H.
  cbv zeta in H.
  assert (forall e : string,
            ((false = true <-> [e] = []) /\ (false = true <-> @None ProviderInfo <> None)
             /\ length [e] <= 1
             /\ forall i, @None ProviderInfo = Some i ->
                  info_provider_type i = provider_type
                  /\ (exists cfg, lookup_config provider_type PROVIDER_CONFIGS = Some cfg
                                  /\ mem (info_model i) (models cfg) = true)
                  /\ (opt_truthy model = true -> info_model i = default "" model))) as Hbad.
  { intros e. repeat split; try discriminate; try (cbn; lia). intros C. now contradiction C. }
  destruct (lookup_config provider_type PROVIDER_CONFIGS) as [cfg|] eqn:Hl.
  2:{ destruct H as [e ->]. apply Hbad. }
  destruct (file_exists (provider_type +:+ ".py")); cbn [negb] in H.
  2:{ destruct H as [e ->]. apply Hbad. }
  destruct (opt_truthy model) eqn:Hm.
  - destruct (mem (default "" model) (models cfg)) eqn:Hin.
    + rewrite H. repeat split; try discriminate; try (cbn; lia);
        try (intros i0 [= <-]; cbn; eauto); try (intros _ i0 [= <-]; cbn; eauto).
      all: try (match goal with H0 : Some _ = Some _ |- _ => injection H0 as <- end; cbn; eauto).
    + destruct H as [e ->]. apply Hbad.
  - destruct H as (m & Hd & Hin & ->).
    repeat split; try discriminate; try (cbn; lia).
    all: try (match goal with H0 : Some _ = Some _ |- _ => injection H0 as <- end; cbn; eauto).
    all: try (intros _; match goal with H0 : Some _ = Some _ |- _ => injection H0 as <- end).
    all: cbn; eauto; try congruence.
Qed.

Lemma check_provider_and_model_valid_iff_witness :
  fst (fst (check_provider_and_model (fun _ => true) "anthropic"
              (Some "claude-3-opus-20240229"))) = true.
Proof.
  apply (proj2 (check_provider_and_model_valid_iff (fun _ => true) "anthropic"
                  (Some "claude-3-opus-20240229"))).
  eexists. repeat split; reflexivity.
Defined.

(** The registries of tools and of data sources know one name each. *)
Lemma check_tool_available_name file_exists tool_name :
  check_tool_available file_exists tool_name = true ->
  tool_name = "tavily_search" /\ file_exists "tavily_search.py" = true.
Proof.
  unfold check_tool_available, mem, TOOLS. cbn [existsb].
  rewrite orb_false_r. destruct (String.eqb_spec tool_name "tavily_search") as [->|];
    cbn [negb]; [auto|discriminate].
Qed.
End RegistryFacts.

(** *** Plans and their validation *)

Section PlannerFacts.
Import Cortex.

Lemma negative_issue (c : Q) :
  negb (Qeq_bool c 0) && Qltb c 0 = false <-> (0 <= c)%Q.
Proof.
  split.
  - intros H. apply andb_false_iff in H as [H|H].
    + apply negb_false_iff, Qeq_bool_iff in H. rewrite H. apply Qle_refl.
    + now apply Qltb_ge.
  - intros H. apply andb_false_iff. right. now apply Qltb_ge.
Qed.

Lemma app_nil_iff {A} (l1 l2 : list A) : l1 ++ l2 = [] <-> l1 = [] /\ l2 = [].
Proof. split; [apply app_eq_nil|intros [-> ->]; reflexivity]. Qed.

Lemma issue_nil_iff (b : bool) (e : string) : (if b then [e] else []) = [] <-> b = false.
Proof. destruct b; split; congruence. Qed.

Lemma valid_iff_no_issue penv plan :
  fst (_validate_reasoning_output penv plan) = true
  <-> snd (_validate_reasoning_output penv plan) = [].
Proof.
  unfold _validate_reasoning_output. cbv zeta. cbn [fst snd].
  destruct (_ ++ _); split; congruence.
Qed.

(** The plans of the three strategies keep the spec of the agent as
    [original_specs]; a plan without reasoning runs that spec, with
    confidence 1. *)
Lemma plan_original penv agent_specs req plan :
  create_execution_plan penv agent_specs req = Ok plan ->
  original_specs plan = agent_specs
  /\ (reasoning_applied plan = false ->
      optimized_specs plan = agent_specs /\ confidence plan = 1%Q).
Proof.
  unfold create_execution_plan.
  destruct (processing agent_specs) as [proc|] eqn:Hp; [|discriminate].
  cbv zeta.
  destruct (String.eqb (execution_strategy proc) "reasoned").
  - intros [= <-]. unfold _create_reasoned_plan, _create_direct_plan.
    destruct (reasoning_engine penv agent_specs req); cbn; split; auto; discriminate.
  - destruct (String.eqb (execution_strategy proc) "adaptive"); intros [= <-].
    + unfold _create_adaptive_plan, _create_direct_plan. rewrite Hp.
      destruct (reasoning_engine penv agent_specs req) as [rr|e]; cbn; [|auto].
      destruct (Qgeb _ _); cbn; [|auto].
      destruct (rr_optimized_specs rr); cbn; split; auto; discriminate.
    + unfold _create_direct_plan. cbn. auto.
Qed.

(** The engine of [reasoning_engine.py] hands the spec back. *)
Lemma optimize_keeps_specs cost latency specs req :
  rr_optimized_specs (optimize_execution_specs cost latency specs req) = Some specs.
Proof.
  unfold optimize_execution_specs. cbv zeta.
  destruct (cost specs); [destruct (latency specs)|]; reflexivity.
Qed.

(** What it answers when an estimator raises. *)
Lemma optimize_failed cost latency specs req :
  (exists e, cost specs = Raise e) \/ (exists e, latency specs = Raise e) ->
  rr_confidence (optimize_execution_specs cost latency specs req) = Some 0%Q
  /\ rr_estimated_cost (optimize_execution_specs cost latency specs req) = Some 0%Q
  /\ rr_estimated_latency (optimize_execution_specs cost latency specs req) = Some 0%Q.
Proof.
  unfold optimize_execution_specs. cbv zeta.
  intros [[e H]|[e H]]; rewrite H; [auto|].
  destruct (cost specs); auto.
Qed.

Lemma get_estimates_failed penv specs :
  (exists e, cost_estimate penv specs = Raise e)
  \/ (exists e, latency_estimate penv specs = Raise e) ->
  _get_estimates penv specs = (0%Q, 1%Q).
Proof.
  unfold _get_estimates. intros [[e H]|[e H]]; rewrite H; [reflexivity|].
  destruct (cost_estimate penv specs); reflexivity.
Qed.
End PlannerFacts.

Section PlannerTheorems.
Import Cortex.

(** X23. [_validate_reasoning_output] accepts a plan exactly when its
    optimized spec has a provider with a type and a model, its
    confidence is at least 0.3 if reasoning was applied, and neither
    estimate is negative; and it reports an issue exactly when it does
    not accept. *)
Theorem validate_reasoning_output_iff (penv : PlannerEnv) (plan : ExecutionPlan) :
  (fst (_validate_reasoning_output penv plan) = true
   <-> (exists p, provider (optimized_specs plan) = Some p
                  /\ truthy (provider_type p) = true /\ opt_truthy (model p) = true)
       /\ (reasoning_applied plan = true -> (0.3 <= confidence plan)%Q)
       /\ (0 <= estimated_cost plan)%Q
       /\ (0 <= estimated_latency plan)%Q)
  /\ (fst (_validate_reasoning_output penv plan) = true
      <-> snd (_validate_reasoning_output penv plan) = []).
Proof.
  split; [|apply valid_iff_no_issue].
  rewrite valid_iff_no_issue.
  unfold _validate_reasoning_output. cbv zeta. cbn [snd].
  rewrite !app_nil_iff, !issue_nil_iff, !negative_issue.
  destruct (provider (optimized_specs plan)) as [p|].
  - rewrite app_nil_iff, !issue_nil_iff, !negb_false_iff.
    split.
    + intros (_ & Hc & Hcost & Hlat & Ht & Hm).
      split; [eauto|]. split; [|auto].
      intros Hr. rewrite Hr in Hc. cbn [andb] in Hc. now apply Qltb_ge.
    + intros ((p' & [= <-] & Ht & Hm) & Hc & Hcost & Hlat).
      repeat split; auto.
      destruct (reasoning_applied plan); [|reflexivity]. cbn [andb].
      apply Qltb_ge. now apply Hc.
  - split; [intros [H _]; discriminate|intros [(p & H & _) _]; discriminate].
Qed.

(** X24. Whatever the strategy and the reasoning engine, a plan keeps
    the spec of the agent as its [original_specs], and a plan with
    [reasoning_applied] false runs that very spec with confidence 1.
    With the reasoning engine of [reasoning_engine.py], which hands the
    spec back unchanged, every plan runs the spec of the agent. *)
Theorem plans_keep_the_spec (penv : PlannerEnv) (agent_specs : AgentExecutionSpec)
    (req : BrainRequest) (plan : ExecutionPlan) :
  create_execution_plan penv agent_specs req = Ok plan ->
  original_specs plan = agent_specs
  /\ (reasoning_applied plan = false ->
      optimized_specs plan = agent_specs /\ confidence plan = 1%Q)
  /\ (shipped_engine penv -> optimized_specs plan = agent_specs).
Proof.
  intros Hplan. destruct (plan_original penv agent_specs req plan Hplan) as [Ho Hn].
  split; [exact Ho|]. split; [exact Hn|].
  intros Hship. revert Hplan. unfold create_execution_plan.
  destruct (processing agent_specs) as [proc|] eqn:Hp; [|discriminate].
  cbv zeta.
  destruct (String.eqb (execution_strategy proc) "reasoned").
  - intros [= <-]. unfold _create_reasoned_plan. rewrite Hship.
    cbn [optimized_specs]. now rewrite optimize_keeps_specs.
  - destruct (String.eqb (execution_strategy proc) "adaptive"); intros [= <-];
      [|reflexivity].
    unfold _create_adaptive_plan. rewrite Hship, Hp, optimize_keeps_specs.
    destruct (Qgeb _ _); reflexivity.
Qed.

Lemma plans_keep_the_spec_witness :
  exists plan,
    create_execution_plan priced_planner reasoned_specs hello = Ok plan
    /\ optimized_specs plan = reasoned_specs.
Proof.
  destruct (create_execution_plan priced_planner reasoned_specs hello) as [plan|e] eqn:Hp;
    [|vm_compute in Hp; discriminate].
  exists plan. split; [reflexivity|].
  apply (proj2 (proj2 (plans_keep_the_spec priced_planner reasoned_specs hello plan Hp))).
  intros specs req. reflexivity.
Defined.

(** X25. With the reasoning engine of [reasoning_engine.py], an
    estimator that raises does not make the reasoned strategy fall
    back: the engine answers with confidence 0, the plan is marked
    [reasoning_applied] with that confidence, and
    [_validate_reasoning_output] turns it down ("Reasoning confidence
    too low").  The adaptive strategy, on a positive threshold, falls
    back on the same failure to the spec of the agent with the safe
    estimates (0, 1), and that plan is not turned down for its
    confidence or its estimates. *)
Theorem estimator_failure_by_strategy (penv : PlannerEnv)
    (agent_specs : AgentExecutionSpec) (req : BrainRequest) (proc : ProcessingSpec)
    (plan : ExecutionPlan) :
  shipped_engine penv ->
  processing agent_specs = Some proc ->
  (exists e, cost_estimate penv agent_specs = Raise e)
  \/ (exists e, latency_estimate penv agent_specs = Raise e) ->
  create_execution_plan penv agent_specs req = Ok plan ->
  (execution_strategy proc = "reasoned" ->
   reasoning_applied plan = true /\ confidence plan = 0%Q
   /\ fst (_validate_reasoning_output penv plan) = false
   /\ In ("Reasoning confidence too low: " +:+ str_float penv 0)
         (snd (_validate_reasoning_output penv plan)))
  /\ (execution_strategy proc = "adaptive" -> (0 < reasoning_threshold proc)%Q ->
      reasoning_applied plan = false /\ optimized_specs plan = agent_specs
      /\ estimated_cost plan = 0%Q /\ estimated_latency plan = 1%Q).
Proof.
  intros Hship Hp Hfail. unfold create_execution_plan. rewrite Hp. cbv zeta.
  destruct (optimize_failed (cost_estimate penv) (latency_estimate penv) agent_specs req Hfail)
    as (Hc & Hcost & Hlat).
  split.
  - intros Hs. rewrite Hs in H. cbn in H. injection H as <-.
    unfold _create_reasoned_plan. rewrite Hship.
    assert (forall P : ExecutionPlan,
              reasoning_applied P = true -> confidence P = 0%Q ->
              reasoning_applied P = true /\ confidence P = 0%Q
              /\ fst (_validate_reasoning_output penv P) = false
              /\ In ("Reasoning confidence too low: " +:+ str_float penv 0)
                    (snd (_validate_reasoning_output penv P))) as Hgen.
    { intros P Hr Hz. split; [exact Hr|]. split; [exact Hz|].
      assert (In ("Reasoning confidence too low: " +:+ str_float penv 0)
                 (snd (_validate_reasoning_output penv P))) as Hin.
      { unfold _validate_reasoning_output. cbv zeta. cbn [snd]. rewrite Hr, Hz.
        apply in_or_app. right. apply in_or_app. left. left. reflexivity. }
      split; [|exact Hin].
      destruct (fst (_validate_reasoning_output penv P)) eqn:Hv; [|reflexivity].
      apply valid_iff_no_issue in Hv. rewrite Hv in Hin. destruct Hin. }
    apply Hgen; cbn [reasoning_applied confidence]; [reflexivity|now rewrite Hc].
  - intros Hs Hth. rewrite Hs in H. cbn in H. injection H as <-.
    unfold _create_adaptive_plan. rewrite Hship, Hp, Hc. cbn [default].
    assert (Qgeb (id 0%Q) (reasoning_threshold proc) = false) as ->.
    { unfold Qgeb. destruct (Qle_bool (reasoning_threshold proc) (id 0%Q)) eqn:E;
        [|reflexivity].
      apply Qle_bool_iff in E. exfalso. eapply Qlt_not_le; eauto. }
    rewrite (get_estimates_failed penv agent_specs Hfail). cbn. auto.
Qed.

Lemma estimator_failure_by_strategy_witness :
  exists plan,
    create_execution_plan unpriced_planner reasoned_specs hello = Ok plan
    /\ fst (_validate_reasoning_output unpriced_planner plan) = false.
Proof.
  destruct (create_execution_plan unpriced_planner reasoned_specs hello) as [plan|e] eqn:Hc;
    [|vm_compute in Hc; discriminate].
  exists plan. split; [reflexivity|].
  destruct (estimator_failure_by_strategy unpriced_planner reasoned_specs hello
              {| max_iterations := 3; timeout_seconds := 30;
                 execution_strategy := "reasoned";
                 reasoning_threshold := 0.7; eval := false |} plan) as [Hr _].
  - intros specs req. reflexivity.
  - reflexivity.
  - left. eexists. reflexivity.
  - exact Hc.
  - destruct (Hr eq_refl) as (_ & _ & Hv & _). exact Hv.
Defined.
End PlannerTheorems.

(** *** [process_agent_request] *)

Section PipelineFacts.
Import Pipeline.
Context {S : Type}.
Variable cenv : CortexEnv.
Variable validate_session :
  string -> Guardrails.UserDict -> S -> Guardrails.SessionAnswer * S.

(** [str] of a member of the enumeration is never "vector_db", so the
    loop over the data sources returns nothing. *)
Lemma vector_db_never_missing sources : vector_db_missing cenv sources = false.
Proof.
  unfold vector_db_missing. induction sources as [|ds sources IH]; [reflexivity|].
  cbn [existsb]. rewrite IH.
  destruct (source_type ds); cbn; now rewrite andb_false_r.
Qed.

(** Without a token [validate_user] decides on the flag of the context
    and on the settings, and leaves the session manager alone. *)
Lemma validate_user_of_request request st :
  Guardrails.validate_user validate_session (user_validation cenv)
    (asdict_user_context (user_context request)) None st
  = (fst (Guardrails.validate_user validate_session (user_validation cenv)
            (asdict_user_context (user_context request)) None st), st)
  /\ Guardrails.uv_valid
       (fst (Guardrails.validate_user validate_session (user_validation cenv)
               (asdict_user_context (user_context request)) None st))
     = may_enter cenv request
  /\ (may_enter cenv request = false ->
      Guardrails.uv_error
        (fst (Guardrails.validate_user validate_session (user_validation cenv)
                (asdict_user_context (user_context request)) None st))
      = Some "Authentication required").
Proof.
  destruct (validate_user_cases validate_session (user_validation cenv)
              (asdict_user_context (user_context request)) None st) as [Hno _].
  cbv zeta in Hno. rewrite (Hno eq_refl). cbn [fst].
  unfold may_enter, Guardrails.claims_authentication, Guardrails.strict, asdict_user_context.
  cbn [Guardrails.key_authenticated Guardrails.key_is_authenticated].
  destruct (is_authenticated (user_context request));
    destruct (default true (Guardrails.require_auth
                (default Guardrails.no_user_validation (user_validation cenv))));
    destruct (default false (Guardrails.allow_anonymous
                (default Guardrails.no_user_validation (user_validation cenv))));
    cbn; repeat split; try reflexivity; discriminate.
Qed.

(** What [passes_registries] says of the two loops of the validation
    step. *)
Lemma first_unavailable_tool_none tools :
  first_unavailable_tool cenv tools = None
  <-> forallb (fun t => negb (tool_enabled t)
                        || Registry.check_tool_available (tool_file_exists cenv) (name t))
              tools = true.
Proof.
  unfold first_unavailable_tool. induction tools as [|t tools IH]; [cbn; tauto|].
  cbn [List.filter forallb].
  destruct (tool_enabled t); cbn [negb andb orb].
  - destruct (Registry.check_tool_available (tool_file_exists cenv) (name t));
      cbn [negb andb]; [exact IH|split; discriminate].
  - exact IH.
Qed.

Lemma passes_registries_true agent_specs :
  passes_registries cenv agent_specs = true
  <-> provider_errors cenv agent_specs = None
      /\ first_unavailable_tool cenv (tools agent_specs) = None.
Proof.
  unfold passes_registries. rewrite first_unavailable_tool_none, andb_true_iff.
  destruct (provider_errors cenv agent_specs); split; intros [H1 H2]; split; auto;
    discriminate.
Qed.

(** A request stopped before the limiter. *)
Lemma process_stopped agent_specs request has_metadata sm st :
  tracing cenv agent_specs = Ok tt ->
  (exists e, ensure_initialized cenv = Raise e)
  \/ passes_registries cenv agent_specs = false
  \/ has_metadata = true
  \/ may_enter cenv request = false ->
  exists message,
    process_agent_request cenv validate_session agent_specs request has_metadata sm st
    = Ok (Some (ErrorResponse message (elapsed cenv)), sm, st).
Proof.
  intros Ht Hstop. unfold process_agent_request. cbv zeta. rewrite Ht.
  destruct (ensure_initialized cenv) as [[]|e]; [|eexists; reflexivity].
  destruct (provider_errors cenv agent_specs) as [errors|] eqn:Hp; [eexists; reflexivity|].
  destruct (first_unavailable_tool cenv (tools agent_specs)) as [tool_name|] eqn:Hf;
    [eexists; reflexivity|].
  rewrite vector_db_never_missing.
  destruct has_metadata; [eexists; reflexivity|].
  destruct (validate_user_of_request request st) as (Hv & Hvalid & Herr).
  rewrite Hv, Hvalid.
  destruct Hstop as [[e He]|[Hr|[Hm|He]]]; try discriminate.
  - exfalso. assert (passes_registries cenv agent_specs = true) as Hr'
      by (apply passes_registries_true; auto). congruence.
  - rewrite He. cbn [negb]. eexists; reflexivity.
Qed.

(** A request that passes the gates: the limiter is asked, and then the
    planner. *)
Lemma process_entered agent_specs request sm st :
  tracing cenv agent_specs = Ok tt ->
  ensure_initialized cenv = Ok tt ->
  passes_registries cenv agent_specs = true ->
  may_enter cenv request = true ->
  process_agent_request cenv validate_session agent_specs request false sm st
  = (if fst (Guardrails.check_rate_limit (datetime_now cenv)
               (user_id (user_context request)) sm)
     then Ok (plan_and_execute cenv agent_specs request,
              snd (Guardrails.check_rate_limit (datetime_now cenv)
                     (user_id (user_context request)) sm), st)
     else Ok (Some (ErrorResponse "Rate limit exceeded" (elapsed cenv)),
              snd (Guardrails.check_rate_limit (datetime_now cenv)
                     (user_id (user_context request)) sm), st)).
Proof.
  intros Ht Hi Hr He. apply passes_registries_true in Hr as [Hp Hf].
  unfold process_agent_request. cbv zeta.
  rewrite Ht, Hi, Hp, Hf, vector_db_never_missing.
  destruct (validate_user_of_request request st) as (Hv & Hvalid & _).
  rewrite Hv, Hvalid, He. cbn [negb].
  destruct (Guardrails.check_rate_limit _ _ sm) as [[|] sm1]; reflexivity.
Qed.

(** The two ways [process_agent_request] returns. *)
Lemma process_cases agent_specs request has_metadata sm st r :
  process_agent_request cenv validate_session agent_specs request has_metadata sm st = Ok r ->
  tracing cenv agent_specs = Ok tt
  /\ ((exists message, r = (Some (ErrorResponse message (elapsed cenv)), sm, st))
      /\ ((exists e, ensure_initialized cenv = Raise e)
          \/ passes_registries cenv agent_specs = false
          \/ has_metadata = true
          \/ may_enter cenv request = false)
      \/ (ensure_initialized cenv = Ok tt
          /\ passes_registries cenv agent_specs = true
          /\ has_metadata = false
          /\ may_enter cenv request = true
          /\ r = (if fst (Guardrails.check_rate_limit (datetime_now cenv)
                            (user_id (user_context request)) sm)
                  then plan_and_execute cenv agent_specs request
                  else Some (ErrorResponse "Rate limit exceeded" (elapsed cenv)),
                  snd (Guardrails.check_rate_limit (datetime_now cenv)
                         (user_id (user_context request)) sm), st))).
Proof.
  intros H.
  assert (tracing cenv agent_specs = Ok tt) as Ht.
  { unfold process_agent_request in H. destruct (tracing cenv agent_specs) as [[]|e];
      [reflexivity|discriminate]. }
  split; [exact Ht|].
  destruct (ensure_initialized cenv) as [[]|e] eqn:Hi.
  2:{ left. destruct (process_stopped agent_specs request has_metadata sm st Ht) as [m Hm].
      - left. now exists e.
      - split; [exists m; congruence|]. left. now exists e. }
  destruct (passes_registries cenv agent_specs) eqn:Hr.
  2:{ left. destruct (process_stopped agent_specs request has_metadata sm st Ht) as [m Hm];
        [auto|]. split; [exists m; congruence|auto]. }
  destruct has_metadata.
  { left. destruct (process_stopped agent_specs request true sm st Ht) as [m Hm];
      [auto|]. split; [exists m; congruence|auto]. }
  destruct (may_enter cenv request) eqn:He.
  2:{ left. destruct (process_stopped agent_specs request false sm st Ht) as [m Hm];
        [auto|]. split; [exists m; congruence|auto]. }
  right. rewrite (process_entered agent_specs request sm st Ht Hi Hr He) in H.
  repeat split; auto.
  destruct (fst (Guardrails.check_rate_limit _ _ sm)); congruence.
Qed.

(** The plan of a response that was executed. *)
Lemma plan_and_execute_executed agent_specs request result plan t :
  plan_and_execute cenv agent_specs request = Some (Executed result plan t) ->
  execute_plan (world cenv) (engine cenv) (fuel cenv) plan request = Some result
  /\ original_specs plan = agent_specs.
Proof.
  unfold plan_and_execute. cbv zeta.
  destruct (Registry.mem _ _).
  - destruct (Cortex.create_execution_plan (planner cenv) agent_specs request)
      as [p|e] eqn:Hc; [|discriminate].
    destruct (Cortex._validate_reasoning_output (planner cenv) p) as [valid issues].
    destruct valid; cbn [negb]; [|discriminate].
    destruct (execute_plan _ _ _ p request) eqn:Hx; [|discriminate].
    intros [= <- <- <-]. split; [exact Hx|].
    exact (proj1 (plan_original (planner cenv) agent_specs request p Hc)).
  - destruct (execute_plan _ _ _ (unreasoned_plan cenv agent_specs) request) eqn:Hx;
      [|discriminate].
    intros [= <- <- <-]. split; [exact Hx|reflexivity].
Qed.
End PipelineFacts.

Section PipelineTheorems.
Import Pipeline.

(** X26. The order of the gates.  A request that fails to initialise
    the Cortex, names a provider or a model the registry refuses, asks
    for an enabled tool the registry does not have, carries metadata, or
    is not allowed in by [validate_user], is answered with an error
    response, and neither the limiter nor the session manager has
    changed: a request turned away at these gates does not count
    against the rate limit of its user. *)
Theorem rejected_before_limiter {S : Type} (cenv : CortexEnv)
    (validate_session : string -> Guardrails.UserDict -> S -> Guardrails.SessionAnswer * S)
    (agent_specs : AgentExecutionSpec) (request : BrainRequest) (has_metadata : bool)
    (sm : Guardrails.SecurityManager) (st : S) :
  tracing cenv agent_specs = Ok tt ->
  (exists e, ensure_initialized cenv = Raise e)
  \/ passes_registries cenv agent_specs = false
  \/ has_metadata = true
  \/ may_enter cenv request = false ->
  exists message,
    process_agent_request cenv validate_session agent_specs request has_metadata sm st
    = Ok (Some (ErrorResponse message (elapsed cenv)), sm, st).
Proof. apply process_stopped. Qed.

Lemma rejected_before_limiter_witness :
  exists message,
    process_agent_request office one_token plain_specs stranger false two_a_minute 0
    = Ok (Some (ErrorResponse message (elapsed office)), two_a_minute, 0).
Proof.
  apply (rejected_before_limiter office one_token plain_specs stranger false two_a_minute 0);
    [reflexivity|].
  right. right. right. reflexivity.
Defined.

(** X27. A request that carries metadata never reaches the workflow:
    once past the registries it is answered with the internal error of
    the call [request.metadata.dict()], a method [RequestMetadata] does
    not have, whoever the user is. *)
Theorem metadata_breaks_request {S : Type} (cenv : CortexEnv)
    (validate_session : string -> Guardrails.UserDict -> S -> Guardrails.SessionAnswer * S)
    (agent_specs : AgentExecutionSpec) (request : BrainRequest)
    (sm : Guardrails.SecurityManager) (st : S) :
  tracing cenv agent_specs = Ok tt ->
  ensure_initialized cenv = Ok tt ->
  passes_registries cenv agent_specs = true ->
  process_agent_request cenv validate_session agent_specs request true sm st
  = Ok (Some (ErrorResponse
                "Internal error: 'RequestMetadata' object has no attribute 'dict'"
                (elapsed cenv)), sm, st).
Proof.
  intros Ht Hi Hr. apply passes_registries_true in Hr as [Hp Hf].
  unfold process_agent_request. cbv zeta.
  rewrite Ht, Hi, Hp, Hf, vector_db_never_missing. reflexivity.
Qed.

Lemma metadata_breaks_request_witness :
  process_agent_request office one_token plain_specs hello true two_a_minute 0
  = Ok (Some (ErrorResponse
                "Internal error: 'RequestMetadata' object has no attribute 'dict'"
                (elapsed office)), two_a_minute, 0).
Proof.
  apply (metadata_breaks_request office one_token plain_specs hello two_a_minute 0);
    reflexivity.
Defined.

(** X28. A response that comes from the workflow has passed every
    gate: the registries accepted the provider and the enabled tools,
    the request carried no metadata, [validate_user] let it in, and the
    limiter let it through and recorded it; the plan that ran keeps the
    spec of the agent as its original; and, on the engine as
    [_build_graph] leaves it, the response reports success. *)
Theorem executed_request_passed_every_gate {S : Type} (cenv : CortexEnv)
    (validate_session : string -> Guardrails.UserDict -> S -> Guardrails.SessionAnswer * S)
    (agent_specs : AgentExecutionSpec) (request : BrainRequest) (has_metadata : bool)
    (sm sm' : Guardrails.SecurityManager) (st st' : S)
    (result : ExecutionResult) (plan : ExecutionPlan) (t : Q) (langgraph : bool) :
  engine cenv = _build_graph langgraph ->
  process_agent_request cenv validate_session agent_specs request has_metadata sm st
  = Ok (Some (Executed result plan t), sm', st') ->
  passes_registries cenv agent_specs = true
  /\ has_metadata = false
  /\ may_enter cenv request = true
  /\ Guardrails.check_rate_limit (datetime_now cenv) (user_id (user_context request)) sm
     = (true, sm')
  /\ st' = st
  /\ original_specs plan = agent_specs
  /\ execute_plan (world cenv) (engine cenv) (fuel cenv) plan request = Some result
  /\ result_success result = true.
Proof.
  intros He H.
  destruct (process_cases cenv validate_session _ _ _ _ _ _ H)
    as [_ [[(m & Hm) _]|(Hi & Hr & Hmeta & Hin & Hres)]]; [discriminate|].
  destruct (Guardrails.check_rate_limit _ _ sm) as [[|] sm1] eqn:Hl;
    cbn [fst snd] in Hres; [|discriminate].
  injection Hres as Hx <- <-.
  symmetry in Hx.
  destruct (plan_and_execute_executed cenv _ _ _ _ _ Hx) as [Hexec Ho].
  repeat split; auto.
  revert Hexec. unfold execute_plan. rewrite He.
  destruct (run_workflow (world cenv) (_build_graph langgraph) (fuel cenv) plan request)
    as [final|] eqn:Hrun; [|discriminate].
  intros [= <-]. eapply finished_run_success; eauto.
Qed.

Lemma executed_request_passed_every_gate_witness :
  exists result plan t sm',
    process_agent_request office one_token plain_specs hello false two_a_minute 0
    = Ok (Some (Executed result plan t), sm', 0)
    /\ result_success result = true.
Proof.
  destruct (process_agent_request office one_token plain_specs hello false two_a_minute 0)
    as [[[[[m t|result plan t]|] sm'] st']|e] eqn:H;
    try (vm_compute in H; discriminate).
  destruct (executed_request_passed_every_gate office one_token plain_specs hello false
              two_a_minute sm' 0 st' result plan t true eq_refl H)
    as (_ & _ & _ & _ & -> & _ & _ & Hs).
  exists result, plan, t, sm'. split; [reflexivity|exact Hs].
Defined.

(** X29. What [process_agent_request] never does.  It never consults
    the session manager, whose state comes back as it went in: the
    dictionary made of the user context has no token, and the only
    other place a token is looked for is the metadata, which raises.
    And it never answers "Data source 'vector_db' not available": the
    test of that gate compares [str] of a member of the enumeration,
    which is "DataSourceType.VECTOR_DB", with "vector_db". *)
Theorem never_consults_sessions {S : Type} (cenv : CortexEnv)
    (validate_session : string -> Guardrails.UserDict -> S -> Guardrails.SessionAnswer * S)
    (agent_specs : AgentExecutionSpec) (request : BrainRequest) (has_metadata : bool)
    (sm sm' : Guardrails.SecurityManager) (st st' : S) (response : option Response) :
  process_agent_request cenv validate_session agent_specs request has_metadata sm st
  = Ok (response, sm', st') ->
  st' = st
  /\ vector_db_missing cenv (data_sources agent_specs) = false
  /\ forall t, response <> Some (ErrorResponse "Data source 'vector_db' not available" t).
Proof.
  intros H. split; [|split; [apply vector_db_never_missing|]].
  - destruct (process_cases cenv validate_session _ _ _ _ _ _ H)
      as [_ [[(m & Hm) _]|(_ & _ & _ & _ & Hres)]]; congruence.
  - intros t Hr. subst response.
    unfold process_agent_request in H. cbv zeta in H.
    rewrite vector_db_never_missing in H.
    destruct (tracing cenv agent_specs) as [[]|]; [|discriminate].
    destruct (ensure_initialized cenv) as [[]|]; [|discriminate].
    destruct (provider_errors cenv agent_specs); [discriminate|].
    destruct (first_unavailable_tool cenv (tools agent_specs)); [discriminate|].
    destruct has_metadata; [discriminate|].
    destruct (Guardrails.validate_user _ _ _ _ _) as [auth st1].
    destruct (negb (Guardrails.uv_valid auth)); [discriminate|].
    destruct (Guardrails.check_rate_limit _ _ sm) as [allowed sm1].
    destruct (negb allowed); [discriminate|].
    injection H as H _ _. revert H. unfold plan_and_execute. cbv zeta.
    destruct (Registry.mem _ _).
    + destruct (Cortex.create_execution_plan _ _ _) as [p|e]; [|discriminate].
      destruct (Cortex._validate_reasoning_output _ p) as [valid issues].
      destruct (negb valid); [discriminate|].
      destruct (execute_plan _ _ _ _ _); discriminate.
    + destruct (execute_plan _ _ _ _ _); discriminate.
Qed.

Lemma never_consults_sessions_witness :
  exists response sm',
    process_agent_request office one_token plain_specs stranger false two_a_minute 0
    = Ok (response, sm', 0).
Proof.
  destruct (process_agent_request office one_token plain_specs stranger false two_a_minute 0)
    as [[[response sm'] st']|e] eqn:H; [|vm_compute in H; discriminate].
  destruct (never_consults_sessions office one_token plain_specs stranger false
              two_a_minute sm' 0 st' response H) as [-> _].
  now exists response, sm'.
Defined.

(** X30. A plan turned down costs the user a request.  When a request
    has passed the gates and the limiter, and the plan of the reasoned
    or adaptive strategy is then refused by
    [_validate_reasoning_output], the answer is the error "Reasoning
    validation failed" with the issues, no provider is called, and the
    limiter keeps the time stamp it recorded for the request. *)
Theorem rejected_plan_spends_budget {S : Type} (cenv : CortexEnv)
    (validate_session : string -> Guardrails.UserDict -> S -> Guardrails.SessionAnswer * S)
    (agent_specs : AgentExecutionSpec) (request : BrainRequest)
    (sm : Guardrails.SecurityManager) (st : S) (proc : ProcessingSpec)
    (plan : ExecutionPlan) :
  tracing cenv agent_specs = Ok tt ->
  ensure_initialized cenv = Ok tt ->
  passes_registries cenv agent_specs = true ->
  may_enter cenv request = true ->
  Guardrails.rate_limiting_enabled (Guardrails.config sm) = true ->
  fst (Guardrails.check_rate_limit (datetime_now cenv) (user_id (user_context request)) sm)
  = true ->
  processing agent_specs = Some proc ->
  Registry.mem (execution_strategy proc) ["reasoned"; "adaptive"] = true ->
  Cortex.create_execution_plan (planner cenv) agent_specs request = Ok plan ->
  fst (Cortex._validate_reasoning_output (planner cenv) plan) = false ->
  exists sm' w,
    process_agent_request cenv validate_session agent_specs request false sm st
    = Ok (Some (ErrorResponse
                  ("Reasoning validation failed: "
                   +:+ join "; " (snd (Cortex._validate_reasoning_output (planner cenv) plan)))
                  (elapsed cenv)), sm', st)
    /\ Guardrails.rate_limits sm' !! user_id (user_context request) = Some w
    /\ In (datetime_now cenv) (Guardrails.minute w)
    /\ In (datetime_now cenv) (Guardrails.hour w).
Proof.
  intros Ht Hi Hr He Hen Hok Hp Hs Hc Hv.
  rewrite (process_entered cenv validate_session agent_specs request sm st Ht Hi Hr He), Hok.
  unfold plan_and_execute. cbv zeta. rewrite Hp, Hs, Hc.
  destruct (Cortex._validate_reasoning_output (planner cenv) plan) as [valid issues].
  cbn [fst snd] in *. subst valid. cbn [negb].
  rewrite (check_rate_limit_enabled _ _ _ Hen) in Hok |- *. cbn [fst snd] in *.
  rewrite Hok. cbn [Guardrails.stamped].
  eexists. eexists. split; [reflexivity|].
  cbn [Guardrails.rate_limits]. rewrite lookup_insert_eq.
  split; [reflexivity|]. cbn [Guardrails.minute Guardrails.hour].
  split; apply in_or_app; right; left; reflexivity.
Qed.

Lemma rejected_plan_spends_budget_witness :
  exists sm' w message,
    process_agent_request unpriced_office one_token reasoned_specs hello false two_a_minute 0
    = Ok (Some (ErrorResponse message (elapsed unpriced_office)), sm', 0)
    /\ Guardrails.rate_limits sm' !! "alice" = Some w
    /\ In 0%Z (Guardrails.minute w).
Proof.
  destruct (Cortex.create_execution_plan unpriced_planner reasoned_specs hello)
    as [plan|e] eqn:Hc; [|vm_compute in Hc; discriminate].
  destruct (rejected_plan_spends_budget unpriced_office one_token reasoned_specs hello
              two_a_minute 0
              {| max_iterations := 3; timeout_seconds := 30;
                 execution_strategy := "reasoned";
                 reasoning_threshold := 0.7; eval := false |} plan)
    as (sm' & w & Hrun & Hw & Hm & _);
    try reflexivity.
  - exact Hc.
  - vm_compute in Hc. injection Hc as <-. reflexivity.
  - exists sm', w. eexists. split; [exact Hrun|]. split; [exact Hw|exact Hm].
Defined.
End PipelineTheorems.

